(** * Homelab benchmarking dashboard: run sequencer, broadcaster, metric
      extractor and run store

    A shallow embedding of [app.py], [benchmarks/data_parser.py] and
    [benchmarks/gpu_monitor.py].

    Conventions of the embedding.
    - A Python [str] is a [text]: the list of its code points.  Code points
      are restricted to U+0000..U+00FF, one [ascii] per code point; the
      tools whose output is parsed (sysbench, nvidia-smi, ollama) print
      such text.  Broadcast messages, which the source decorates with
      pictographs, are kept as structured values.
    - A Python [float] obtained from a decimal literal is the rational the
      literal denotes ([Q], reduced); binary64 rounding is not represented.
    - A [dict] keyed by strings is a [gmap string _].
    - Exceptions are explicit: a fallible operation returns [option] or a
      sum, and every [try]/[except] of the source is a [match]. *)

From Stdlib Require Import ZArith QArith Qround Ascii String Bool DecimalString.
From stdpp Require Import base list option gmap strings.

Local Open Scope nat_scope.

(** ** Text: Python [str] methods *)

Module Text.

Definition text := list ascii.

Definition txt (s : string) : text := list_ascii_of_string s.

Definition code (c : ascii) : nat := nat_of_ascii c.

Definition char_eqb (a b : ascii) : bool := Ascii.eqb a b.

Fixpoint text_eqb (a b : text) : bool :=
  match a, b with
  | [], [] => true
  | x :: a', y :: b' => char_eqb x y && text_eqb a' b'
  | _, _ => false
  end.

(** [str.isspace] on one code point below U+0100. *)
Definition is_space (c : ascii) : bool :=
  let n := code c in
  ((9 <=? n) && (n <=? 13)) || ((28 <=? n) && (n <=? 32))
  || (n =? 133) || (n =? 160).

(** Unicode decimal digits below U+0100 are [0-9]. *)
Definition is_digit (c : ascii) : bool :=
  let n := code c in (48 <=? n) && (n <=? 57).

Definition newline : ascii := ascii_of_nat 10.
Definition ESC : ascii := ascii_of_nat 27.

(** [s.lstrip()], [s.rstrip()], [s.strip()] *)
Fixpoint lstrip (s : text) : text :=
  match s with
  | c :: s' => if is_space c then lstrip s' else s
  | [] => []
  end.

Definition rstrip (s : text) : text := rev (lstrip (rev s)).

Definition strip (s : text) : text := rstrip (lstrip s).

(** [s.lower()] below U+0100 *)
Definition lower_char (c : ascii) : ascii :=
  let n := code c in
  if ((65 <=? n) && (n <=? 90))
     || ((192 <=? n) && (n <=? 222) && negb (n =? 215))
  then ascii_of_nat (n + 32) else c.

Definition lower (s : text) : text := map lower_char s.

(** [s.startswith(p)] *)
Fixpoint startswith (p s : text) : bool :=
  match p, s with
  | [], _ => true
  | a :: p', b :: s' => char_eqb a b && startswith p' s'
  | _ :: _, [] => false
  end.

(** [s.endswith(p)] *)
Definition endswith (p s : text) : bool := startswith (rev p) (rev s).

(** [p in s] *)
Fixpoint contains (p s : text) : bool :=
  startswith p s ||
  match s with
  | [] => false
  | _ :: s' => contains p s'
  end.

(** [s.split(sep)] for a one-character separator. *)
Fixpoint split_on (sep : ascii) (s : text) : list text :=
  match s with
  | [] => [[]]
  | c :: s' =>
      if char_eqb c sep then [] :: split_on sep s'
      else match split_on sep s' with
           | w :: ws => (c :: w) :: ws
           | [] => [[c]]
           end
  end.

(** [s.split(sep, 1)] for a one-character separator. *)
Fixpoint split_once (sep : ascii) (s : text) : list text :=
  match s with
  | [] => [[]]
  | c :: s' =>
      if char_eqb c sep then [[]; s']
      else match split_once sep s' with
           | w :: ws => (c :: w) :: ws
           | [] => [[c]]
           end
  end.

(** [s.split()]: maximal runs of non-whitespace. *)
Fixpoint words_go (cur : text) (s : text) : list text :=
  match s with
  | [] => match cur with [] => [] | _ => [rev cur] end
  | c :: s' =>
      if is_space c then
        match cur with
        | [] => words_go [] s'
        | _ => rev cur :: words_go [] s'
        end
      else words_go (c :: cur) s'
  end.

Definition words (s : text) : list text := words_go [] s.

(** [sep.join(parts)] *)
Fixpoint join (sep : text) (parts : list text) : text :=
  match parts with
  | [] => []
  | [p] => p
  | p :: ps => p ++ sep ++ join sep ps
  end.

(** [s.replace(a, b)] for one-character [a] and [b]. *)
Definition replace_char (a b : ascii) (s : text) : text :=
  map (fun c => if char_eqb c a then b else c) s.

(** Decimal rendering of a natural number, as [str(n)] does. *)
Definition str_of_nat (n : nat) : text :=
  txt (NilEmpty.string_of_uint (Nat.to_uint n)).

End Text.

Import Text.

(** ** Regular expressions: the fragment of Python [re] the source uses *)

Module Re.

(** Character classes. *)
Inductive cclass :=
| CChar (c : ascii)            (* a literal character *)
| CDigit                       (* \d *)
| CSpace                       (* \s *)
| CDot                         (* .  : anything but a newline *)
| CRange (lo hi : ascii)       (* lo-hi inside brackets *)
| CUnion (a b : cclass).

Fixpoint cmatch (p : cclass) (c : ascii) : bool :=
  match p with
  | CChar a => char_eqb c a
  | CDigit => is_digit c
  | CSpace => is_space c
  | CDot => negb (char_eqb c newline)
  | CRange lo hi => (code lo <=? code c) && (code c <=? code hi)
  | CUnion a b => cmatch a c || cmatch b c
  end.

(** The number of leading characters of [s] in the class [p]. *)
Fixpoint span (p : cclass) (s : text) : nat :=
  match s with
  | c :: s' => if cmatch p c then S (span p s') else 0
  | [] => 0
  end.

(** Patterns.  Repetition is only ever applied to a character class in the
    source, so [Rep] carries a class: [Rep g n p] is [p{n,}], greedy when
    [g] holds and lazy otherwise. *)
Inductive regex :=
| Emp
| Cls (p : cclass)
| Seq (a b : regex)
| Alt (a b : regex)
| Rep (greedy : bool) (min : nat) (p : cclass)
| Opt (p : cclass)
| Grp (a : regex).

(** The literal pattern for a string. *)
Fixpoint lit_text (s : text) : regex :=
  match s with
  | [] => Emp
  | [c] => Cls (CChar c)
  | c :: s' => Seq (Cls (CChar c)) (lit_text s')
  end.

Definition lit (s : string) : regex := lit_text (txt s).

Fixpoint seqs (rs : list regex) : regex :=
  match rs with
  | [] => Emp
  | [r] => r
  | r :: rs' => Seq r (seqs rs')
  end.

Section Matcher.
Context {A : Type}.

(** [p{min,}] followed by the continuation [k]; backtracking order is
    longest first when greedy, shortest first when lazy. *)
Fixpoint rep_match (greedy : bool) (p : cclass) (min : nat) (s : text)
    (k : text -> option A) : option A :=
  let stop := match min with 0 => k s | S _ => None end in
  match s with
  | c :: s' =>
      if cmatch p c then
        if greedy then
          match rep_match greedy p (pred min) s' k with
          | Some r => Some r
          | None => stop
          end
        else
          match stop with
          | Some r => Some r
          | None => rep_match greedy p (pred min) s' k
          end
      else stop
  | [] => stop
  end.

(** Backtracking matcher in continuation-passing style.  [caps] is the
    list of group captures closed so far, in order. *)
Fixpoint rmatch (r : regex) (s : text) (caps : list text)
    (k : text -> list text -> option A) : option A :=
  match r with
  | Emp => k s caps
  | Cls p =>
      match s with
      | c :: s' => if cmatch p c then k s' caps else None
      | [] => None
      end
  | Seq a b => rmatch a s caps (fun s1 c1 => rmatch b s1 c1 k)
  | Alt a b =>
      match rmatch a s caps k with
      | Some x => Some x
      | None => rmatch b s caps k
      end
  | Rep g min p => rep_match g p min s (fun s' => k s' caps)
  | Opt p =>
      match s with
      | c :: s' =>
          if cmatch p c then
            match k s' caps with
            | Some x => Some x
            | None => k s caps
            end
          else k s caps
      | [] => k s caps
      end
  | Grp a =>
      rmatch a s caps
        (fun s' c' => k s' (c' ++ [take (length s - length s') s]))
  end.
End Matcher.

(** A match anchored at the start of [s]: matched text, groups, rest. *)
Definition match_at (r : regex) (s : text) : option (text * list text * text) :=
  rmatch r s [] (fun s' caps => Some (take (length s - length s') s, caps, s')).

(** [re.search(r, s)]: the groups of the leftmost match. *)
Fixpoint search (r : regex) (s : text) : option (list text) :=
  match match_at r s with
  | Some (_, caps, _) => Some caps
  | None =>
      match s with
      | [] => None
      | _ :: s' => search r s'
      end
  end.

(** [m.group(i)] for [i >= 1]. *)
Definition group (i : nat) (caps : list text) : text :=
  default [] (caps !! (i - 1)).

(** [re.sub(r, repl, s)] for a pattern that matches no empty string:
    leftmost matches, not overlapping, in one pass.  [skip] counts the
    characters of the current match still to be dropped. *)
Fixpoint sub_go (r : regex) (repl : text) (s : text) (skip : nat) : text :=
  match s with
  | [] => []
  | c :: s' =>
      match skip with
      | S n => sub_go r repl s' n
      | 0 =>
          match match_at r s with
          | Some (m, _, _) =>
              match length m with
              | 0 => c :: sub_go r repl s' 0
              | S n => repl ++ sub_go r repl s' n
              end
          | None => c :: sub_go r repl s' 0
          end
      end
  end.

Definition sub (r : regex) (repl : text) (s : text) : text := sub_go r repl s 0.

(** [re.findall(r, s)] for a pattern with exactly one group that matches
    no empty string: the group of every leftmost non-overlapping match. *)
Fixpoint findall_go (r : regex) (s : text) (skip : nat) : list text :=
  match s with
  | [] => []
  | _ :: s' =>
      match skip with
      | S n => findall_go r s' n
      | 0 =>
          match match_at r s with
          | Some (m, caps, _) =>
              match length m with
              | 0 => findall_go r s' 0
              | S n => group 1 caps :: findall_go r s' n
              end
          | None => findall_go r s' 0
          end
      end
  end.

Definition findall (r : regex) (s : text) : list text := findall_go r s 0.

(** Frequent pieces. *)
Definition digits : regex := Rep true 1 CDigit.                 (* \d+ *)
Definition decimal : regex :=                                   (* \d+\.\d+ *)
  seqs [digits; Cls (CChar "."); digits].
Definition spaces1 : regex := Rep true 1 CSpace.                (* \s+ *)
Definition spaces0 : regex := Rep true 0 CSpace.                (* \s* *)

End Re.

Import Re.

(** ** Numbers: [int()] and [float()] on text *)

Module Num.

Inductive pynum :=
| PInt (z : Z)
| PFloat (q : Q).

(** The value of a [float]: finite, infinite or not-a-number. *)
Inductive pyfloat :=
| FFin (q : Q)
| FInf (negative : bool)
| FNan.

Definition digit_val (c : ascii) : Z := Z.of_nat (code c - 48).

(** The number a run of decimal digits denotes. *)
Definition int_of_digits (s : text) : Z :=
  fold_left (fun acc c => (10 * acc + digit_val c)%Z) s 0%Z.

(** [mant * 10^e] as a reduced rational. *)
Definition scale10 (mant e : Z) : Q :=
  if (0 <=? e)%Z then Qred (inject_Z (mant * 10 ^ e))
  else Qred (Qmake mant (Z.to_pos (10 ^ (- e)))).

(** [digitpart ::= digit (["_"] digit)*]: the digits read and the rest. *)
Fixpoint digitpart_go (s : text) : text * text :=
  match s with
  | c :: s' =>
      if is_digit c then
        let '(ds, rest) := digitpart_go s' in (c :: ds, rest)
      else if char_eqb c "_" then
        match s' with
        | d :: _ =>
            if is_digit d then digitpart_go s' else ([], s)
        | [] => ([], s)
        end
      else ([], s)
  | [] => ([], [])
  end.

Definition digitpart (s : text) : option (text * text) :=
  match s with
  | c :: _ => if is_digit c then Some (digitpart_go s) else None
  | [] => None
  end.

Definition take_sign (s : text) : bool * text :=
  match s with
  | c :: s' =>
      if char_eqb c "-" then (true, s')
      else if char_eqb c "+" then (false, s')
      else (false, s)
  | [] => (false, [])
  end.

(** [exponent ::= ("e" | "E") [sign] digitpart], absent when [s] is empty. *)
Definition exponent (s : text) : option Z :=
  match s with
  | [] => Some 0%Z
  | c :: s' =>
      if char_eqb (lower_char c) "e" then
        let '(neg, s1) := take_sign s' in
        match digitpart s1 with
        | Some (ds, []) =>
            Some (if neg then (- int_of_digits ds)%Z else int_of_digits ds)
        | _ => None
        end
      else None
  end.

(** [number ::= [digitpart] "." digitpart | digitpart ["."]] followed by
    an optional exponent and nothing else. *)
Definition floatnumber (s : text) : option Q :=
  let finish (ip fp rest : text) :=
    match exponent rest with
    | Some e =>
        Some (scale10 (int_of_digits (ip ++ fp)) (e - Z.of_nat (length fp)))
    | None => None
    end in
  match digitpart s with
  | Some (ip, rest) =>
      match rest with
      | c :: rest' =>
          if char_eqb c "." then
            match digitpart rest' with
            | Some (fp, rest'') => finish ip fp rest''
            | None => finish ip [] rest'
            end
          else finish ip [] rest
      | [] => finish ip [] []
      end
  | None =>
      match s with
      | c :: rest' =>
          if char_eqb c "." then
            match digitpart rest' with
            | Some (fp, rest'') => finish [] fp rest''
            | None => None
            end
          else None
      | [] => None
      end
  end.

(** [float(s)] for a [str]; [None] is [ValueError]. *)
Definition py_float (s : text) : option pyfloat :=
  let '(neg, body) := take_sign (strip s) in
  let word := lower body in
  if text_eqb word (txt "inf") || text_eqb word (txt "infinity") then
    Some (FInf neg)
  else if text_eqb word (txt "nan") then Some FNan
  else
    match floatnumber body with
    | Some q => Some (FFin (if neg then Qred (- q) else q))
    | None => None
    end.

(** [float(s)] where [s] was captured by [\d+\.\d+], [\d+] or
    [\d+\.?\d*]: on such text no exception is possible, and the value is
    the one the digits denote. *)
Definition float_of_literal (s : text) : Q :=
  match split_once "." s with
  | [ip; fp] => scale10 (int_of_digits (ip ++ fp)) (- Z.of_nat (length fp))
  | _ => scale10 (int_of_digits s) 0
  end.

(** [int(s)] where [s] was captured by [\d+]. *)
Definition int_of_literal (s : text) : Z := int_of_digits s.

Definition Qleb (a b : Q) : bool := Qle_bool a b.

End Num.

Import Num.

(** ** [benchmarks/data_parser.py]: class [BenchmarkDataParser] *)

Module DataParser.

(** The [metrics] dictionary of the three sysbench parsers. *)
Abbreviation dict := (gmap string pynum).

Definition has (needle : string) (line : text) : bool :=
  contains (txt needle) line.

Definition pfloat (s : text) : pynum := PFloat (float_of_literal s).
Definition pint (s : text) : pynum := PInt (int_of_literal s).

(** Patterns of the three sysbench parsers. *)
Definition re_int : regex := Grp digits.
Definition re_events_per_second : regex :=
  seqs [lit "events per second:"; spaces0; Grp decimal].
Definition re_total_time : regex := seqs [Grp decimal; spaces1; lit "s"].
Definition re_min_avg_max : regex :=
  seqs [lit "min:"; spaces1; Grp decimal; spaces1;
        lit "avg:"; spaces1; Grp decimal; spaces1;
        lit "max:"; spaces1; Grp decimal].
Definition re_avg_stddev (prefix : string) : regex :=
  seqs [lit prefix; Rep true 0 CDot; lit "(avg/stddev):"; spaces1;
        Grp decimal; lit "/"; Grp decimal].
Definition re_ops_per_second : regex :=
  seqs [Grp decimal; spaces1; lit "operations per second"].
Definition re_mib_sec : regex := seqs [Grp decimal; spaces1; lit "MiB/sec"].
Definition re_percent : regex := seqs [Grp decimal; lit "%"].
Definition re_ms : regex := seqs [Grp decimal; spaces1; lit "ms"].
Definition re_decimal : regex := Grp decimal.
Definition re_mib : regex := seqs [Grp decimal; spaces1; lit "MiB"].
Definition re_bytes : regex :=
  seqs [Grp digits; spaces1; lit "byte"; Opt (CChar "s")].

(** [min: a avg: b max: c] stored under three keys. *)
Definition put_stats (kmin kavg kmax : string) (line : text) (metrics : dict)
    : dict :=
  match search re_min_avg_max line with
  | Some m =>
      <[kmax := pfloat (group 3 m)]>
        (<[kavg := pfloat (group 2 m)]>
           (<[kmin := pfloat (group 1 m)]> metrics))
  | None => metrics
  end.

Definition has_stats (line : text) : bool :=
  has "min:" line && has "avg:" line && has "max:" line.

(** One iteration of the loop of [parse_sysbench_cpu]. *)
Definition cpu_step (metrics : dict) (raw : text) : dict :=
  let line := strip raw in
  let metrics :=
    if has "total number of events" line then
      match search re_int line with
      | Some m => <["total_events" := pint (group 1 m)]> metrics
      | None => metrics
      end
    else metrics in
  let metrics :=
    if has "events per second" line then
      match search re_events_per_second line with
      | Some m => <["events_per_second" := pfloat (group 1 m)]> metrics
      | None => metrics
      end
    else metrics in
  let metrics :=
    if has "total time:" line && has "s" line then
      match search re_total_time line with
      | Some m => <["total_time_seconds" := pfloat (group 1 m)]> metrics
      | None => metrics
      end
    else metrics in
  let metrics :=
    if has_stats line then
      put_stats "event_time_min_ms" "event_time_avg_ms" "event_time_max_ms"
        line metrics
    else metrics in
  if has "threads fairness:" line then
    let metrics :=
      if has "events (avg/stddev)" line then
        match search (re_avg_stddev "events") line with
        | Some m =>
            <["thread_events_stddev" := pfloat (group 2 m)]>
              (<["thread_events_avg" := pfloat (group 1 m)]> metrics)
        | None => metrics
        end
      else metrics in
    if has "execution time (avg/stddev)" line then
      match search (re_avg_stddev "execution time") line with
      | Some m =>
          <["thread_time_stddev" := pfloat (group 2 m)]>
            (<["thread_time_avg" := pfloat (group 1 m)]> metrics)
      | None => metrics
      end
    else metrics
  else metrics.

Definition parse_sysbench_cpu (output : list text) : dict :=
  fold_left cpu_step output ∅.

(** The key [f'percentile_{percent}_ms']. *)
Definition percentile_key (percent : text) : string :=
  ("percentile_" +:+ string_of_list_ascii percent +:+ "_ms")%string.

(** The loop over [enumerate(percentile_match)] guarded by
    [i < len(time_match)]. *)
Fixpoint put_percentiles (percents times : list text) (metrics : dict)
    : dict :=
  match percents, times with
  | p :: ps, t :: ts =>
      put_percentiles ps ts (<[percentile_key p := pfloat t]> metrics)
  | _, _ => metrics
  end.

(** One iteration of the loop of [parse_sysbench_memory]. *)
Definition memory_step (metrics : dict) (raw : text) : dict :=
  let line := strip raw in
  let metrics :=
    if has "total number of operations" line then
      match search re_int line with
      | Some m => <["total_operations" := pint (group 1 m)]> metrics
      | None => metrics
      end
    else metrics in
  let metrics :=
    if has "operations per second" line then
      match search re_ops_per_second line with
      | Some m => <["operations_per_second" := pfloat (group 1 m)]> metrics
      | None => metrics
      end
    else metrics in
  let metrics :=
    if has "transferred" line then
      match search re_mib_sec line with
      | Some m =>
          if has "read" (lower line)
             || bool_decide (metrics !! "read_mib_sec" = None)
          then <["read_mib_sec" := pfloat (group 1 m)]> metrics
          else <["write_mib_sec" := pfloat (group 1 m)]> metrics
      | None => metrics
      end
    else metrics in
  let metrics :=
    if has "Percentile" line && has "ms" line then
      let percentile_match := findall re_percent line in
      let time_match := findall re_ms line in
      match percentile_match, time_match with
      | _ :: _, _ :: _ => put_percentiles percentile_match time_match metrics
      | _, _ => metrics
      end
    else metrics in
  if has_stats line then
    put_stats "latency_min_ms" "latency_avg_ms" "latency_max_ms" line metrics
  else metrics.

Definition parse_sysbench_memory (output : list text) : dict :=
  fold_left memory_step output ∅.

(** The invariant of the loop of [parse_sysbench_memory]: the write rate
    is only ever stored beside a read rate. *)
Definition write_needs_read (m : dict) : Prop :=
  is_Some (m !! "write_mib_sec") -> is_Some (m !! "read_mib_sec").

(** One iteration of the loop of [parse_sysbench_disk]. *)
Definition disk_step (metrics : dict) (raw : text) : dict :=
  let line := strip raw in
  let metrics :=
    if has "total number of events" line then
      match search re_int line with
      | Some m => <["total_operations" := pint (group 1 m)]> metrics
      | None => metrics
      end
    else metrics in
  let metrics :=
    if has "operations per second" line then
      match search re_ops_per_second line with
      | Some m => <["operations_per_second" := pfloat (group 1 m)]> metrics
      | None => metrics
      end
    else metrics in
  let metrics :=
    if has "read, MiB/s" line then
      match search re_decimal line with
      | Some m => <["read_mib_s" := pfloat (group 1 m)]> metrics
      | None => metrics
      end
    else metrics in
  let metrics :=
    if has "written, MiB/s" line then
      match search re_decimal line with
      | Some m => <["write_mib_s" := pfloat (group 1 m)]> metrics
      | None => metrics
      end
    else metrics in
  let metrics :=
    if has_stats line then
      put_stats "io_time_min_ms" "io_time_avg_ms" "io_time_max_ms" line metrics
    else metrics in
  let metrics :=
    if has "File size" line then
      match search re_mib line with
      | Some m => <["file_size_mib" := pfloat (group 1 m)]> metrics
      | None => metrics
      end
    else metrics in
  if has "Block size" line then
    match search re_bytes line with
    | Some m => <["block_size_bytes" := pint (group 1 m)]> metrics
    | None => metrics
    end
  else metrics.

Definition parse_sysbench_disk (output : list text) : dict :=
  fold_left disk_step output ∅.

(** [_calculate_summary_stats]; the empty dictionary is [None]. *)
Record summary := {
  s_count : nat;
  s_min : Q;
  s_max : Q;
  s_mean : Q;
  s_median : Q;
  s_p95 : Q;
  s_p99 : Q
}.

Fixpoint insert_sorted (x : Q) (l : list Q) : list Q :=
  match l with
  | [] => [x]
  | y :: l' => if Qleb y x then y :: insert_sorted x l' else x :: l
  end.

(** [sorted(values)] *)
Definition sorted (l : list Q) : list Q := fold_left (fun acc x => insert_sorted x acc) l [].

Definition qmin (a b : Q) : Q := if Qleb b a then b else a.
Definition qmax (a b : Q) : Q := if Qleb a b then b else a.

Definition list_min (l : list Q) : Q :=
  match l with [] => 0%Q | x :: l' => fold_left qmin l' x end.
Definition list_max (l : list Q) : Q :=
  match l with [] => 0%Q | x :: l' => fold_left qmax l' x end.
Definition list_sum (l : list Q) : Q :=
  fold_left (fun acc x => Qred (acc + x)) l 0%Q.

Definition nth_q (l : list Q) (i : nat) : Q := default 0%Q (l !! i).

(** [int(count * 0.95)] and [int(count * 0.99)]: the binary64 product
    truncates to the same integer as the exact one. *)
Definition int_times (count : nat) (percent : Z) : nat :=
  Z.to_nat (Z.of_nat count * percent / 100).

Definition calculate_summary_stats (values : list Q) : option summary :=
  match values with
  | [] => None
  | _ :: _ =>
      let values_sorted := sorted values in
      let count := length values in
      let qcount := inject_Z (Z.of_nat count) in
      Some {|
        s_count := count;
        s_min := list_min values;
        s_max := list_max values;
        s_mean := Qred (list_sum values / qcount);
        s_median :=
          if Nat.eqb (count mod 2) 1 then nth_q values_sorted (count / 2)
          else Qred ((nth_q values_sorted (count / 2 - 1)
                      + nth_q values_sorted (count / 2)) / 2);
        s_p95 := if 20 <? count then nth_q values_sorted (int_times count 95)
                 else list_max values;
        s_p99 := if 100 <? count then nth_q values_sorted (int_times count 99)
                 else list_max values
      |}
  end.

(** The [metrics] dictionary of [parse_gpu_metrics]: its keys are fixed. *)
Record gpu_log := {
  temperature_readings : list Q;
  utilization_readings : list Q;
  memory_used_readings : list Q;
  memory_total_readings : list Q;
  power_readings : list Q;
  timestamps : list text;
  temperature_summary : option summary;
  utilization_summary : option summary;
  memory_summary : option summary
}.

Definition gpu_log_empty : gpu_log :=
  {| temperature_readings := []; utilization_readings := [];
     memory_used_readings := []; memory_total_readings := [];
     power_readings := []; timestamps := [];
     temperature_summary := None; utilization_summary := None;
     memory_summary := None |}.

Definition degree : ascii := ascii_of_nat 176.

Definition re_temperature : regex :=
  seqs [lit "Temperature:"; spaces1; Grp digits; Cls (CChar degree); lit "C"].
Definition re_bracketed : regex :=
  seqs [lit "["; Grp (Rep false 0 CDot); lit "]"].
Definition re_utilization : regex :=
  seqs [lit "Utilization:"; spaces1; Grp digits; lit "%"].
Definition re_gpu_memory : regex :=
  seqs [lit "Memory:"; spaces1; Grp digits; lit "/"; Grp digits; spaces1;
        lit "MB"].

(** One iteration of the loop of [parse_gpu_metrics]. *)
Definition gpu_step (metrics : gpu_log) (line : text) : gpu_log :=
  let metrics :=
    if has "Temperature:" line then
      match search re_temperature line with
      | Some m =>
          let metrics :=
            {| temperature_readings :=
                 temperature_readings metrics ++ [float_of_literal (group 1 m)];
               utilization_readings := utilization_readings metrics;
               memory_used_readings := memory_used_readings metrics;
               memory_total_readings := memory_total_readings metrics;
               power_readings := power_readings metrics;
               timestamps := timestamps metrics;
               temperature_summary := temperature_summary metrics;
               utilization_summary := utilization_summary metrics;
               memory_summary := memory_summary metrics |} in
          match search re_bracketed line with
          | Some ts =>
              {| temperature_readings := temperature_readings metrics;
                 utilization_readings := utilization_readings metrics;
                 memory_used_readings := memory_used_readings metrics;
                 memory_total_readings := memory_total_readings metrics;
                 power_readings := power_readings metrics;
                 timestamps := timestamps metrics ++ [group 1 ts];
                 temperature_summary := temperature_summary metrics;
                 utilization_summary := utilization_summary metrics;
                 memory_summary := memory_summary metrics |}
          | None => metrics
          end
      | None => metrics
      end
    else metrics in
  let metrics :=
    if has "Utilization:" line then
      match search re_utilization line with
      | Some m =>
          {| temperature_readings := temperature_readings metrics;
             utilization_readings :=
               utilization_readings metrics ++ [float_of_literal (group 1 m)];
             memory_used_readings := memory_used_readings metrics;
             memory_total_readings := memory_total_readings metrics;
             power_readings := power_readings metrics;
             timestamps := timestamps metrics;
             temperature_summary := temperature_summary metrics;
             utilization_summary := utilization_summary metrics;
             memory_summary := memory_summary metrics |}
      | None => metrics
      end
    else metrics in
  if has "GPU Memory:" line then
    match search re_gpu_memory line with
    | Some m =>
        {| temperature_readings := temperature_readings metrics;
           utilization_readings := utilization_readings metrics;
           memory_used_readings :=
             memory_used_readings metrics ++ [float_of_literal (group 1 m)];
           memory_total_readings :=
             memory_total_readings metrics ++ [float_of_literal (group 2 m)];
           power_readings := power_readings metrics;
           timestamps := timestamps metrics;
           temperature_summary := temperature_summary metrics;
           utilization_summary := utilization_summary metrics;
           memory_summary := memory_summary metrics |}
    | None => metrics
    end
  else metrics.

(** The three assignments after the loop. *)
Definition gpu_summarise (metrics : gpu_log) : gpu_log :=
  {| temperature_readings := temperature_readings metrics;
     utilization_readings := utilization_readings metrics;
     memory_used_readings := memory_used_readings metrics;
     memory_total_readings := memory_total_readings metrics;
     power_readings := power_readings metrics;
     timestamps := timestamps metrics;
     temperature_summary := calculate_summary_stats (temperature_readings metrics);
     utilization_summary := calculate_summary_stats (utilization_readings metrics);
     memory_summary := calculate_summary_stats (memory_used_readings metrics) |}.

Definition parse_gpu_metrics (log_lines : list text) : gpu_log :=
  gpu_summarise (fold_left gpu_step log_lines gpu_log_empty).

(** *** The extractor seen from outside

    [BenchmarkDataParser.__init__] stores nothing, so a parser object has
    no attribute; a method call takes the object and returns it with the
    result. *)
Record parser := BenchmarkDataParser {}.

Inductive toolKind := CpuTest | MemoryTest | DiskTest | TelemetryLog.

Inductive mapping :=
| Flat (metrics : dict)
| Telemetry (metrics : gpu_log).

Definition call (self : parser) (kind : toolKind) (lines : list text)
    : parser * mapping :=
  match kind with
  | CpuTest => (self, Flat (parse_sysbench_cpu lines))
  | MemoryTest => (self, Flat (parse_sysbench_memory lines))
  | DiskTest => (self, Flat (parse_sysbench_disk lines))
  | TelemetryLog => (self, Telemetry (parse_gpu_metrics lines))
  end.

(** The guards of the rules of each tool kind, on the line as the parser
    looks at it (stripped for sysbench output, as it is for the log). *)
Definition rule_guards (kind : toolKind) (raw : text) : list bool :=
  let line := strip raw in
  match kind with
  | CpuTest =>
      [has "total number of events" line; has "events per second" line;
       has "total time:" line && has "s" line; has_stats line;
       has "threads fairness:" line]
  | MemoryTest =>
      [has "total number of operations" line; has "operations per second" line;
       has "transferred" line; has "Percentile" line && has "ms" line;
       has_stats line]
  | DiskTest =>
      [has "total number of events" line; has "operations per second" line;
       has "read, MiB/s" line; has "written, MiB/s" line; has_stats line;
       has "File size" line; has "Block size" line]
  | TelemetryLog =>
      [has "Temperature:" raw; has "Utilization:" raw; has "GPU Memory:" raw]
  end.

Definition matches_no_rule (kind : toolKind) (raw : text) : Prop :=
  Forall (fun g => g = false) (rule_guards kind raw).

End DataParser.

Import DataParser.

(** ** [app.py] *)

Module App.

(** *** Values *)

(** A connected websocket, identified by a number. *)
Abbreviation ws := nat.

Record Options := {
  opt_gpu : bool;
  opt_ollama : bool;
  opt_model : text
}.

Record pair_rw := { rw_read : pynum; rw_write : pynum }.

Record gpu_series := {
  g_temperature : list pynum;
  g_utilization : list pynum;
  g_memory_used : option (list pynum)
}.

Record ollama_result := {
  tokens_per_sec : pynum;
  latency : pynum;
  memory_mb : pynum
}.

(** The dictionary [run_metrics] of [run_benchmark], and [run_info] of
    [get_runs]; it is also what [metrics.json] holds. *)
Record RunRecord := {
  r_name : text;
  r_date : text;
  cpu1Thread : option pynum;
  cpuAllThreads : option pynum;
  memory : pair_rw;
  disk : pair_rw;
  gpu : gpu_series;
  ollama : option ollama_result
}.

Definition set_cpu1Thread (v : option pynum) (r : RunRecord) : RunRecord :=
  {| r_name := r_name r; r_date := r_date r; cpu1Thread := v;
     cpuAllThreads := cpuAllThreads r; memory := memory r; disk := disk r;
     gpu := gpu r; ollama := ollama r |}.
Definition set_cpuAllThreads (v : option pynum) (r : RunRecord) : RunRecord :=
  {| r_name := r_name r; r_date := r_date r; cpu1Thread := cpu1Thread r;
     cpuAllThreads := v; memory := memory r; disk := disk r;
     gpu := gpu r; ollama := ollama r |}.
Definition set_memory (v : pair_rw) (r : RunRecord) : RunRecord :=
  {| r_name := r_name r; r_date := r_date r; cpu1Thread := cpu1Thread r;
     cpuAllThreads := cpuAllThreads r; memory := v; disk := disk r;
     gpu := gpu r; ollama := ollama r |}.
Definition set_disk (v : pair_rw) (r : RunRecord) : RunRecord :=
  {| r_name := r_name r; r_date := r_date r; cpu1Thread := cpu1Thread r;
     cpuAllThreads := cpuAllThreads r; memory := memory r; disk := v;
     gpu := gpu r; ollama := ollama r |}.
Definition set_ollama (v : option ollama_result) (r : RunRecord) : RunRecord :=
  {| r_name := r_name r; r_date := r_date r; cpu1Thread := cpu1Thread r;
     cpuAllThreads := cpuAllThreads r; memory := memory r; disk := disk r;
     gpu := gpu r; ollama := v |}.

(** The text of a broadcast, kept structured: one constructor per
    f-string of the source. *)
Inductive message :=
| MStarted (label : text)
| MResultsDir (label run_dir : text)
| MUsingSelectedModel (label model : text)
| MAutoDetecting (label : text)
| MUsingAvailableModel (label model : text)
| MInstalling (label : text)
| MListFailed (label : text)
| MModelError (label : text)
| MOllamaUnavailable (label : text)
| MOllamaDisabled (label : text)
| MGpuEnabled (label : text)
| MGpuUnavailable (label : text)
| MRunning (label name : text)
| MLine (label name line : text)
| MLlmSaved (label : text)
| MCompleted (label name : text)
| MFailed (label name : text)
| MMetricsSaved (label path : text)
| MMetricsFailed (label : text)
| MSummary (label : text)
| MCpuScore (label : text) (score : pynum)
| MMemoryTotal (label : text) (total : pynum)
| MDiskTotal (label : text) (total : pynum)
| MFinished (label : text).

(** What a path of the run store holds. *)
Inductive node :=
| Dir
| RawText (content : text)
| MetricsDoc (r : RunRecord).

(** What [asyncio.create_subprocess_shell(cmd, stdout=PIPE, ...)] and the
    reads that follow give: the launch fails, or the process runs and its
    output arrives as the successive results of [readline()] followed by
    [decode()], [None] standing for a read or a decoding that raises. *)
Inductive proc :=
| LaunchError
| Started (stdout : list (option text)) (returncode : Z).

(** Everything outside the program. *)
Record Env := {
  RUNS_DIR : text;
  cpu_count : option nat;               (* os.cpu_count() *)
  gpu_available : bool;
  ollama_available : bool;
  now : text;                           (* datetime.now().isoformat() *)
  ctime : text -> text;                 (* isoformat of os.path.getctime(p) *)
  makedirs_ok : text -> bool;           (* os.makedirs(p, exist_ok=True) *)
  open_ok : text -> bool;               (* open(p, "w") and the write *)
  shell : text -> proc;
  send_ok : ws -> bool                  (* client.send_text does not raise *)
}.

Inductive event :=
| Published (m : message) (recipients : list ws)
| Wrote (path : text) (content : node).

(** The mutable state a run touches: the store, the global [clients]
    list, the local [run_metrics], and the trace of what was done. *)
Record State := {
  fs : gmap text node;
  clients : list ws;
  run_metrics : RunRecord;
  log : list event
}.

(** *** [broadcast] *)

(** [clients.remove(client)] inside its own [try]: the first occurrence
    goes, and an absent client changes nothing. *)
Fixpoint remove_first (c : ws) (l : list ws) : list ws :=
  match l with
  | [] => []
  | x :: l' => if Nat.eqb x c then l' else x :: remove_first c l'
  end.

(** The loop over the snapshot [clients[:]]: the list of clients as it is
    left, and the clients the message reached, in order. *)
Fixpoint broadcast_loop (ok : ws -> bool) (snapshot : list ws)
    (clients : list ws) : list ws * list ws :=
  match snapshot with
  | [] => (clients, [])
  | client :: rest =>
      if ok client then
        let '(clients', reached) := broadcast_loop ok rest clients in
        (clients', client :: reached)
      else broadcast_loop ok rest (remove_first client clients)
  end.

Definition broadcast (ok : ws -> bool) (clients : list ws)
    : list ws * list ws :=
  broadcast_loop ok clients clients.

(** *** State and exceptions *)

Inductive result (A : Type) :=
| Ok (a : A)
| Raise.
Arguments Ok {A} a.
Arguments Raise {A}.

Definition M (A : Type) : Type := State -> result A * State.

#[global] Instance M_ret : MRet M := fun A a st => (Ok a, st).
#[global] Instance M_bind : MBind M := fun A B f c st =>
  match c st with
  | (Ok a, st') => f a st'
  | (Raise, st') => (Raise, st')
  end.

Definition raise {A} : M A := fun st => (Raise, st).

(** [try: body  except Exception: handler] *)
Definition try_except {A} (body handler : M A) : M A := fun st =>
  match body st with
  | (Ok a, st') => (Ok a, st')
  | (Raise, st') => handler st'
  end.

Definition get_metrics : M RunRecord := fun st => (Ok (run_metrics st), st).

Definition update_metrics (f : RunRecord -> RunRecord) : M unit := fun st =>
  (Ok tt, {| fs := fs st; clients := clients st;
             run_metrics := f (run_metrics st); log := log st |}).

Definition for_each {A} (body : A -> M unit) : list A -> M unit :=
  fix go l :=
    match l with
    | [] => mret tt
    | x :: l' => body x ≫= fun _ => go l'
    end.

Section WithEnv.
Variable env : Env.

(** The state after [await broadcast(message)]. *)
Definition published (m : message) (st : State) : State :=
  {| fs := fs st;
     clients := fst (broadcast (send_ok env) (clients st));
     run_metrics := run_metrics st;
     log := log st
            ++ [Published m (snd (broadcast (send_ok env) (clients st)))] |}.

(** [await broadcast(message)] *)
Definition publish (m : message) : M unit := fun st =>
  (Ok tt, published m st).

(** The state after a successful write. *)
Definition wrote (path : text) (content : node) (st : State) : State :=
  {| fs := <[path := content]> (fs st); clients := clients st;
     run_metrics := run_metrics st;
     log := log st ++ [Wrote path content] |}.

(** [with open(path, "w") as f: f.write(content)] *)
Definition write_file (path : text) (content : node) : M unit := fun st =>
  if open_ok env path then (Ok tt, wrote path content st)
  else (Raise, st).

(** [os.makedirs(path, exist_ok=True)] *)
Definition makedirs (path : text) : M unit := fun st =>
  if makedirs_ok env path then
    (Ok tt, {| fs := match fs st !! path with
                     | Some _ => fs st
                     | None => <[path := Dir]> (fs st)
                     end;
               clients := clients st; run_metrics := run_metrics st;
               log := log st |})
  else (Raise, st).

(** [os.path.join(a, b)] *)
Definition path_join (a b : text) : text :=
  if startswith (txt "/") b then b
  else match a with
       | [] => b
       | _ => if endswith (txt "/") a then a ++ b else a ++ txt "/" ++ b
       end.

(** *** [run_benchmark] *)

Definition stage : Type := text * text.          (* (name, cmd) *)

Definition initial_metrics (label : text) : RunRecord :=
  {| r_name := label; r_date := now env;
     cpu1Thread := None; cpuAllThreads := None;
     memory := {| rw_read := PInt 0; rw_write := PInt 0 |};
     disk := {| rw_read := PInt 0; rw_write := PInt 0 |};
     gpu := {| g_temperature := []; g_utilization := [];
               g_memory_used := Some [] |};
     ollama := Some {| tokens_per_sec := PInt 0; latency := PInt 0;
                       memory_mb := PInt 0 |} |}.

(** [str(os.cpu_count())] *)
Definition cpu_count_str : text :=
  match cpu_count env with
  | Some n => str_of_nat n
  | None => txt "None"
  end.

(** The list [commands] as first assigned. *)
Definition base_commands (run_dir : text) : list stage :=
  [ (txt "CPU 1 thread", txt "sysbench cpu --threads=1 --time=20 run");
    (txt "CPU all threads",
     txt "sysbench cpu --threads=" ++ cpu_count_str ++ txt " --time=20 run");
    (txt "Memory test",
     txt "sysbench memory --memory-block-size=1M --memory-total-size=10G run");
    (txt "Disk test",
     txt "mkdir -p " ++ run_dir ++ txt "/disk && cd " ++ run_dir
     ++ txt "/disk && sysbench fileio --file-total-size=5G prepare"
     ++ txt " && sysbench fileio --file-test-mode=seqrd run"
     ++ txt " && sysbench fileio cleanup") ].

Definition ollama_run (model : text) : stage :=
  (txt "Ollama LLM",
   txt "ollama run " ++ model
   ++ txt " 'Explain quantum computing in simple terms.'").

(** [stdout, stderr = await p.communicate()] then [stdout.decode()]:
    the whole output, or [None] when decoding raises. *)
Fixpoint decode_all (chunks : list (option text)) : option text :=
  match chunks with
  | [] => Some []
  | None :: _ => None
  | Some c :: rest =>
      match decode_all rest with
      | Some t => Some (c ++ t)
      | None => None
      end
  end.

Definition nonempty (t : text) : bool :=
  match t with [] => false | _ :: _ => true end.

(** The names read off the output of [ollama list]. *)
Definition listed_models (stdout : text) : list text :=
  let models_text := strip stdout in
  let lines :=
    List.filter nonempty (map strip (split_on newline models_text)) in
  flat_map
    (fun line =>
       if nonempty line && negb (startswith (txt "NAME") line) then
         match words line with
         | part :: _ => [part]
         | [] => []
         end
       else [])
    (tail lines).

(** The branch [if options.get("ollama") and ollama_available]: what is
    appended to [commands]. *)
Definition ollama_stage (label : text) (options : Options)
    : M (list stage) :=
  if opt_ollama options && ollama_available env then
    let selected_model := strip (opt_model options) in
    if nonempty selected_model then
      publish (MUsingSelectedModel label selected_model) ;;
      mret [ollama_run selected_model]
    else
      publish (MAutoDetecting label) ;;
      try_except
        (match shell env (txt "ollama list") with
         | LaunchError => raise
         | Started stdout returncode =>
             if (returncode =? 0)%Z then
               match decode_all stdout with
               | None => raise
               | Some out =>
                   match listed_models out with
                   | first_model :: _ =>
                       publish (MUsingAvailableModel label first_model) ;;
                       mret [ollama_run first_model]
                   | [] =>
                       publish (MInstalling label) ;;
                       match shell env (txt "ollama pull llama3.1:8b") with
                       | LaunchError => raise
                       | Started _ _ =>
                           mret [ollama_run (txt "llama3.1:8b")]
                       end
                   end
               end
             else
               publish (MListFailed label) ;;
               mret [(txt "Ollama LLM", txt "echo 'Ollama not available'")]
         end)
        (publish (MModelError label) ;;
         mret [(txt "Ollama LLM", txt "echo 'Ollama error occurred'")])
  else if opt_ollama options then
    publish (MOllamaUnavailable label) ;; mret []
  else
    publish (MOllamaDisabled label) ;; mret [].

(** What the LLM branch appends is one stage named [Ollama LLM]. *)
Definition one_llm_stage (extra : list stage) : Prop :=
  length extra = 1 /\ Forall (fun s : stage => fst s = txt "Ollama LLM") extra.

Definition build_commands (label run_dir : text) (options : Options)
    : M (list stage) :=
  extra ← ollama_stage label options ;
  mret (base_commands run_dir ++ extra).

Definition re_live_events : regex :=
  seqs [Grp decimal; spaces1; lit "events per second"].
Definition re_number : regex :=
  seqs [digits; Opt (CChar "."); Rep true 0 CDigit].      (* \d+\.?\d* *)
Definition re_tokens : regex :=
  seqs [lit "Tokens/sec:"; spaces0; Grp re_number].
Definition re_latency : regex :=
  seqs [lit "Latency:"; spaces0; Grp re_number].
Definition re_memory_mb : regex :=
  seqs [lit "Memory:"; spaces0; Grp digits].

(** The metrics parsed while the stage is running. *)
Definition live_metrics (name line_text : text) : M unit :=
  if has "events per second" line_text then
    match search re_live_events line_text with
    | Some m =>
        let events_sec := pfloat (group 1 m) in
        if has "1 thread" name then
          update_metrics (set_cpu1Thread (Some events_sec))
        else if has "all threads" name then
          update_metrics (set_cpuAllThreads (Some events_sec))
        else mret tt
    | None => mret tt
    end
  else mret tt.

(** The [while True] loop over [proc.stdout.readline()]. *)
Fixpoint read_lines (label name : text) (stdout : list (option text))
    (output_lines : list text) : M (list text) :=
  match stdout with
  | [] => mret output_lines
  | None :: _ => raise
  | Some line :: rest =>
      let line_text := strip line in
      publish (MLine label name line_text) ;;
      live_metrics name line_text ;;
      read_lines label name rest (output_lines ++ [line_text])
  end.

Definition on_ollama (f : ollama_result -> ollama_result) (r : RunRecord)
    : RunRecord :=
  set_ollama (f <$> ollama r) r.

(** The loop over [output_lines] of the branch ["Ollama LLM" in name]. *)
Definition ollama_line (line : text) : M unit :=
  if has "Tokens/sec:" line then
    match search re_tokens line with
    | Some m =>
        update_metrics (on_ollama (fun o =>
          {| tokens_per_sec := pfloat (group 1 m); latency := latency o;
             memory_mb := memory_mb o |}))
    | None => mret tt
    end
  else if has "Latency:" line then
    match search re_latency line with
    | Some m =>
        update_metrics (on_ollama (fun o =>
          {| tokens_per_sec := tokens_per_sec o;
             latency := pfloat (group 1 m); memory_mb := memory_mb o |}))
    | None => mret tt
    end
  else if has "Memory:" line && has "MB" line then
    match search re_memory_mb line with
    | Some m =>
        update_metrics (on_ollama (fun o =>
          {| tokens_per_sec := tokens_per_sec o; latency := latency o;
             memory_mb := pint (group 1 m) |}))
    | None => mret tt
    end
  else mret tt.

(** [\x1B(?:[@-Z\\-_]|\[[0-?]*[ -/]*[@-~])] *)
Definition ansi_pattern : regex :=
  Seq (Cls (CChar ESC))
    (Alt (Cls (CUnion (CRange "@" "Z") (CRange "\" "_")))
         (seqs [Cls (CChar "["); Rep true 0 (CRange "0" "?");
                Rep true 0 (CRange " " "/"); Cls (CRange "@" "~")])).

(** [\n{3,}] *)
Definition blank_run : regex := Rep true 3 (CChar newline).

Definition clean_ansi_codes (t : text) : text :=
  let t := sub ansi_pattern [] t in
  let t := sub blank_run [newline; newline] t in
  strip t.

(** Every ESC of [t] is the first character of a match of
    [ansi_pattern]. *)
Fixpoint escapes_begin_sequences (t : text) : bool :=
  match t with
  | [] => true
  | c :: t' =>
      (negb (char_eqb c ESC)
       || match match_at ansi_pattern t with Some _ => true | None => false end)
      && escapes_begin_sequences t'
  end.

(** Three newlines in a row. *)
Definition three_newlines : text := [newline; newline; newline].

Definition raw_path (run_dir name : text) : text :=
  path_join run_dir (replace_char " " "_" name ++ txt ".txt").

(** What follows the write of the raw output in the [try] of a stage:
    the final metrics of the stage and the report of its completion. *)
Definition after_raw_write (label run_dir name : text)
    (output_lines : list text) : M unit :=
  (if has "Memory test" name then
     let metrics := parse_sysbench_memory output_lines in
     update_metrics (set_memory
       {| rw_read := default (PInt 0) (metrics !! "read_mib_sec");
          rw_write := default (PInt 0) (metrics !! "write_mib_sec") |})
   else if has "Disk test" name then
     let metrics := parse_sysbench_disk output_lines in
     update_metrics (set_disk
       {| rw_read := default (PInt 0) (metrics !! "disk_read_mib_s");
          rw_write := default (PInt 0) (metrics !! "disk_write_mib_s") |})
   else if has "Ollama LLM" name then
     for_each ollama_line output_lines ;;
     let response_content := join [newline] output_lines in
     let cleaned_response := clean_ansi_codes response_content in
     if nonempty (strip cleaned_response) then
       write_file (path_join run_dir (txt "llm_response.txt"))
         (RawText cleaned_response) ;;
       publish (MLlmSaved label)
     else mret tt
   else mret tt) ;;
  publish (MCompleted label name).

(** The body of the [try] of one stage. *)
Definition stage_body (label run_dir : text) (st : stage) : M unit :=
  let '(name, cmd) := st in
  match shell env cmd with
  | LaunchError => raise
  | Started stdout _ =>
      output_lines ← read_lines label name stdout [] ;
      write_file (raw_path run_dir name)
        (RawText (join [newline] output_lines)) ;;
      after_raw_write label run_dir name output_lines
  end.

(** One iteration of [for name, cmd in commands]. *)
Definition run_stage (label run_dir : text) (st : stage) : M unit :=
  publish (MRunning label (fst st)) ;;
  try_except (stage_body label run_dir st)
             (publish (MFailed label (fst st))).

Definition truthy (v : option pynum) : bool :=
  match v with
  | None => false
  | Some (PInt z) => negb (z =? 0)%Z
  | Some (PFloat q) => negb (Qeq_bool q 0)
  end.

Definition positive (v : pynum) : bool :=
  match v with
  | PInt z => (0 <? z)%Z
  | PFloat q => negb (Qle_bool q 0)
  end.

Definition to_q (v : pynum) : Q :=
  match v with PInt z => inject_Z z | PFloat q => q end.

Definition plus (a b : pynum) : pynum :=
  match a, b with
  | PInt x, PInt y => PInt (x + y)
  | _, _ => PFloat (Qred (to_q a + to_q b))
  end.

Definition summary_events (label : text) : M unit :=
  publish (MSummary label) ;;
  r ← get_metrics ;
  (if truthy (cpuAllThreads r) then
     publish (MCpuScore label (default (PInt 0) (cpuAllThreads r)))
   else mret tt) ;;
  (if positive (rw_read (memory r)) then
     publish (MMemoryTotal label
                (plus (rw_read (memory r)) (rw_write (memory r))))
   else mret tt) ;;
  (if positive (rw_read (disk r)) then
     publish (MDiskTotal label (plus (rw_read (disk r)) (rw_write (disk r))))
   else mret tt).

Definition metrics_path (run_dir : text) : text :=
  path_join run_dir (txt "metrics.json").

(** The [try] around [json.dump(run_metrics, f, indent=2)]. *)
Definition save_metrics (label run_dir : text) : M unit :=
  try_except
    (r ← get_metrics ;
     write_file (metrics_path run_dir) (MetricsDoc r) ;;
     publish (MMetricsSaved label (metrics_path run_dir)))
    (publish (MMetricsFailed label)).

(** [run_benchmark(label, options, ws)].  The telemetry task started
    when [options.gpu] holds runs beside the stages; its own events are
    interleaved by the event loop and are not part of this trace (it
    reads and writes neither [run_metrics] nor a stage's files). *)
Definition run_benchmark (label : text) (options : Options) : M unit :=
  let run_dir := path_join (RUNS_DIR env) label in
  makedirs run_dir ;;
  update_metrics (fun _ => initial_metrics label) ;;
  publish (MStarted label) ;;
  publish (MResultsDir label run_dir) ;;
  commands ← build_commands label run_dir options ;
  (if opt_gpu options && gpu_available env then
     publish (MGpuEnabled label)
   else publish (MGpuUnavailable label)) ;;
  for_each (run_stage label run_dir) commands ;;
  save_metrics label run_dir ;;
  summary_events label ;;
  publish (MFinished label).

(** The names of the stages a trace shows starting, in order. *)
Fixpoint started (l : list event) : list text :=
  match l with
  | [] => []
  | Published (MRunning _ name) _ :: l' => name :: started l'
  | _ :: l' => started l'
  end.

(** A computation that starts no stage. *)
Definition quiet {A} (c : M A) : Prop :=
  forall st, started (log (snd (c st))) = started (log st).

(** A computation that never raises and whose result satisfies [P]. *)
Definition yields {A} (P : A -> Prop) (c : M A) : Prop :=
  forall st, exists a, fst (c st) = Ok a /\ P a.

(** A computation whose result, when it does not raise, satisfies [P]. *)
Definition may_yield {A} (P : A -> Prop) (c : M A) : Prop :=
  forall st, match fst (c st) with Ok a => P a | Raise => True end.

(** A computation that never raises. *)
Definition safe {A} (c : M A) : Prop := yields (fun _ => True) c.

(** A computation that leaves the store and [run_metrics] alone. *)
Definition talk_only {A} (c : M A) : Prop :=
  forall st, fs (snd (c st)) = fs st
             /\ run_metrics (snd (c st)) = run_metrics st.

(** A computation whose result does not depend on the state. *)
Definition stateless {A} (c : M A) : Prop :=
  forall st1 st2, fst (c st1) = fst (c st2).

(** The names a stage of a run can have. *)
Definition stage_names : list text :=
  [txt "CPU 1 thread"; txt "CPU all threads"; txt "Memory test";
   txt "Disk test"; txt "Ollama LLM"].

(** A computation that only adds to the trace and leaves what the store
    holds at [p] alone. *)
Definition keeps {A} (p : text) (c : M A) : Prop :=
  forall st,
    (exists post, log (snd (c st)) = log st ++ post)
    /\ fs (snd (c st)) !! p = fs st !! p.

(** The event is the broadcast of one line of output. *)
Definition is_line (e : event) : Prop :=
  exists label name line r, e = Published (MLine label name line) r.

(** *** [get_runs] *)

(** [os.listdir(dir)]: the names directly below [dir], in the order the
    store enumerates them. *)
Definition listdir (store : gmap text node) (dir : text) : list text :=
  let prefix := dir ++ txt "/" in
  flat_map
    (fun entry : text * node =>
       let path := fst entry in
       let name := drop (length prefix) path in
       if startswith prefix path && nonempty name
          && negb (contains (txt "/") name)
       then [name] else [])
    (map_to_list store).

Definition isdir (store : gmap text node) (path : text) : bool :=
  match store !! path with
  | Some Dir => true
  | _ => false
  end.

Definition initial_info (run_name run_path : text) : RunRecord :=
  {| r_name := run_name; r_date := ctime env run_path;
     cpu1Thread := None; cpuAllThreads := None;
     memory := {| rw_read := PInt 0; rw_write := PInt 0 |};
     disk := {| rw_read := PInt 0; rw_write := PInt 0 |};
     gpu := {| g_temperature := []; g_utilization := [];
               g_memory_used := None |};
     ollama := None |}.

(** [run_info.update(json.load(f))] inside its [try]: a document written
    by [run_benchmark] carries every key of [run_info], so the update
    replaces them all; anything else at that path fails to load and
    leaves [run_info] as it was. *)
Definition load_json (store : gmap text node) (run_path : text)
    (run_info : RunRecord) : RunRecord :=
  match store !! path_join run_path (txt "metrics.json") with
  | Some (MetricsDoc json_data) => json_data
  | _ => run_info
  end.

(** The body of [for filename in os.listdir(run_path)]. *)
Definition scan_file (store : gmap text node) (run_path : text)
    (run_info : RunRecord) (filename : text) : RunRecord :=
  if endswith (txt ".txt") filename then
    match store !! path_join run_path filename with
    | Some (RawText content) =>
        let lines := split_on newline content in
        let fname := lower filename in
        if contains (txt "cpu_1_thread") fname then
          set_cpu1Thread (parse_sysbench_cpu lines !! "events_per_second")
            run_info
        else if contains (txt "cpu_all_threads") fname then
          set_cpuAllThreads (parse_sysbench_cpu lines !! "events_per_second")
            run_info
        else if contains (txt "memory_test") fname then
          let metrics := parse_sysbench_memory lines in
          set_memory
            {| rw_read := default (PInt 0) (metrics !! "read_mib_sec");
               rw_write := default (PInt 0) (metrics !! "write_mib_sec") |}
            run_info
        else if contains (txt "disk_test") fname then
          let metrics := parse_sysbench_disk lines in
          set_disk
            {| rw_read := default (PInt 0) (metrics !! "disk_read_mib_s");
               rw_write := default (PInt 0) (metrics !! "disk_write_mib_s") |}
            run_info
        else run_info
    | _ => run_info
    end
  else run_info.

(** The entry of one run directory in the answer of [get_runs]. *)
Definition run_info_of (store : gmap text node) (run_name : text)
    : RunRecord :=
  let run_path := path_join (RUNS_DIR env) run_name in
  let run_info := initial_info run_name run_path in
  let run_info := load_json store run_path run_info in
  fold_left (scan_file store run_path) (listdir store run_path) run_info.

(** [a <= b] on [str]. *)
Fixpoint text_leb (a b : text) : bool :=
  match a, b with
  | [], _ => true
  | _ :: _, [] => false
  | x :: a', y :: b' =>
      if code x <? code y then true
      else if code y <? code x then false
      else text_leb a' b'
  end.

Fixpoint insert_by_date (r : RunRecord) (l : list RunRecord)
    : list RunRecord :=
  match l with
  | [] => [r]
  | y :: l' =>
      if text_leb (r_date r) (r_date y) then y :: insert_by_date r l'
      else r :: l
  end.

(** [sorted(runs, key=lambda x: x['date'], reverse=True)] *)
Definition sorted_by_date (runs : list RunRecord) : list RunRecord :=
  fold_left (fun acc r => insert_by_date r acc) runs [].

Definition get_runs (store : gmap text node) : list RunRecord :=
  let runs :=
    flat_map
      (fun run_name =>
         if isdir store (path_join (RUNS_DIR env) run_name)
         then [run_info_of store run_name] else [])
      (listdir store (RUNS_DIR env)) in
  sorted_by_date runs.

End WithEnv.

(** *** [websocket_endpoint]: the command received on the control channel *)

Definition default_options : Options :=
  {| opt_gpu := false; opt_ollama := false; opt_model := [] |}.

(** [part.split("=", 1)[1]] *)
Definition after_equals (part : text) : text :=
  default [] (split_once "=" part !! 1).

Definition is_true (value : text) : bool :=
  text_eqb (lower (strip value)) (txt "true").

(** The body of [for i in range(2, len(parts))]. *)
Definition parse_option (options : Options) (raw : text) : Options :=
  let part := strip raw in
  if startswith (txt "gpu=") part then
    {| opt_gpu := is_true (after_equals part);
       opt_ollama := opt_ollama options; opt_model := opt_model options |}
  else if startswith (txt "ollama=") part then
    {| opt_gpu := opt_gpu options;
       opt_ollama := is_true (after_equals part);
       opt_model := opt_model options |}
  else if startswith (txt "model=") part then
    {| opt_gpu := opt_gpu options; opt_ollama := opt_ollama options;
       opt_model := strip (after_equals part) |}
  else options.

(** What one received text starts: [Some (label, options)] when
    [run_benchmark(label, options, ws)] is scheduled, [None] when the text
    is ignored. *)
Definition on_receive (data : text) : option (text * Options) :=
  if startswith (txt "run:") data then
    let parts := split_on ":" data in
    let label :=
      match parts !! 1 with
      | Some p => strip p
      | None => txt "unnamed"
      end in
    Some (label, fold_left parse_option (drop 2 parts) default_options)
  else None.

(** [websocket_endpoint], from the texts received until the viewer
    disconnects: the runs it schedules, in order. *)
Definition websocket_endpoint (received : list text)
    : list (text * Options) :=
  omap on_receive received.

(** The text of a command [run:<label>:gpu=..:ollama=..:model=<name>]. *)
Definition bool_text (b : bool) : text :=
  if b then txt "true" else txt "false".

Definition run_command (label : text) (gpu ollama : bool) (model : text)
    : text :=
  txt "run:" ++ label ++ txt ":gpu=" ++ bool_text gpu
  ++ txt ":ollama=" ++ bool_text ollama ++ txt ":model=" ++ model.

(** A text without whitespace and without a colon. *)
Definition plain (t : text) : bool :=
  forallb (fun c => negb (is_space c) && negb (char_eqb c ":")) t.

(** *** [monitor_gpu_during_benchmark]: one turn of the polling loop *)

(** The answer of the query command: its exit status and its standard
    output, [Some []] when nothing was printed and [None] when the bytes
    do not decode. *)
Record query := {
  q_returncode : Z;
  q_stdout : option text
}.

Record sample := {
  temp : pyfloat;
  util : pyfloat;
  mem_used : pyfloat;
  mem_total : pyfloat
}.

Inductive poll :=
| Sampled (s : sample)      (* broadcast, and appended to gpu_metrics.txt *)
| Nothing                   (* too few fields, or [except ValueError: pass] *)
| QueryFailed               (* the query-failed broadcast *)
| MonitorError.             (* the outer [except Exception], which ends the loop *)

Definition field (gpu_data : list text) (i : nat) : option pyfloat :=
  py_float (strip (default [] (gpu_data !! i))).

Definition poll_once (q : query) : poll :=
  let printed :=
    match q_stdout q with
    | Some [] => false
    | _ => true
    end in
  if (q_returncode q =? 0)%Z && printed then
    match q_stdout q with
    | None => MonitorError
    | Some out =>
        let gpu_data := split_on "," (strip out) in
        if 4 <=? length gpu_data then
          match field gpu_data 0 with
          | None => Nothing
          | Some temp =>
          match field gpu_data 1 with
          | None => Nothing
          | Some util =>
          match field gpu_data 2 with
          | None => Nothing
          | Some mem_used =>
          match field gpu_data 3 with
          | None => Nothing
          | Some mem_total =>
              Sampled {| temp := temp; util := util; mem_used := mem_used;
                         mem_total := mem_total |}
          end end end end
        else Nothing
    end
  else QueryFailed.

(** [monitor_gpu_during_benchmark], from the answers the query command
    gives until the task is cancelled: what each turn of the loop does.
    The loop ends at the first turn that raises. *)
Fixpoint monitor_gpu_loop (answers : list query) : list poll :=
  match answers with
  | [] => []
  | q :: rest =>
      match poll_once q with
      | MonitorError => [MonitorError]
      | p => p :: monitor_gpu_loop rest
      end
  end.

Definition monitor_gpu_during_benchmark (gpu_available : bool)
    (answers : list query) : list poll :=
  if negb gpu_available then [] else monitor_gpu_loop answers.

End App.

Import App.

(** ** [benchmarks/gpu_monitor.py]: [GPUMonitor.get_gpu_metrics] *)

Module GpuMonitor.

Record reading := {
  gpu_id : nat;
  gpu_name : text;
  temperature : option pyfloat;
  utilization : option pyfloat;
  memory_used : option pyfloat;
  memory_total : option pyfloat;
  power_draw : option pyfloat;
  clock_sm : option pyfloat;
  clock_memory : option pyfloat
}.

(** [float(p) if p != '[N/A]' else None]; the outer [None] is
    [ValueError]. *)
Definition cell (p : text) : option (option pyfloat) :=
  if text_eqb p (txt "[N/A]") then Some None
  else match py_float p with
       | Some f => Some (Some f)
       | None => None
       end.

Definition part (parts : list text) (i : nat) : text :=
  default [] (parts !! i).

(** The dictionary built from one line with at least eight fields. *)
Definition reading_of (i : nat) (parts : list text) : option reading :=
  t ← cell (part parts 1) ;
  u ← cell (part parts 2) ;
  mu ← cell (part parts 3) ;
  mt ← cell (part parts 4) ;
  pd ← cell (part parts 5) ;
  cs ← cell (part parts 6) ;
  cm ← cell (part parts 7) ;
  Some {| gpu_id := i; gpu_name := part parts 0; temperature := t;
          utilization := u; memory_used := mu; memory_total := mt;
          power_draw := pd; clock_sm := cs; clock_memory := cm |}.

(** The loop over [enumerate(lines)]; [None] when a conversion raises. *)
Fixpoint readings (i : nat) (lines : list text) : option (list reading) :=
  match lines with
  | [] => Some []
  | line :: rest =>
      match strip line with
      | [] => readings (S i) rest
      | _ :: _ =>
          let parts := map strip (split_on "," line) in
          if 8 <=? length parts then
            r ← reading_of i parts ;
            rs ← readings (S i) rest ;
            Some (r :: rs)
          else readings (S i) rest
      end
  end.

(** [get_gpu_metrics]: the list under the key ['gpus'], or [None]. *)
Definition get_gpu_metrics (gpu_available : bool) (q : query)
    : option (list reading) :=
  if negb gpu_available then None
  else
    match q_stdout q with
    | Some [] => None
    | None => None
    | Some out =>
        if negb (q_returncode q =? 0)%Z then None
        else readings 0 (split_on newline (strip out))
    end.

End GpuMonitor.

(** ** Concrete environments and inputs used in the examples *)

Module Sample.

Definition cpu1_cmd : text := txt "sysbench cpu --threads=1 --time=20 run".
Definition cpu8_cmd : text := txt "sysbench cpu --threads=8 --time=20 run".
Definition memory_cmd : text :=
  txt "sysbench memory --memory-block-size=1M --memory-total-size=10G run".

(** A host with eight cores and neither GPU nor LLM runtime.  The
    one-thread CPU test prints what sysbench prints and succeeds; the
    all-threads test cannot be launched; the memory test prints its rate
    and exits with status 1; the output of the disk test stops decoding
    after its first line.  The second of three viewers cannot be
    reached. *)
Definition host : Env :=
  {| RUNS_DIR := txt "/srv/runs";
     cpu_count := Some 8;
     gpu_available := false;
     ollama_available := false;
     now := txt "2024-05-01T10:00:00";
     ctime := fun _ => txt "2024-05-01T10:00:00";
     makedirs_ok := fun _ => true;
     open_ok := fun _ => true;
     shell := fun cmd =>
       if text_eqb cmd cpu1_cmd then
         Started [Some (txt "sysbench 1.0.20" ++ [newline]);
                  Some (txt "    events per second:  1234.56" ++ [newline])] 0
       else if text_eqb cmd cpu8_cmd then LaunchError
       else if text_eqb cmd memory_cmd then
         Started [Some (txt "10240.00 MiB transferred (8541.30 MiB/sec)"
                        ++ [newline])] 1
       else Started [Some (txt "preparing files" ++ [newline]); None] 0;
     send_ok := fun c => negb (Nat.eqb c 2) |}.

(** The same host with a sysbench that prints the rate before the words. *)
Definition host_rate_first : Env :=
  {| RUNS_DIR := RUNS_DIR host; cpu_count := cpu_count host;
     gpu_available := false; ollama_available := false;
     now := now host; ctime := ctime host;
     makedirs_ok := fun _ => true; open_ok := fun _ => true;
     shell := fun cmd =>
       if text_eqb cmd cpu1_cmd then
         Started [Some (txt "1234.56 events per second" ++ [newline])] 0
       else LaunchError;
     send_ok := fun _ => true |}.

(** The same host on which nothing can be created. *)
Definition host_read_only : Env :=
  {| RUNS_DIR := RUNS_DIR host; cpu_count := cpu_count host;
     gpu_available := false; ollama_available := false;
     now := now host; ctime := ctime host;
     makedirs_ok := fun _ => false; open_ok := fun _ => false;
     shell := shell host; send_ok := send_ok host |}.

Definition no_options : Options :=
  {| opt_gpu := false; opt_ollama := false; opt_model := [] |}.

Definition idle : State :=
  {| fs := ∅; clients := [1; 2; 3];
     run_metrics := initial_metrics host [];
     log := [] |}.

(** The run of [bench1] on [host] from the idle state. *)
Definition bench1_run : result unit * State :=
  run_benchmark host (txt "bench1") no_options idle.

(** What the one-thread CPU test prints on [host]. *)
Definition cpu1_output : list text :=
  [txt "sysbench 1.0.20" ++ [newline];
   txt "    events per second:  1234.56" ++ [newline]].

Definition bench1 : text := txt "bench1".
Definition bench1_dir : text := txt "/srv/runs/bench1".
Definition bench1_metrics : text := txt "/srv/runs/bench1/metrics.json".

(** The answer of the telemetry query on a card that reports no
    temperature. *)
Definition no_temperature : query :=
  {| q_returncode := 0;
     q_stdout := Some (txt "[N/A], 35, 1024, 8192" ++ [newline]) |}.

(** The same card asked for the eight fields of [get_gpu_metrics]. *)
Definition no_temperature_full : query :=
  {| q_returncode := 0;
     q_stdout :=
       Some (txt "Tesla K80, [N/A], 35, 1024, 8192, 60.5, 875, 2505"
             ++ [newline]) |}.

(** An LLM output line in which a stray ESC stands before a colour
    sequence that is itself followed by the tail of another. *)
Definition nested_escape : text :=
  [ESC; ESC] ++ txt "[0m" ++ txt "[0m".

(** An LLM answer with a coloured word and a long gap. *)
Definition coloured_answer : text :=
  [ESC] ++ txt "[1mQubits" ++ [ESC] ++ txt "[0m"
  ++ [newline; newline; newline; newline] ++ txt "superpose.".

End Sample.

(** ** [app.py]: the remaining endpoints *)

Module Api.

(** A path is [root] or lies below it. *)
Definition under (root path : text) : bool :=
  text_eqb path root || startswith (root ++ txt "/") path.

(** Something of the store lies below [dir]. *)
Definition has_child (store : gmap text node) (dir : text) : bool :=
  existsb (fun entry : text * node => startswith (dir ++ txt "/") (fst entry))
          (map_to_list store).

(** [os.path.exists(p)]: the store holds [p], or something below it. *)
Definition exists_path (store : gmap text node) (p : text) : bool :=
  match store !! p with
  | Some _ => true
  | None => has_child store p
  end.

(** What is left of the store once everything below [root] for which
    [kept] does not hold is gone. *)
Definition prune (root : text) (kept : text -> bool)
    (store : gmap text node) : gmap text node :=
  filter (fun entry : text * node =>
            under root (fst entry) = false \/ kept (fst entry) = true)
         store.

(** [shutil.rmtree(root)].  [fails root] is [None] when the removal goes
    through, and [Some kept] when it raises, having removed so far the
    paths for which [kept] does not hold.  A path that is a file, or that
    does not exist, makes it raise with nothing removed. *)
Definition rmtree (fails : text -> option (text -> bool)) (root : text)
    (store : gmap text node) : result unit * gmap text node :=
  match store !! root with
  | Some (RawText _) | Some (MetricsDoc _) => (Raise, store)
  | _ =>
      if exists_path store root then
        match fails root with
        | None => (Ok tt, prune root (fun _ => false) store)
        | Some kept => (Raise, prune root kept store)
        end
      else (Raise, store)
  end.

Inductive status :=
| Status200       (* the JSON message of success *)
| Status404       (* "Run not found" *)
| Status500       (* the text of the exception *)
| StatusNull.     (* the function falls off its end *)

Section WithEnv.
Variable env : Env.
Variable fails : text -> option (text -> bool).

(** [delete_run(run_name)] *)
Definition delete_run (run_name : text) (store : gmap text node)
    : status * gmap text node :=
  let run_path := path_join (RUNS_DIR env) run_name in
  if exists_path store run_path then
    match rmtree fails run_path store with
    | (Ok _, store') => (Status200, store')
    | (Raise, store') => (Status500, store')
    end
  else (Status404, store).

(** [delete_all_runs()] *)
Definition delete_all_runs (store : gmap text node)
    : status * gmap text node :=
  if exists_path store (RUNS_DIR env) then
    match rmtree fails (RUNS_DIR env) store with
    | (Ok _, store') =>
        if makedirs_ok env (RUNS_DIR env) then
          (Status200, <[RUNS_DIR env := Dir]> store')
        else (Status500, store')
    | (Raise, store') => (Status500, store')
    end
  else (StatusNull, store).


(** [index]: the run directories handed to the template. *)
Definition index (store : gmap text node) : list text :=
  List.filter (fun d => isdir store (path_join (RUNS_DIR env) d))
              (listdir store (RUNS_DIR env)).

(** One entry of the answer of [get_ollama_models]. *)
Record model_entry := { model_name : text; model_size : text }.

(** The loop of [get_ollama_models] over the lines after the first. *)
Definition model_entries (stdout : text) : list model_entry :=
  let models_text := strip stdout in
  let lines :=
    List.filter nonempty (map strip (split_on newline models_text)) in
  flat_map
    (fun line =>
       if nonempty line && negb (startswith (txt "NAME") line) then
         let parts := words line in
         if 4 <=? length parts then
           [ {| model_name := default [] (parts !! 0);
                model_size := if 2 <? length parts
                              then default [] (parts !! 2)
                              else txt "Unknown" |} ]
         else []
       else [])
    (tail lines).

(** [get_ollama_models]: the ["models"] and ["available"] fields. *)
Definition get_ollama_models : list model_entry * bool :=
  match shell env (txt "ollama list") with
  | LaunchError => ([], false)
  | Started stdout returncode =>
      if (returncode =? 0)%Z then
        match decode_all stdout with
        | Some out =>
            let models := model_entries out in
            (models, 0 <? length models)
        | None => ([], false)
        end
      else ([], false)
  end.

End WithEnv.

End Api.

Import Api.

(** ** [benchmarks/ollama_benchmark.py]: [OllamaBenchmark.get_available_models] *)

Module OllamaBenchmark.

(** The loop over [lines[1:]]. *)
Definition available_models (stdout : text) : list text :=
  let lines := split_on newline (strip stdout) in
  flat_map
    (fun line =>
       if nonempty (strip line) then
         match words line with
         | part :: _ => [part]
         | [] => []
         end
       else [])
    (tail lines).

(** [get_available_models], from the flag set by the constructor and
    the outcome of [ollama list]. *)
Definition get_available_models (ollama_available : bool) (outcome : proc)
    : list text :=
  if negb ollama_available then []
  else
    match outcome with
    | LaunchError => []
    | Started stdout returncode =>
        if negb (returncode =? 0)%Z then []
        else match decode_all stdout with
             | Some out => available_models out
             | None => []
             end
    end.

End OllamaBenchmark.

(** ** What a computation of the run may do *)

Module Laws.

(** Every event the computation adds to the trace satisfies [P]. *)
Definition emits {A} (P : event -> Prop) (c : M A) : Prop :=
  forall st, exists evs,
    log (snd (c st)) = log st ++ evs /\ Forall P evs.

(** The computation keeps [I] true of [run_metrics]. *)
Definition preserves {A} (I : RunRecord -> Prop) (c : M A) : Prop :=
  forall st, I (run_metrics st) -> I (run_metrics (snd (c st))).

(** The updates a run applies to [run_metrics] all keep [I]. *)
Definition stable (I : RunRecord -> Prop) : Prop :=
  (forall v r, I r -> I (set_cpu1Thread v r))
  /\ (forall v r, I r -> I (set_cpuAllThreads v r))
  /\ (forall v r, I r -> I (set_memory v r))
  /\ (forall lines r,
        I r ->
        I (set_disk
             {| rw_read := default (PInt 0)
                             (parse_sysbench_disk lines !! "disk_read_mib_s");
                rw_write := default (PInt 0)
                              (parse_sysbench_disk lines !! "disk_write_mib_s") |}
             r))
  /\ (forall f r, I r -> I (on_ollama f r)).

(** Every run of the computation takes a state to one related to it by
    [R]. *)
Definition respects {A} (R : State -> State -> Prop) (c : M A) : Prop :=
  forall st, R st (snd (c st)).

(** What [run_benchmark] does after its start event. *)
Definition run_tail (env : Env) (label run_dir : text) (options : Options)
    : M unit :=
  publish env (MResultsDir label run_dir) ;;
  commands ← build_commands env label run_dir options ;
  (if opt_gpu options && gpu_available env then
     publish env (MGpuEnabled label)
   else publish env (MGpuUnavailable label)) ;;
  for_each (run_stage env label run_dir) commands ;;
  save_metrics env label run_dir ;;
  summary_events env label ;;
  publish env (MFinished label).

(** What [run_benchmark] does after the run directory is there and
    [run_metrics] is initialised. *)
Definition run_rest (env : Env) (label run_dir : text) (options : Options)
    : M unit :=
  publish env (MStarted label) ;; run_tail env label run_dir options.

(** The state in which [run_rest] starts. *)
Definition run_start (env : Env) (label : text) (st : State) : State :=
  let run_dir := path_join (RUNS_DIR env) label in
  {| fs := match fs st !! run_dir with
           | Some _ => fs st
           | None => <[run_dir := Dir]> (fs st)
           end;
     clients := clients st;
     run_metrics := initial_metrics env label;
     log := log st |}.

(** The event is neither the completion nor the failure of a stage. *)
Definition not_report (e : event) : Prop :=
  match e with
  | Published (MCompleted _ _) _ | Published (MFailed _ _) _ => False
  | _ => True
  end.

(** The files a run may write below [run_dir]. *)
Definition run_files (run_dir : text) : list text :=
  map (raw_path run_dir) stage_names
  ++ [path_join run_dir (txt "llm_response.txt"); metrics_path run_dir].



(** The keys [parse_sysbench_cpu] assigns. *)
Definition cpu_keys : list string :=
  ["total_events"; "events_per_second"; "total_time_seconds";
   "event_time_min_ms"; "event_time_avg_ms"; "event_time_max_ms";
   "thread_events_avg"; "thread_events_stddev";
   "thread_time_avg"; "thread_time_stddev"]%string.

(** The keys [parse_sysbench_disk] assigns. *)
Definition disk_keys : list string :=
  ["total_operations"; "operations_per_second"; "read_mib_s"; "write_mib_s";
   "io_time_min_ms"; "io_time_avg_ms"; "io_time_max_ms";
   "file_size_mib"; "block_size_bytes"]%string.

(** The fixed keys [parse_sysbench_memory] assigns; the others are the
    percentile keys. *)
Definition memory_keys : list string :=
  ["total_operations"; "operations_per_second"; "read_mib_sec";
   "write_mib_sec"; "latency_min_ms"; "latency_avg_ms";
   "latency_max_ms"]%string.

(** [a <= b] for every neighbouring [a], [b] of the list. *)
Fixpoint ascending (l : list Q) : Prop :=
  match l with
  | a :: (b :: _) as l' => (a <= b)%Q /\ ascending l'
  | _ => True
  end.

(** The dates of the list never increase. *)
Fixpoint newest_first (l : list RunRecord) : Prop :=
  match l with
  | a :: (b :: _) as l' => text_leb (r_date b) (r_date a) = true /\ newest_first l'
  | _ => True
  end.

End Laws.

Import Laws.

(** * Properties *)

(** ** Text *)

Lemma char_eqb_eq a b : char_eqb a b = true <-> a = b.
Proof. apply Ascii.eqb_eq. Qed.

Lemma text_eqb_eq a b : text_eqb a b = true <-> a = b.
Proof.
  revert b; induction a as [|x a IH]; intros [|y b]; simpl; try easy.
  rewrite andb_true_iff, char_eqb_eq, IH. split.
  - intros [-> ->]; reflexivity.
  - intros H; injection H; auto.
Qed.

(** The primitives on the inputs the parsers meet. *)
Example split_command :
  split_on ":" (txt "run:bench1:gpu=false:model=llama3.1:8b")
  = [txt "run"; txt "bench1"; txt "gpu=false"; txt "model=llama3.1"; txt "8b"].
Proof. reflexivity. Qed.

Example split_once_option :
  split_once "=" (txt "a=b=c") = [txt "a"; txt "b=c"]
  /\ split_once "=" (txt "gpu=") = [txt "gpu"; []].
Proof. split; reflexivity. Qed.

Example strip_line :
  strip (txt "    events per second:  1234.56" ++ [newline])
  = txt "events per second:  1234.56".
Proof. reflexivity. Qed.

Example words_listing :
  words (txt "llama3.1:8b    42182419e950    4.9 GB    2 days ago")
  = [txt "llama3.1:8b"; txt "42182419e950"; txt "4.9"; txt "GB"; txt "2";
     txt "days"; txt "ago"].
Proof. reflexivity. Qed.

Example py_float_cases :
  py_float (txt " 35.5 ") = Some (FFin (71 # 2))
  /\ py_float (txt "1_0.5e-1") = Some (FFin (21 # 20))
  /\ py_float (txt "-.5") = Some (FFin (-1 # 2))
  /\ py_float (txt "1.") = Some (FFin 1)
  /\ py_float (txt "-Infinity") = Some (FInf true)
  /\ py_float (txt ".") = None
  /\ py_float (txt "1e") = None
  /\ py_float (txt "1__0") = None
  /\ py_float (txt "1._5") = None
  /\ py_float (txt "[N/A]") = None.
Proof. vm_compute. repeat split. Qed.

Example float_of_literal_agrees :
  py_float (txt "8541.30") = Some (FFin (float_of_literal (txt "8541.30"))).
Proof. vm_compute. reflexivity. Qed.

Example search_backtracks :
  search re_mib_sec (txt "10240.00 MiB transferred (8541.30 MiB/sec)")
  = Some [txt "8541.30"].
Proof. vm_compute. reflexivity. Qed.

Example search_lazy :
  search re_bracketed (txt "x [ab] [c]") = Some [txt "ab"].
Proof. vm_compute. reflexivity. Qed.

Example findall_percent :
  findall re_percent (txt "95.00% and 99.5%") = [txt "95.00"; txt "99.5"].
Proof. vm_compute. reflexivity. Qed.

Example live_and_batch_patterns_differ :
  search re_live_events (txt "events per second:  1234.56") = None
  /\ search re_events_per_second (txt "events per second:  1234.56")
     = Some [txt "1234.56"].
Proof. split; vm_compute; reflexivity. Qed.

(** ** The broadcaster *)

Section BroadcastFacts.
Variable ok : ws -> bool.

Lemma filter_remove_first_failing c l :
  ok c = false -> List.filter ok (remove_first c l) = List.filter ok l.
Proof.
  intros Hc. induction l as [|x l IH]; simpl; [reflexivity|].
  destruct (Nat.eqb_spec x c) as [->|Hne].
  - now rewrite Hc.
  - simpl. now rewrite IH.
Qed.

Lemma count_remove_first_same c l :
  count_occ Nat.eq_dec (remove_first c l) c
  = pred (count_occ Nat.eq_dec l c).
Proof.
  induction l as [|x l IH]; simpl; [reflexivity|].
  destruct (Nat.eqb_spec x c) as [->|Hne].
  - destruct (Nat.eq_dec c c); [reflexivity|congruence].
  - simpl. destruct (Nat.eq_dec x c); [congruence|exact IH].
Qed.

Lemma count_remove_first_other c x l :
  x <> c ->
  count_occ Nat.eq_dec (remove_first c l) x = count_occ Nat.eq_dec l x.
Proof.
  intros Hx. induction l as [|y l IH]; simpl; [reflexivity|].
  destruct (Nat.eqb_spec y c) as [->|Hne].
  - destruct (Nat.eq_dec c x); [congruence|reflexivity].
  - simpl. destruct (Nat.eq_dec y x); now rewrite IH.
Qed.

Lemma filter_all_ok (l : list ws) :
  (forall x, ok x = false -> count_occ Nat.eq_dec l x = 0) ->
  List.filter ok l = l.
Proof.
  induction l as [|y l IH]; intros H; simpl; [reflexivity|].
  destruct (ok y) eqn:Hy.
  - f_equal. apply IH. intros x Hx. specialize (H x Hx). simpl in H.
    destruct (Nat.eq_dec y x); [discriminate|exact H].
  - specialize (H y Hy). simpl in H.
    destruct (Nat.eq_dec y y); [discriminate|congruence].
Qed.

(** The loop, started on a snapshot that holds every failing client as
    often as the live list does, leaves exactly the clients that can be
    reached and reaches exactly those of the snapshot. *)
Lemma broadcast_loop_spec snapshot : forall cur,
  (forall x, ok x = false ->
     count_occ Nat.eq_dec cur x = count_occ Nat.eq_dec snapshot x) ->
  broadcast_loop ok snapshot cur
  = (List.filter ok cur, List.filter ok snapshot).
Proof.
  induction snapshot as [|c rest IH]; intros cur H; simpl.
  - rewrite filter_all_ok; [reflexivity|exact H].
  - destruct (ok c) eqn:Hc.
    + rewrite (IH cur); [reflexivity|].
      intros x Hx. rewrite (H x Hx). simpl.
      destruct (Nat.eq_dec c x) as [->|]; [congruence|reflexivity].
    + rewrite (IH (remove_first c cur)).
      * now rewrite filter_remove_first_failing.
      * intros x Hx. destruct (Nat.eq_dec x c) as [->|Hne].
        -- rewrite count_remove_first_same, (H c Hc). simpl.
           destruct (Nat.eq_dec c c); [reflexivity|congruence].
        -- rewrite count_remove_first_other by exact Hne.
           rewrite (H x Hx). simpl.
           destruct (Nat.eq_dec c x); [congruence|reflexivity].
Qed.

Lemma broadcast_spec (l : list ws) :
  broadcast ok l = (List.filter ok l, List.filter ok l).
Proof. unfold broadcast. now apply broadcast_loop_spec. Qed.

Lemma filter_idem (l : list ws) :
  List.filter ok (List.filter ok l) = List.filter ok l.
Proof.
  induction l as [|x l IH]; simpl; [reflexivity|].
  destruct (ok x) eqn:Hx; simpl; [rewrite Hx; now f_equal|exact IH].
Qed.

End BroadcastFacts.

(** C3. One publish reaches every registered viewer whose delivery does
    not fail, in registration order and whatever the other viewers do; the
    viewers whose delivery fails are gone from the list when the call
    returns, so that the next publish, whose recipients are a snapshot of
    that list, has none of them among its recipients. *)
Theorem broadcast_fanout (ok : ws -> bool) (registered : list ws) :
  let clients' := fst (broadcast ok registered) in
  snd (broadcast ok registered) = List.filter ok registered
  /\ clients' = List.filter ok registered
  /\ snd (broadcast ok clients') = clients'
  /\ forall v, ok v = false ->
       ~ In v clients' /\ ~ In v (snd (broadcast ok clients')).
Proof.
  cbv zeta. rewrite !broadcast_spec. simpl. rewrite filter_idem.
  repeat split; try reflexivity;
    intros Hin; apply filter_In in Hin; destruct Hin; congruence.
Qed.

(** Three viewers, the second of which cannot be reached. *)
Example broadcast_three_viewers :
  let ok := fun c => negb (Nat.eqb c 2) in
  broadcast ok [1; 2; 3] = ([1; 3], [1; 3])
  /\ broadcast ok (fst (broadcast ok [1; 2; 3])) = ([1; 3], [1; 3]).
Proof. split; reflexivity. Qed.

(** ** The metric extractor *)

Section ExtractorFacts.

Lemma cpu_step_no_rule metrics raw :
  matches_no_rule CpuTest raw -> cpu_step metrics raw = metrics.
Proof.
  unfold matches_no_rule. cbv [rule_guards]. intros H.
  repeat match goal with
         | H : Forall _ (_ :: _) |- _ => apply Forall_cons_1 in H; destruct H
         end.
  unfold cpu_step.
  repeat match goal with E : _ = false |- _ => rewrite E; clear E end.
  reflexivity.
Qed.

Lemma memory_step_no_rule metrics raw :
  matches_no_rule MemoryTest raw -> memory_step metrics raw = metrics.
Proof.
  unfold matches_no_rule. cbv [rule_guards]. intros H.
  repeat match goal with
         | H : Forall _ (_ :: _) |- _ => apply Forall_cons_1 in H; destruct H
         end.
  unfold memory_step.
  repeat match goal with E : _ = false |- _ => rewrite E; clear E end.
  reflexivity.
Qed.

Lemma disk_step_no_rule metrics raw :
  matches_no_rule DiskTest raw -> disk_step metrics raw = metrics.
Proof.
  unfold matches_no_rule. cbv [rule_guards]. intros H.
  repeat match goal with
         | H : Forall _ (_ :: _) |- _ => apply Forall_cons_1 in H; destruct H
         end.
  unfold disk_step.
  repeat match goal with E : _ = false |- _ => rewrite E; clear E end.
  reflexivity.
Qed.

Lemma gpu_step_no_rule metrics raw :
  matches_no_rule TelemetryLog raw -> gpu_step metrics raw = metrics.
Proof.
  unfold matches_no_rule. cbv [rule_guards]. intros H.
  repeat match goal with
         | H : Forall _ (_ :: _) |- _ => apply Forall_cons_1 in H; destruct H
         end.
  unfold gpu_step.
  repeat match goal with E : _ = false |- _ => rewrite E; clear E end.
  reflexivity.
Qed.

(** A step that leaves the accumulator alone can be dropped from the
    fold. *)
Lemma fold_left_skip {A B} (f : A -> B -> A) (x : B) before after init :
  (forall a, f a x = a) ->
  fold_left f (before ++ x :: after) init = fold_left f (before ++ after) init.
Proof.
  intros Hx. rewrite !fold_left_app. simpl. now rewrite Hx.
Qed.

(** Batch parsing is the incremental one continued. *)
Lemma parse_incremental {A B} (f : A -> B -> A) l1 l2 init :
  fold_left f (l1 ++ l2) init = fold_left f l2 (fold_left f l1 init).
Proof. apply fold_left_app. Qed.

End ExtractorFacts.

(** C7. For each of the four tool kinds the extractor keeps nothing
    between calls: the parser object comes back unchanged and a second
    call on the same lines returns the same mapping as the first; and a
    line on which no rule of the kind fires contributes nothing, wherever
    it stands in the captured output. *)
Theorem extractor_pure_and_skips
    (self : parser) (kind : toolKind) (before after : list text) (line : text)
    (Hno : matches_no_rule kind line) :
  (forall lines,
      let first := call self kind lines in
      let second := call (fst first) kind lines in
      fst second = self /\ snd second = snd first)
  /\ snd (call self kind (before ++ line :: after))
     = snd (call self kind (before ++ after)).
Proof.
  split.
  - intros lines. destruct kind; simpl; split; reflexivity.
  - destruct kind; simpl; f_equal.
    + apply fold_left_skip. intros a. now apply cpu_step_no_rule.
    + apply fold_left_skip. intros a. now apply memory_step_no_rule.
    + apply fold_left_skip. intros a. now apply disk_step_no_rule.
    + unfold parse_gpu_metrics. f_equal.
      apply fold_left_skip. intros a. now apply gpu_step_no_rule.
Qed.

Lemma extractor_pure_and_skips_witness :
  matches_no_rule MemoryTest (txt "Running the test with following options:")
  /\ snd (call BenchmarkDataParser MemoryTest
            ([txt "10240.00 MiB transferred (8541.30 MiB/sec)"]
             ++ txt "Running the test with following options:" :: []))
     = snd (call BenchmarkDataParser MemoryTest
              ([txt "10240.00 MiB transferred (8541.30 MiB/sec)"] ++ [])).
Proof.
  assert (H : matches_no_rule MemoryTest
                (txt "Running the test with following options:")).
  { unfold matches_no_rule. repeat constructor. }
  split; [exact H|].
  exact (proj2 (extractor_pure_and_skips BenchmarkDataParser MemoryTest
                  [txt "10240.00 MiB transferred (8541.30 MiB/sec)"] []
                  (txt "Running the test with following options:") H)).
Defined.

(** ** The memory parser *)

Section MemoryFacts.

Lemma keep_on_insert (k : string) v (m : dict) :
  k <> "write_mib_sec"%string -> write_needs_read m ->
  write_needs_read (<[k := v]> m).
Proof.
  unfold write_needs_read. intros Hk Hm Hw.
  rewrite lookup_insert_ne in Hw by exact Hk.
  destruct (decide (k = "read_mib_sec"%string)) as [->|Hr].
  - rewrite lookup_insert_eq. eauto.
  - rewrite lookup_insert_ne by exact Hr. auto.
Qed.

Lemma keep_on_write v (m : dict) :
  m !! "read_mib_sec" <> None ->
  write_needs_read (<["write_mib_sec" := v]> m).
Proof.
  unfold write_needs_read. intros Hr _.
  rewrite lookup_insert_ne by discriminate.
  destruct (m !! "read_mib_sec"); [eauto|congruence].
Qed.

Lemma keep_on_percentiles percents : forall times m,
  write_needs_read m -> write_needs_read (put_percentiles percents times m).
Proof.
  induction percents as [|p ps IH]; intros [|t ts] m Hm; simpl; auto.
  apply IH. apply keep_on_insert; [|exact Hm].
  unfold percentile_key. simpl. discriminate.
Qed.

Lemma keep_on_stats line m :
  write_needs_read m ->
  write_needs_read
    (put_stats "latency_min_ms" "latency_avg_ms" "latency_max_ms" line m).
Proof.
  intros Hm. unfold put_stats. destruct (search _ _); [|exact Hm].
  repeat (apply keep_on_insert; [discriminate|]). exact Hm.
Qed.

Lemma keep_on_step m raw :
  write_needs_read m -> write_needs_read (memory_step m raw).
Proof.
  intros Hm. unfold memory_step.
  set (line := strip raw).
  set (m1 := if has "total number of operations" line then _ else _).
  assert (H1 : write_needs_read m1).
  { subst m1. destruct (has _ line); [|exact Hm].
    destruct (search _ _); [|exact Hm].
    apply keep_on_insert; [discriminate|exact Hm]. }
  clearbody m1.
  set (m2 := if has "operations per second" line then _ else _).
  assert (H2 : write_needs_read m2).
  { subst m2. destruct (has _ line); [|exact H1].
    destruct (search _ _); [|exact H1].
    apply keep_on_insert; [discriminate|exact H1]. }
  clearbody m2.
  set (m3 := if has "transferred" line then _ else _).
  assert (H3 : write_needs_read m3).
  { subst m3. destruct (has "transferred" line); [|exact H2].
    destruct (search _ _); [|exact H2].
    destruct (has "read" (lower line)); simpl.
    - apply keep_on_insert; [discriminate|exact H2].
    - case_bool_decide as Hread.
      + apply keep_on_insert; [discriminate|exact H2].
      + now apply keep_on_write. }
  clearbody m3.
  set (m4 := if has "Percentile" line && has "ms" line then _ else _).
  assert (H4 : write_needs_read m4).
  { subst m4. destruct (has "Percentile" line && has "ms" line); [|exact H3].
    destruct (findall re_percent line); [exact H3|].
    destruct (findall re_ms line); [exact H3|].
    now apply keep_on_percentiles. }
  clearbody m4.
  destruct (has_stats line); [|exact H4]. now apply keep_on_stats.
Qed.

Lemma keep_on_fold lines : forall m,
  write_needs_read m -> write_needs_read (fold_left memory_step lines m).
Proof.
  induction lines as [|l ls IH]; intros m Hm; simpl; [exact Hm|].
  apply IH. now apply keep_on_step.
Qed.

End MemoryFacts.

(** C10. Whatever the lines, a mapping returned by the memory parser that
    has the key [write_mib_sec] also has the key [read_mib_sec]. *)
Theorem memory_write_implies_read (output : list text) :
  is_Some (parse_sysbench_memory output !! "write_mib_sec") ->
  is_Some (parse_sysbench_memory output !! "read_mib_sec").
Proof.
  apply (keep_on_fold output ∅). intros [v Hv].
  rewrite lookup_empty in Hv. discriminate.
Qed.

Lemma memory_write_implies_read_witness :
  is_Some (parse_sysbench_memory
             [txt "10240.00 MiB transferred (8541.30 MiB/sec)";
              txt "512.00 MiB transferred (97.25 MiB/sec)"]
           !! "write_mib_sec")
  /\ is_Some (parse_sysbench_memory
                [txt "10240.00 MiB transferred (8541.30 MiB/sec)";
                 txt "512.00 MiB transferred (97.25 MiB/sec)"]
              !! "read_mib_sec").
Proof.
  assert (H : is_Some (parse_sysbench_memory
             [txt "10240.00 MiB transferred (8541.30 MiB/sec)";
              txt "512.00 MiB transferred (97.25 MiB/sec)"]
           !! "write_mib_sec")).
  { vm_compute. eauto. }
  split; [exact H|].
  exact (memory_write_implies_read _ H).
Defined.

(** ** The control channel *)

Section CommandFacts.

Lemma lstrip_no_space t :
  forallb (fun c => negb (is_space c)) t = true -> lstrip t = t.
Proof.
  destruct t as [|c t]; [reflexivity|]. simpl.
  intros H. apply andb_true_iff in H as [Hc _].
  now destruct (is_space c).
Qed.

Lemma strip_no_space t :
  forallb (fun c => negb (is_space c)) t = true -> strip t = t.
Proof.
  intros H. unfold strip, rstrip. rewrite (lstrip_no_space t H).
  rewrite lstrip_no_space; [apply rev_involutive|].
  rewrite forallb_forall in *. intros c Hc. apply H. now apply in_rev.
Qed.

Lemma plain_no_space t :
  plain t = true -> forallb (fun c => negb (is_space c)) t = true.
Proof.
  unfold plain. rewrite !forallb_forall. intros H c Hc.
  specialize (H c Hc). now apply andb_true_iff in H as [H _].
Qed.

Lemma split_on_plain t : plain t = true -> split_on ":" t = [t].
Proof.
  induction t as [|c t IH]; [reflexivity|]. simpl.
  intros H. apply andb_true_iff in H as [Hc Ht].
  apply andb_true_iff in Hc as [_ Hc].
  destruct (char_eqb c ":"); [discriminate|]. now rewrite (IH Ht).
Qed.

Lemma split_on_colon a b :
  plain a = true -> split_on ":" (a ++ ":"%char :: b) = a :: split_on ":" b.
Proof.
  induction a as [|c a IH]; [reflexivity|]. simpl.
  intros H. apply andb_true_iff in H as [Hc Ha].
  apply andb_true_iff in Hc as [_ Hc].
  destruct (char_eqb c ":"); [discriminate|]. now rewrite (IH Ha).
Qed.

Lemma plain_app a b : plain a = true -> plain b = true -> plain (a ++ b) = true.
Proof. unfold plain. intros Ha Hb. now rewrite forallb_app, Ha, Hb. Qed.

Lemma plain_bool_text b : plain (bool_text b) = true.
Proof. now destruct b. Qed.

(** A command whose label and model name have neither whitespace nor a
    colon is read as written. *)
Lemma on_receive_plain label gpu ollama model :
  plain label = true -> plain model = true ->
  on_receive (run_command label gpu ollama model)
  = Some (label,
          {| opt_gpu := gpu; opt_ollama := ollama; opt_model := model |}).
Proof.
  intros Hl Hm. unfold on_receive, run_command.
  change (startswith (txt "run:") (txt "run:" ++ ?t)) with true.
  cbv iota.
  change (txt "run:" ++ label ++ txt ":gpu=" ++ bool_text gpu
          ++ txt ":ollama=" ++ bool_text ollama ++ txt ":model=" ++ model)
    with (txt "run" ++ ":"%char :: label ++ ":"%char
          :: (txt "gpu=" ++ bool_text gpu) ++ ":"%char
          :: (txt "ollama=" ++ bool_text ollama) ++ ":"%char
          :: txt "model=" ++ model).
  rewrite split_on_colon by reflexivity.
  rewrite split_on_colon by exact Hl.
  rewrite split_on_colon by (apply plain_app; [reflexivity|apply plain_bool_text]).
  rewrite split_on_colon
    by (apply plain_app; [reflexivity|apply plain_bool_text]).
  rewrite split_on_plain by (apply plain_app; [reflexivity|exact Hm]).
  cbn [lookup list_lookup drop fold_left].
  rewrite (strip_no_space label (plain_no_space _ Hl)). f_equal. f_equal.
  assert (Hmodel : parse_option
            {| opt_gpu := gpu; opt_ollama := ollama; opt_model := [] |}
            (txt "model=" ++ model)
          = {| opt_gpu := gpu; opt_ollama := ollama; opt_model := model |}).
  { unfold parse_option.
    rewrite (strip_no_space (txt "model=" ++ model))
      by (apply plain_no_space, plain_app; [reflexivity|exact Hm]).
    change (startswith (txt "gpu=") (txt "model=" ++ model)) with false.
    change (startswith (txt "ollama=") (txt "model=" ++ model)) with false.
    change (startswith (txt "model=") (txt "model=" ++ model)) with true.
    cbv iota. change (after_equals (txt "model=" ++ model)) with model.
    now rewrite (strip_no_space model (plain_no_space _ Hm)). }
  destruct gpu, ollama; exact Hmodel.
Qed.

End CommandFacts.

(** C9, at the command [run:bench1:gpu=false:ollama=true:model=llama3.1:8b]:
    the label and the two flags are the ones supplied, and the model
    option is what stands before the colon of the model name. *)
Theorem on_receive_model_with_tag :
  websocket_endpoint
    [txt "run:bench1:gpu=false:ollama=true:model=llama3.1:8b"]
  = [(txt "bench1",
      {| opt_gpu := false; opt_ollama := true;
         opt_model := txt "llama3.1" |})].
Proof. vm_compute. reflexivity. Qed.

(** A model name without a colon arrives whole. *)
Example on_receive_plain_model :
  on_receive (txt "run:bench1:gpu=true:ollama=true:model=mistral")
  = Some (txt "bench1",
          {| opt_gpu := true; opt_ollama := true;
             opt_model := txt "mistral" |}).
Proof. vm_compute. reflexivity. Qed.

(** ** The telemetry poller *)

(** [float] raises on the sentinel. *)
Lemma py_float_sentinel : py_float (txt "[N/A]") = None.
Proof. vm_compute. reflexivity. Qed.

(** A query answer whose first field is the sentinel never gives a
    sample. *)
Lemma poll_once_sentinel (q : query) (out : text) :
  q_stdout q = Some out ->
  strip (default [] (split_on "," (strip out) !! 0)) = txt "[N/A]" ->
  forall s, poll_once q <> Sampled s.
Proof.
  intros Hout Hfirst s. unfold poll_once. rewrite Hout.
  destruct (_ && _); [|discriminate].
  destruct (4 <=? _); [|discriminate].
  unfold field at 1. rewrite Hfirst, py_float_sentinel. discriminate.
Qed.

(** C4, at the query answer [[N/A], 35, 1024, 8192]: the poller of the
    run produces no sample at all, while [GPUMonitor.get_gpu_metrics]
    reads the same card as a sample whose temperature is absent and whose
    utilization and memory figures are present. *)
Theorem poll_once_drops_sentinel_sample :
  monitor_gpu_during_benchmark true [Sample.no_temperature] = [Nothing]
  /\ (GpuMonitor.get_gpu_metrics true Sample.no_temperature_full
      = Some [ {| GpuMonitor.gpu_id := 0;
                  GpuMonitor.gpu_name := txt "Tesla K80";
                  GpuMonitor.temperature := None;
                  GpuMonitor.utilization := Some (FFin 35);
                  GpuMonitor.memory_used := Some (FFin 1024);
                  GpuMonitor.memory_total := Some (FFin 8192);
                  GpuMonitor.power_draw := Some (FFin (121 # 2));
                  GpuMonitor.clock_sm := Some (FFin 875);
                  GpuMonitor.clock_memory := Some (FFin 2505) |} ]).
Proof. split; vm_compute; reflexivity. Qed.

(** With a temperature the same answer is sampled. *)
Example poll_once_numeric :
  poll_once {| q_returncode := 0;
               q_stdout := Some (txt "45, 35, 1024, 8192" ++ [newline]) |}
  = Sampled {| temp := FFin 45; util := FFin 35; mem_used := FFin 1024;
               mem_total := FFin 8192 |}.
Proof. vm_compute. reflexivity. Qed.

(** ** The query interface *)

(** C2, at the run directory [run_benchmark] leaves behind on a host
    whose sysbench prints [events per second:  1234.56]: the stored
    document has no one-thread score, and the listing of runs reports
    1234.56 for it, read again from [CPU_1_thread.txt]. *)
Theorem get_runs_overrides_document :
  let store := fs (snd (run_benchmark Sample.host Sample.bench1
                          Sample.no_options Sample.idle)) in
  (exists doc, store !! Sample.bench1_metrics = Some (MetricsDoc doc)
               /\ cpu1Thread doc = None)
  /\ map cpu1Thread (get_runs Sample.host store)
     = [Some (PFloat (30864 # 25))].
Proof.
  cbv zeta. split.
  - eexists. split; [vm_compute; reflexivity|reflexivity].
  - vm_compute. reflexivity.
Qed.

(** When sysbench prints the rate first the stored score is lost in the
    listing. *)
Example get_runs_loses_score :
  let store := fs (snd (run_benchmark Sample.host_rate_first Sample.bench1
                          Sample.no_options Sample.idle)) in
  (exists doc, store !! Sample.bench1_metrics = Some (MetricsDoc doc)
               /\ cpu1Thread doc = Some (PFloat (30864 # 25)))
  /\ map cpu1Thread (get_runs Sample.host_rate_first store) = [None].
Proof.
  cbv zeta. split.
  - eexists. split; [vm_compute; reflexivity|reflexivity].
  - vm_compute. reflexivity.
Qed.

(** ** Cleaning the LLM response *)

Section RegexFacts.

Lemma span_le p s : span p s <= length s.
Proof. induction s as [|c s IH]; simpl; [lia|]. destruct (cmatch p c); simpl; lia. Qed.

(** A greedy repetition before a continuation that always succeeds takes
    the whole run. *)
Lemma rep_match_greedy_total {A} p (f : text -> A) s : forall min,
  rep_match true p min s (fun s' => Some (f s'))
  = if min <=? span p s then Some (f (drop (span p s) s)) else None.
Proof.
  induction s as [|c s IH]; intros min; simpl.
  - destruct min; reflexivity.
  - destruct (cmatch p c) eqn:Hc.
    + rewrite IH. destruct min as [|m]; simpl.
      * reflexivity.
      * destruct (m <=? span p s); reflexivity.
    + destruct min; reflexivity.
Qed.

(** Whatever a repetition hands to its continuation is no longer than
    what it was given. *)
Lemma rep_match_shorter {A} g p s : forall min (k : text -> option A) x,
  rep_match g p min s k = Some x ->
  exists s', length s' <= length s /\ k s' = Some x.
Proof.
  induction s as [|c s IH]; intros min k x; simpl.
  - destruct min; [|discriminate]. intros H. exists []. auto.
  - assert (Hstop : match min with 0 => k (c :: s) | S _ => None end = Some x ->
              exists s', length s' <= S (length s) /\ k s' = Some x).
    { destruct min; [|discriminate]. intros H. exists (c :: s). auto. }
    destruct (cmatch p c); [|exact Hstop].
    destruct g.
    + destruct (rep_match true p (pred min) s k) eqn:E.
      * intros H; injection H as <-. apply IH in E as (s' & Hl & Hk).
        exists s'. split; [lia|exact Hk].
      * exact Hstop.
    + destruct (match min with 0 => k (c :: s) | S _ => None end) eqn:E.
      * intros H; injection H as <-. now apply Hstop.
      * intros H. apply IH in H as (s' & Hl & Hk).
        exists s'. split; [lia|exact Hk].
Qed.

Lemma rmatch_shorter {A} r : forall s caps (k : text -> list text -> option A) x,
  rmatch r s caps k = Some x ->
  exists s' caps', length s' <= length s /\ k s' caps' = Some x.
Proof.
  induction r as [|p|a IHa b IHb|a IHa b IHb|g min p|p|a IHa];
    intros s caps k x; simpl.
  - intros H. exists s, caps. auto.
  - destruct s as [|c s]; [discriminate|].
    destruct (cmatch p c); [|discriminate].
    intros H. exists s, caps. simpl. split; [lia|exact H].
  - intros H. apply IHa in H as (s1 & c1 & Hl1 & H).
    apply IHb in H as (s2 & c2 & Hl2 & H).
    exists s2, c2. split; [lia|exact H].
  - destruct (rmatch a s caps k) eqn:E.
    + intros H; injection H as <-. now apply IHa in E.
    + apply IHb.
  - intros H. apply rep_match_shorter in H as (s' & Hl & H).
    exists s', caps. auto.
  - destruct s as [|c s].
    + intros H. exists [], caps. auto.
    + destruct (cmatch p c).
      * destruct (k s caps) eqn:E.
        -- intros H; injection H as <-. exists s, caps. simpl. split; [lia|exact E].
        -- intros H. exists (c :: s), caps. auto.
      * intros H. exists (c :: s), caps. auto.
  - intros H. apply IHa in H as (s' & c' & Hl & H). eauto.
Qed.

(** Skipping is dropping. *)
Lemma sub_go_skip r repl n : forall s,
  sub_go r repl s n = sub_go r repl (drop n s) 0.
Proof.
  induction n as [|n IH]; intros s; [now rewrite drop_0|].
  destruct s as [|c s]; simpl; [reflexivity|apply IH].
Qed.

(** The output of a substitution is made of characters of the input and
    of the replacement. *)
Lemma sub_go_chars r repl c n : forall s skip,
  length s <= n -> In c (sub_go r repl s skip) -> In c s \/ In c repl.
Proof.
  induction n as [|n IH]; intros s skip Hlen.
  - destruct s; [simpl; tauto|simpl in Hlen; lia].
  - destruct s as [|a s]; [simpl; tauto|]. simpl in Hlen.
    assert (Hrec : forall k, In c (sub_go r repl s k) -> In c (a :: s) \/ In c repl).
    { intros k Hk. apply IH in Hk; [|lia]. simpl. tauto. }
    assert (Hkeep : In c (a :: sub_go r repl s 0) -> In c (a :: s) \/ In c repl).
    { intros [->|Hk]; [left; now left|now apply Hrec in Hk]. }
    simpl. destruct skip as [|k]; [|apply Hrec].
    destruct (match_at r (a :: s)) as [[[m ?] ?]|]; [|exact Hkeep].
    destruct (length m); [exact Hkeep|].
    intros Hin. apply in_app_or in Hin as [Hin|Hin]; [now right|now apply Hrec in Hin].
Qed.

End RegexFacts.

Section StripFacts.

Lemma lstrip_suffix s : exists a, s = a ++ lstrip s.
Proof.
  induction s as [|c s [a IH]]; simpl; [now exists []|].
  destruct (is_space c).
  - exists (c :: a). simpl. now f_equal.
  - now exists [].
Qed.

Lemma strip_segment s : exists a b, s = a ++ strip s ++ b.
Proof.
  destruct (lstrip_suffix s) as [a Ha].
  destruct (lstrip_suffix (rev (lstrip s))) as [b Hb].
  exists a, (rev b). unfold strip, rstrip.
  rewrite <- rev_app_distr, <- Hb, rev_involutive. exact Ha.
Qed.

Lemma startswith_app p s : startswith p s = true <-> exists b, s = p ++ b.
Proof.
  revert s. induction p as [|a p IH]; intros s; simpl.
  - split; [intros _; now exists s|reflexivity].
  - destruct s as [|c s]; simpl.
    + split; [discriminate|intros [b Hb]; discriminate].
    + rewrite andb_true_iff, IH. unfold char_eqb. rewrite Ascii.eqb_eq.
      split.
      * intros [-> [b ->]]. now exists b.
      * intros [b Hb]. injection Hb as -> ->. split; [reflexivity|now exists b].
Qed.

Lemma contains_app p s : contains p s = true <-> exists a b, s = a ++ p ++ b.
Proof.
  induction s as [|c s IH]; simpl.
  - rewrite orb_false_r, startswith_app. split.
    + intros [b Hb]. now exists [], b.
    + intros (a & b & H). destruct a; [now exists b|discriminate].
  - rewrite orb_true_iff, startswith_app, IH. split.
    + intros [[b Hb]|(a & b & Hab)].
      * now exists [], b.
      * exists (c :: a), b. simpl. now f_equal.
    + intros (a & b & H). destruct a as [|x a]; simpl in H.
      * left. now exists b.
      * injection H as -> ->. right. now exists a, b.
Qed.

(** Stripping creates no occurrence. *)
Lemma contains_strip p s : contains p s = false -> contains p (strip s) = false.
Proof.
  intros H. destruct (contains p (strip s)) eqn:E; [|reflexivity].
  apply contains_app in E as (x & y & E).
  destruct (strip_segment s) as (a & b & Hs).
  assert (Hc : contains p s = true).
  { apply contains_app. exists (a ++ x), (y ++ b).
    rewrite Hs at 1. rewrite E. now rewrite <- !app_assoc. }
  congruence.
Qed.

Lemma in_strip c s : In c (strip s) -> In c s.
Proof.
  intros H. destruct (strip_segment s) as (a & b & Hs). rewrite Hs.
  apply in_or_app. right. apply in_or_app. now left.
Qed.

End StripFacts.

Section CollapseFacts.

Let nlc : cclass := CChar newline.
Local Abbreviation nn := [newline; newline].

Lemma span_drop_span p s : span p (drop (span p s) s) = 0.
Proof.
  induction s as [|c s IH]; simpl; [reflexivity|].
  destruct (cmatch p c) eqn:Hc; simpl; [exact IH|now rewrite Hc].
Qed.

Lemma match_at_blank_run s :
  match_at blank_run s
  = if 3 <=? span nlc s
    then Some (take (span nlc s) s, [], drop (span nlc s) s)
    else None.
Proof.
  unfold match_at, blank_run. simpl rmatch.
  rewrite (rep_match_greedy_total (CChar newline)
             (fun s' => (take (length s - length s') s, @nil text, s'))).
  fold nlc. destruct (3 <=? span nlc s); [|reflexivity].
  rewrite length_drop.
  replace (length s - (length s - span nlc s)) with (span nlc s)
    by (pose proof (span_le nlc s); lia).
  reflexivity.
Qed.

(** One step of the collapsing substitution. *)
Lemma collapse_step c s :
  sub_go blank_run nn (c :: s) 0
  = if 3 <=? span nlc (c :: s)
    then nn ++ sub_go blank_run nn (drop (span nlc (c :: s)) (c :: s)) 0
    else c :: sub_go blank_run nn s 0.
Proof.
  cbn [sub_go]. rewrite match_at_blank_run.
  destruct (3 <=? span nlc (c :: s)) eqn:E; [|reflexivity].
  apply Nat.leb_le in E.
  pose proof (span_le nlc (c :: s)) as Hle.
  rewrite length_take.
  destruct (span nlc (c :: s)) as [|n] eqn:En; [lia|].
  replace (S n `min` length (c :: s)) with (S n) by lia.
  rewrite sub_go_skip. reflexivity.
Qed.

Lemma three_newlines_span out :
  startswith three_newlines out = true -> 3 <= span nlc out.
Proof.
  intros H. apply startswith_app in H as [b ->]. simpl.
  repeat change (char_eqb newline newline) with true. simpl. lia.
Qed.

Lemma no_three_cons c out :
  contains three_newlines out = false -> span nlc (c :: out) <= 2 ->
  contains three_newlines (c :: out) = false.
Proof.
  intros Hout Hspan. change (contains three_newlines (c :: out))
    with (startswith three_newlines (c :: out) || contains three_newlines out).
  rewrite Hout, orb_false_r.
  destruct (startswith three_newlines (c :: out)) eqn:E; [|reflexivity].
  apply three_newlines_span in E. lia.
Qed.

Lemma span_newline_cons out : span nlc (newline :: out) = S (span nlc out).
Proof. reflexivity. Qed.

Lemma collapse_invariant n : forall s, length s <= n ->
  contains three_newlines (sub_go blank_run nn s 0) = false
  /\ span nlc (sub_go blank_run nn s 0) <= span nlc s
  /\ span nlc (sub_go blank_run nn s 0) <= 2.
Proof.
  induction n as [|n IH]; intros s Hlen.
  - destruct s; [|simpl in Hlen; lia]. simpl. repeat split; lia.
  - destruct s as [|c s]; [simpl; repeat split; lia|].
    simpl in Hlen. rewrite collapse_step.
    destruct (3 <=? span nlc (c :: s)) eqn:E.
    + apply Nat.leb_le in E.
      set (d := drop (span nlc (c :: s)) (c :: s)).
      destruct (IH d) as (Hc & Hs & _).
      { subst d. rewrite length_drop. simpl length. lia. }
      assert (Hd : span nlc d = 0) by apply span_drop_span.
      assert (H0 : span nlc (sub_go blank_run nn d 0) = 0) by lia.
      assert (H1 : span nlc (newline :: sub_go blank_run nn d 0) = 1)
        by (rewrite span_newline_cons; lia).
      assert (H2 : span nlc (nn ++ sub_go blank_run nn d 0) = 2)
        by (cbn [app]; rewrite span_newline_cons; lia).
      repeat split; try lia.
      cbn [app] in *.
      apply no_three_cons; [|lia]. apply no_three_cons; [exact Hc|lia].
    + apply Nat.leb_gt in E.
      destruct (IH s) as (Hc & Hs & H2); [lia|].
      cbn [span] in *. destruct (cmatch nlc c) eqn:Hnl.
      * assert (Hsp : S (span nlc (sub_go blank_run nn s 0)) <= 2) by lia.
        repeat split; try lia.
        apply no_three_cons; [exact Hc|]. cbn [span]. rewrite Hnl. lia.
      * repeat split; try lia.
        apply no_three_cons; [exact Hc|]. cbn [span]. rewrite Hnl. lia.
Qed.

(** After the second substitution no three newlines stand in a row. *)
Lemma collapse_no_three s :
  contains three_newlines (sub blank_run [newline; newline] s) = false.
Proof. exact (proj1 (collapse_invariant (length s) s (Nat.le_refl _))). Qed.

End CollapseFacts.

Section EscapeFacts.

Lemma rmatch_seq_cls {A} p X c s caps (k : text -> list text -> option A) :
  rmatch (Seq (Cls p) X) (c :: s) caps k
  = if cmatch p c then rmatch X s caps k else None.
Proof. reflexivity. Qed.

Lemma match_at_ansi_head c s :
  char_eqb c ESC = false -> match_at ansi_pattern (c :: s) = None.
Proof.
  intros H. unfold match_at, ansi_pattern. rewrite rmatch_seq_cls.
  cbn [cmatch]. now rewrite H.
Qed.

Lemma match_at_ansi_nil : match_at ansi_pattern [] = None.
Proof. reflexivity. Qed.

(** A match of the pattern is never empty. *)
Lemma match_at_ansi_nonempty s m caps rest :
  match_at ansi_pattern s = Some (m, caps, rest) -> 1 <= length m.
Proof.
  destruct s as [|c s]; [rewrite match_at_ansi_nil; discriminate|].
  unfold match_at, ansi_pattern. rewrite rmatch_seq_cls.
  destruct (cmatch (CChar ESC) c); [|discriminate].
  intros H. apply rmatch_shorter in H as (s' & caps' & Hl & H).
  injection H as <- _ _. rewrite length_take. simpl length. lia.
Qed.

Lemma escapes_drop n : forall s,
  escapes_begin_sequences s = true ->
  escapes_begin_sequences (drop n s) = true.
Proof.
  induction n as [|n IH]; intros s H; [now rewrite drop_0|].
  destruct s as [|c s]; [exact H|].
  simpl in H. apply andb_true_iff in H as [_ H]. now apply IH.
Qed.

(** When every ESC begins a sequence, the first substitution leaves no
    ESC. *)
Lemma strip_escapes n : forall s, length s <= n ->
  escapes_begin_sequences s = true ->
  ~ In ESC (sub_go ansi_pattern [] s 0).
Proof.
  induction n as [|n IH]; intros s Hlen Hs.
  - destruct s; [simpl; tauto|simpl in Hlen; lia].
  - destruct s as [|c s]; [simpl; tauto|]. simpl in Hlen.
    assert (Hrest : escapes_begin_sequences s = true).
    { simpl in Hs. now apply andb_true_iff in Hs as [_ Hs]. }
    cbn [sub_go].
    destruct (match_at ansi_pattern (c :: s)) as [[[m caps] rest]|] eqn:E.
    + pose proof (match_at_ansi_nonempty _ _ _ _ E) as Hm.
      destruct (length m) as [|k]; [lia|].
      cbn [app]. rewrite sub_go_skip. apply IH.
      * rewrite length_drop. lia.
      * now apply escapes_drop.
    + intros [Hc|Hin].
      * subst c. simpl in Hs. rewrite E in Hs.
        change (char_eqb ESC ESC) with true in Hs. discriminate.
      * revert Hin. apply IH; [lia|exact Hrest].
Qed.

Lemma search_without_escape t : ~ In ESC t -> search ansi_pattern t = None.
Proof.
  induction t as [|c t IH]; intros H; [reflexivity|].
  cbn [search]. rewrite match_at_ansi_head.
  - apply IH. intros Hin. apply H. now right.
  - destruct (char_eqb c ESC) eqn:E; [|reflexivity].
    apply char_eqb_eq in E. subst c. exfalso. apply H. now left.
Qed.

Lemma clean_without_escape raw :
  escapes_begin_sequences raw = true -> ~ In ESC (clean_ansi_codes raw).
Proof.
  intros H Hin. unfold clean_ansi_codes in Hin. apply in_strip in Hin.
  unfold sub in Hin at 1.
  apply (sub_go_chars _ _ _ _ _ _ (Nat.le_refl _)) in Hin as [Hin|Hin].
  - revert Hin. now apply (strip_escapes _ _ (Nat.le_refl _)).
  - simpl in Hin. destruct Hin as [Hin|[Hin|[]]]; discriminate.
Qed.

End EscapeFacts.

(** C8 as the code has it.  For every raw LLM output the cleaned text
    has no three newlines in a row; and when every ESC of the raw output
    begins an escape sequence, the cleaned text has no ESC at all, hence
    no escape sequence. *)
Theorem clean_ansi_codes_amended (raw : text) :
  contains three_newlines (clean_ansi_codes raw) = false
  /\ (escapes_begin_sequences raw = true ->
      ~ In ESC (clean_ansi_codes raw)
      /\ search ansi_pattern (clean_ansi_codes raw) = None).
Proof.
  split.
  - unfold clean_ansi_codes. apply contains_strip, collapse_no_three.
  - intros H. pose proof (clean_without_escape raw H) as Hno.
    split; [exact Hno|now apply search_without_escape].
Qed.

Lemma clean_ansi_codes_amended_witness :
  escapes_begin_sequences Sample.coloured_answer = true
  /\ clean_ansi_codes Sample.coloured_answer
     = txt "Qubits" ++ [newline; newline] ++ txt "superpose."
  /\ contains three_newlines (clean_ansi_codes Sample.coloured_answer) = false
  /\ search ansi_pattern (clean_ansi_codes Sample.coloured_answer) = None.
Proof.
  assert (H : escapes_begin_sequences Sample.coloured_answer = true)
    by (vm_compute; reflexivity).
  split; [exact H|]. split; [vm_compute; reflexivity|].
  split.
  - exact (proj1 (clean_ansi_codes_amended Sample.coloured_answer)).
  - exact (proj2 (proj2 (clean_ansi_codes_amended Sample.coloured_answer) H)).
Defined.

(** C8 as stated fails: cleaning [ESC ESC [0m [0m] removes the inner
    sequence and leaves [ESC [0m], which the pattern matches. *)
Lemma clean_ansi_codes_leaves_sequence :
  clean_ansi_codes Sample.nested_escape = [ESC] ++ txt "[0m"
  /\ search ansi_pattern (clean_ansi_codes Sample.nested_escape) = Some [].
Proof. split; vm_compute; reflexivity. Qed.

(** ** The run sequencer *)

Section RunFacts.
Variable env : Env.

Lemma started_app l1 l2 : started (l1 ++ l2) = started l1 ++ started l2.
Proof.
  induction l1 as [|e l1 IH]; [reflexivity|].
  destruct e as [[] ?|]; simpl; now rewrite ?IH.
Qed.

Lemma bind_run {A B} (c : M A) (f : A -> M B) st :
  (c ≫= f) st
  = match c st with
    | (Ok a, st') => f a st'
    | (Raise, st') => (Raise, st')
    end.
Proof. reflexivity. Qed.

(** *** Results that do not depend on the state *)

Lemma stateless_ret {A} (a : A) : stateless (mret a).
Proof. intros st1 st2. reflexivity. Qed.

Lemma stateless_raise {A} : stateless (@raise A).
Proof. intros st1 st2. reflexivity. Qed.

Lemma stateless_publish_then {A} m (c : M A) :
  stateless c -> stateless (publish env m ≫= fun _ => c).
Proof. intros H st1 st2. rewrite !bind_run. simpl. apply H. Qed.

Lemma stateless_try {A} (body handler : M A) :
  stateless body -> stateless handler -> stateless (try_except body handler).
Proof.
  intros Hb Hh st1 st2. unfold try_except.
  specialize (Hb st1 st2).
  destruct (body st1) as [[a1|] s1], (body st2) as [[a2|] s2];
    simpl in *; try congruence.
  apply Hh.
Qed.

Lemma stateless_ollama_stage label options :
  stateless (ollama_stage env label options).
Proof.
  unfold ollama_stage.
  destruct (opt_ollama options && ollama_available env).
  - destruct (nonempty _).
    + apply stateless_publish_then, stateless_ret.
    + apply stateless_publish_then, stateless_try.
      * destruct (shell env (txt "ollama list")) as [|out rc];
          [apply stateless_raise|].
        destruct (rc =? 0)%Z.
        -- destruct (decode_all out); [|apply stateless_raise].
           destruct (listed_models _).
           ++ apply stateless_publish_then.
              destruct (shell env _);
                [apply stateless_raise|apply stateless_ret].
           ++ apply stateless_publish_then, stateless_ret.
        -- apply stateless_publish_then, stateless_ret.
      * apply stateless_publish_then, stateless_ret.
  - destruct (opt_ollama options);
      apply stateless_publish_then, stateless_ret.
Qed.

(** *** Results *)

Lemma yields_ret {A} (P : A -> Prop) a : P a -> yields P (mret a).
Proof. intros H st. exists a. auto. Qed.

Lemma may_yield_ret {A} (P : A -> Prop) a : P a -> may_yield P (mret a).
Proof. intros H st. exact H. Qed.

Lemma may_yield_raise {A} (P : A -> Prop) : may_yield P raise.
Proof. intros st. exact I. Qed.

Lemma yields_publish_then {A} (P : A -> Prop) m (c : M A) :
  yields P c -> yields P (publish env m ≫= fun _ => c).
Proof. intros H st. rewrite bind_run. simpl. apply H. Qed.

Lemma may_yield_publish_then {A} (P : A -> Prop) m (c : M A) :
  may_yield P c -> may_yield P (publish env m ≫= fun _ => c).
Proof. intros H st. rewrite bind_run. simpl. apply H. Qed.

Lemma yields_try {A} (P : A -> Prop) (body handler : M A) :
  may_yield P body -> yields P handler -> yields P (try_except body handler).
Proof.
  intros Hb Hh st. unfold try_except. specialize (Hb st).
  destruct (body st) as [[a|] st']; simpl in *.
  - exists a. auto.
  - apply Hh.
Qed.

Lemma yields_bind {A B} (P : B -> Prop) (c : M A) (f : A -> M B) :
  safe c -> (forall a, yields P (f a)) -> yields P (c ≫= f).
Proof.
  intros Hc Hf st. rewrite bind_run. destruct (Hc st) as (a & Ha & _).
  destruct (c st) as [[a'|] st']; simpl in Ha; [|discriminate].
  apply Hf.
Qed.

Lemma safe_publish m : safe (publish env m).
Proof. intros st. exists tt. auto. Qed.

Lemma safe_ret {A} (a : A) : safe (mret a).
Proof. now apply yields_ret. Qed.

Lemma safe_update f : safe (update_metrics f).
Proof. intros st. exists tt. auto. Qed.

Lemma safe_get : safe get_metrics.
Proof. intros st. eexists. simpl. eauto. Qed.

Lemma safe_try {A} (body handler : M A) :
  safe handler -> safe (try_except body handler).
Proof.
  intros Hh. apply yields_try; [|exact Hh].
  intros st. now destruct (fst (body st)).
Qed.

Lemma safe_for_each {A} (body : A -> M unit) l :
  (forall x, safe (body x)) -> safe (for_each body l).
Proof.
  intros Hb. induction l as [|x l IH]; [apply safe_ret|].
  simpl. apply yields_bind; [apply Hb|]. intros _. exact IH.
Qed.

Lemma one_llm_stage_intro cmd : one_llm_stage [(txt "Ollama LLM", cmd)].
Proof. split; [reflexivity|]. repeat constructor. Qed.

Lemma ollama_stage_shape label options :
  yields (fun extra =>
            if opt_ollama options && ollama_available env
            then one_llm_stage extra else extra = [])
         (ollama_stage env label options).
Proof.
  unfold ollama_stage.
  destruct (opt_ollama options && ollama_available env).
  - destruct (nonempty _).
    + apply yields_publish_then, yields_ret, one_llm_stage_intro.
    + apply yields_publish_then, yields_try.
      * destruct (shell env (txt "ollama list")) as [|out rc];
          [apply may_yield_raise|].
        destruct (rc =? 0)%Z.
        -- destruct (decode_all out); [|apply may_yield_raise].
           destruct (listed_models _).
           ++ apply may_yield_publish_then.
              destruct (shell env _);
                [apply may_yield_raise
                |apply may_yield_ret, one_llm_stage_intro].
           ++ apply may_yield_publish_then, may_yield_ret,
                one_llm_stage_intro.
        -- apply may_yield_publish_then, may_yield_ret, one_llm_stage_intro.
      * apply yields_publish_then, yields_ret, one_llm_stage_intro.
  - destruct (opt_ollama options);
      now apply yields_publish_then, yields_ret.
Qed.

Lemma build_commands_run label run_dir options st :
  fst (build_commands env label run_dir options st)
  = match fst (ollama_stage env label options st) with
    | Ok extra => Ok (base_commands env run_dir ++ extra)
    | Raise => Raise
    end.
Proof.
  unfold build_commands. rewrite bind_run.
  destruct (ollama_stage env label options st) as [[extra|] st']; reflexivity.
Qed.

(** *** Stages started *)

Lemma started_published m r l :
  started (l ++ [Published m r]) = started l ++ started [Published m []].
Proof. rewrite started_app. destruct m; reflexivity. Qed.

Lemma quiet_ret {A} (a : A) : quiet (mret a).
Proof. intros st. reflexivity. Qed.

Lemma quiet_raise {A} : quiet (@raise A).
Proof. intros st. reflexivity. Qed.

Lemma quiet_update f : quiet (update_metrics f).
Proof. intros st. reflexivity. Qed.

Lemma quiet_get : quiet get_metrics.
Proof. intros st. reflexivity. Qed.

Lemma quiet_publish m : started [Published m []] = [] -> quiet (publish env m).
Proof.
  intros H st. simpl. rewrite started_published, H. apply app_nil_r.
Qed.

Lemma quiet_write path content : quiet (write_file env path content).
Proof.
  intros st. unfold write_file. destruct (open_ok env path); [|reflexivity].
  simpl. rewrite started_app. apply app_nil_r.
Qed.

Lemma quiet_bind {A B} (c : M A) (f : A -> M B) :
  quiet c -> (forall a, quiet (f a)) -> quiet (c ≫= f).
Proof.
  intros Hc Hf st. rewrite bind_run. specialize (Hc st).
  destruct (c st) as [[a|] st']; simpl in *; [|exact Hc].
  now rewrite Hf.
Qed.

Lemma quiet_try {A} (body handler : M A) :
  quiet body -> quiet handler -> quiet (try_except body handler).
Proof.
  intros Hb Hh st. unfold try_except. specialize (Hb st).
  destruct (body st) as [[a|] st']; simpl in *; [exact Hb|].
  now rewrite Hh.
Qed.

Lemma quiet_for_each {A} (body : A -> M unit) l :
  (forall x, quiet (body x)) -> quiet (for_each body l).
Proof.
  intros Hb. induction l as [|x l IH]; [apply quiet_ret|].
  simpl. apply quiet_bind; [apply Hb|]. intros _. exact IH.
Qed.

Ltac quiet_step :=
  first
    [ apply quiet_ret | apply quiet_raise | apply quiet_update
    | apply quiet_get | apply quiet_write
    | apply quiet_publish; reflexivity
    | apply quiet_bind; [|intros ?]
    | apply quiet_try
    | match goal with
      | |- quiet (if ?b then _ else _) => destruct b
      | |- quiet (match ?x with _ => _ end) => destruct x
      end ].

Lemma quiet_live_metrics name line_text : quiet (live_metrics name line_text).
Proof. unfold live_metrics. repeat quiet_step. Qed.

Lemma quiet_read_lines label name stdout : forall acc,
  quiet (read_lines env label name stdout acc).
Proof.
  induction stdout as [|[line|] rest IH]; intros acc; simpl.
  - apply quiet_ret.
  - apply quiet_bind; [apply quiet_publish; reflexivity|]. intros _.
    apply quiet_bind; [apply quiet_live_metrics|]. intros _. apply IH.
  - apply quiet_raise.
Qed.

Lemma quiet_ollama_line line : quiet (ollama_line line).
Proof. unfold ollama_line. repeat quiet_step. Qed.

Lemma quiet_stage_body label run_dir stg :
  quiet (stage_body env label run_dir stg).
Proof.
  destruct stg as [name cmd]. unfold stage_body.
  destruct (shell env cmd); [apply quiet_raise|].
  apply quiet_bind; [apply quiet_read_lines|]. intros output_lines.
  apply quiet_bind; [apply quiet_write|]. intros _.
  unfold after_raw_write.
  apply quiet_bind; [|intros _; apply quiet_publish; reflexivity].
  destruct (has "Memory test" name); [apply quiet_update|].
  destruct (has "Disk test" name); [apply quiet_update|].
  destruct (has "Ollama LLM" name); [|apply quiet_ret].
  apply quiet_bind; [apply quiet_for_each, quiet_ollama_line|]. intros _.
  repeat quiet_step.
Qed.

Lemma safe_run_stage label run_dir stg : safe (run_stage env label run_dir stg).
Proof.
  unfold run_stage. apply yields_bind; [apply safe_publish|]. intros _.
  apply safe_try, safe_publish.
Qed.

(** A stage is announced once and, whatever becomes of it, announces no
    other. *)
Lemma run_stage_started label run_dir stg st :
  started (log (snd (run_stage env label run_dir stg st)))
  = started (log st) ++ [fst stg].
Proof.
  unfold run_stage. rewrite bind_run. simpl.
  rewrite (quiet_try _ _ (quiet_stage_body label run_dir stg)
             (quiet_publish (MFailed label (fst stg)) eq_refl)).
  simpl. now rewrite started_published.
Qed.

(** The loop starts every stage of the list, in order, and ends. *)
Lemma stages_all_started label run_dir commands : forall st,
  fst (for_each (run_stage env label run_dir) commands st) = Ok tt
  /\ started (log (snd (for_each (run_stage env label run_dir) commands st)))
     = started (log st) ++ map fst commands.
Proof.
  induction commands as [|stg rest IH]; intros st; simpl.
  - split; [reflexivity|now rewrite app_nil_r].
  - rewrite bind_run.
    pose proof (run_stage_started label run_dir stg st) as Hs.
    destruct (safe_run_stage label run_dir stg st) as (u & Hu & _).
    destruct (run_stage env label run_dir stg st) as [[[]|] st'];
      simpl in Hu, Hs; [|discriminate].
    destruct (IH st') as [Hok Hst]. split; [exact Hok|].
    rewrite Hst, Hs, <- app_assoc. reflexivity.
Qed.

(** *** Store and metrics left alone *)

Lemma talk_ret {A} (a : A) : talk_only (mret a).
Proof. intros st. auto. Qed.

Lemma talk_get : talk_only get_metrics.
Proof. intros st. auto. Qed.

Lemma talk_publish m : talk_only (publish env m).
Proof. intros st. auto. Qed.

Lemma talk_bind {A B} (c : M A) (f : A -> M B) :
  talk_only c -> (forall a, talk_only (f a)) -> talk_only (c ≫= f).
Proof.
  intros Hc Hf st. rewrite bind_run. specialize (Hc st).
  destruct (c st) as [[a|] st']; simpl in *; [|exact Hc].
  destruct (Hf a st') as [H1 H2]. destruct Hc as [H3 H4].
  split; congruence.
Qed.

Ltac talk_step :=
  first
    [ apply talk_ret | apply talk_get | apply talk_publish
    | apply talk_bind; [|intros ?]
    | match goal with
      | |- talk_only (if ?b then _ else _) => destruct b
      end ].

Lemma talk_summary label : talk_only (summary_events env label).
Proof. unfold summary_events. repeat talk_step. Qed.

Lemma quiet_summary label : quiet (summary_events env label).
Proof. unfold summary_events. repeat quiet_step. Qed.

Lemma safe_summary label : safe (summary_events env label).
Proof.
  unfold summary_events.
  apply yields_bind; [apply safe_publish|]. intros _.
  apply yields_bind; [apply safe_get|]. intros r.
  apply yields_bind; [destruct (truthy _); [apply safe_publish|apply safe_ret]|].
  intros _.
  apply yields_bind;
    [destruct (positive _); [apply safe_publish|apply safe_ret]|].
  intros _. destruct (positive _); [apply safe_publish|apply safe_ret].
Qed.

(** Saving the record never raises, starts no stage, leaves [run_metrics]
    as it is, and stores it whenever the store takes the write. *)
Lemma save_metrics_spec label run_dir st :
  let st' := snd (save_metrics env label run_dir st) in
  fst (save_metrics env label run_dir st) = Ok tt
  /\ started (log st') = started (log st)
  /\ run_metrics st' = run_metrics st
  /\ (open_ok env (metrics_path run_dir) = true ->
      fs st' !! metrics_path run_dir = Some (MetricsDoc (run_metrics st))).
Proof.
  unfold save_metrics, try_except. rewrite bind_run.
  change (get_metrics st) with (Ok (run_metrics st), st). cbv iota beta.
  rewrite bind_run. unfold write_file.
  destruct (open_ok env (metrics_path run_dir)); simpl.
  - repeat split.
    + now rewrite started_published, started_app, !app_nil_r.
    + intros _. apply lookup_insert_eq.
  - repeat split.
    + now rewrite started_published, app_nil_r.
    + discriminate.
Qed.

Lemma quiet_ollama_stage label options : quiet (ollama_stage env label options).
Proof. unfold ollama_stage. repeat quiet_step. Qed.

Lemma quiet_build_commands label run_dir options :
  quiet (build_commands env label run_dir options).
Proof.
  unfold build_commands. apply quiet_bind; [apply quiet_ollama_stage|].
  intros extra. apply quiet_ret.
Qed.

Lemma safe_build_commands label run_dir options :
  safe (build_commands env label run_dir options).
Proof.
  unfold build_commands. apply yields_bind; [|intros extra; apply safe_ret].
  intros st. destruct (ollama_stage_shape label options st) as (a & Ha & _).
  eauto.
Qed.

(** Everything [run_benchmark] does once the run directory exists. *)
Lemma run_after_makedirs label options st st1 :
  let run_dir := path_join (RUNS_DIR env) label in
  makedirs env run_dir st = (Ok tt, st1) ->
  let outcome := run_benchmark env label options st in
  fst outcome = Ok tt
  /\ (exists commands,
        fst (build_commands env label run_dir options st) = Ok commands
        /\ started (log (snd outcome))
           = started (log st1) ++ map fst commands)
  /\ (open_ok env (metrics_path run_dir) = true ->
      fs (snd outcome) !! metrics_path run_dir
      = Some (MetricsDoc (run_metrics (snd outcome))))
  /\ exists pre r, log (snd outcome) = pre ++ [Published (MFinished label) r].
Proof.
  intros run_dir Hmk outcome. subst outcome. unfold run_benchmark.
  fold run_dir. rewrite bind_run, Hmk. cbv iota beta.
  rewrite bind_run. change (update_metrics _ st1) with
    (@Ok unit tt, {| fs := fs st1; clients := clients st1;
                     run_metrics := initial_metrics env label;
                     log := log st1 |}).
  cbv iota beta. set (st2 := {| fs := fs st1 |}).
  rewrite bind_run. change (publish env (MStarted label) st2)
    with (Ok tt, published env (MStarted label) st2). cbv iota beta.
  set (st3 := published env (MStarted label) st2).
  rewrite bind_run. change (publish env (MResultsDir label run_dir) st3)
    with (Ok tt, published env (MResultsDir label run_dir) st3).
  cbv iota beta. set (st4 := published env (MResultsDir label run_dir) st3).
  assert (H4 : started (log st4) = started (log st1)).
  { subst st4 st3 st2. simpl. now rewrite !started_published, !app_nil_r. }
  rewrite bind_run.
  pose proof (quiet_build_commands label run_dir options st4) as Hq.
  pose proof (stateless_ollama_stage label options st4 st) as Hsl.
  pose proof (build_commands_run label run_dir options st4) as Hb4.
  pose proof (build_commands_run label run_dir options st) as Hb.
  destruct (safe_build_commands label run_dir options st4) as (commands & Hc & _).
  destruct (build_commands env label run_dir options st4) as [[cs|] st5];
    simpl in Hc; [|discriminate].
  injection Hc as ->. simpl in Hq, Hb4.
  assert (Hcs : fst (build_commands env label run_dir options st) = Ok commands).
  { rewrite Hb, <- Hsl. symmetry. exact Hb4. }
  rewrite bind_run.
  set (announce := if opt_gpu options && gpu_available env then _ else _).
  assert (Ha : announce st5 = (Ok tt, snd (announce st5))
               /\ started (log (snd (announce st5))) = started (log st5)).
  { subst announce. destruct (opt_gpu options && gpu_available env); simpl;
      now rewrite started_published, app_nil_r. }
  destruct Ha as [Ha Hsa]. rewrite Ha. cbv iota beta.
  set (st6 := snd (announce st5)) in *.
  rewrite bind_run.
  destruct (stages_all_started label run_dir commands st6) as [Hok Hst].
  destruct (for_each (run_stage env label run_dir) commands st6)
    as [[[]|] st7]; simpl in Hok, Hst; [|discriminate].
  rewrite bind_run.
  destruct (save_metrics_spec label run_dir st7) as (Hs1 & Hs2 & Hs3 & Hs4).
  destruct (save_metrics env label run_dir st7) as [[[]|] st8];
    simpl in Hs1, Hs2, Hs3, Hs4; [|discriminate].
  rewrite bind_run.
  destruct (safe_summary label st8) as (u & Hu & _).
  pose proof (quiet_summary label st8) as Hqs.
  pose proof (talk_summary label st8) as [Ht1 Ht2].
  destruct (summary_events env label st8) as [[[]|] st9];
    simpl in Hu, Hqs, Ht1, Ht2; [|discriminate].
  simpl. split; [reflexivity|]. split; [|split].
  - exists commands. split; [exact Hcs|].
    rewrite started_published, app_nil_r, Hqs, Hs2, Hst, Hsa, Hq.
    apply (f_equal (fun l => l ++ map fst commands)). exact H4.
  - intros Hopen. rewrite Ht1, Ht2, Hs3. now apply Hs4.
  - eauto.
Qed.

(** *** The raw output of a stage *)

Lemma keeps_ret {A} p (a : A) : keeps p (mret a).
Proof. intros st. split; [exists []; now rewrite app_nil_r|reflexivity]. Qed.

Lemma keeps_update p f : keeps p (update_metrics f).
Proof. intros st. split; [exists []; now rewrite app_nil_r|reflexivity]. Qed.

Lemma keeps_publish p m : keeps p (publish env m).
Proof. intros st. split; [eexists; reflexivity|reflexivity]. Qed.

Lemma keeps_write p path content :
  path <> p -> keeps p (write_file env path content).
Proof.
  intros Hne st. unfold write_file. destruct (open_ok env path); simpl.
  - split; [eexists; reflexivity|now apply lookup_insert_ne].
  - split; [exists []; now rewrite app_nil_r|reflexivity].
Qed.

Lemma keeps_bind {A B} p (c : M A) (f : A -> M B) :
  keeps p c -> (forall a, keeps p (f a)) -> keeps p (c ≫= f).
Proof.
  intros Hc Hf st. rewrite bind_run. destruct (Hc st) as [[post Hl] Hfs].
  destruct (c st) as [[a|] st']; simpl in *; [|eauto].
  destruct (Hf a st') as [[post' Hl'] Hfs']. split.
  - exists (post ++ post'). now rewrite Hl', Hl, app_assoc.
  - congruence.
Qed.

Lemma keeps_for_each {A} p (body : A -> M unit) l :
  (forall x, keeps p (body x)) -> keeps p (for_each body l).
Proof.
  intros Hb. induction l as [|x l IH]; [apply keeps_ret|].
  simpl. apply keeps_bind; [apply Hb|]. intros _. exact IH.
Qed.

Lemma keeps_ollama_line p line : keeps p (ollama_line line).
Proof.
  unfold ollama_line.
  repeat first [ apply keeps_ret | apply keeps_update
               | match goal with
                 | |- keeps _ (if ?b then _ else _) => destruct b
                 | |- keeps _ (match ?x with _ => _ end) => destruct x
                 end ].
Qed.

(** Two names below the same directory are the same path only when they
    are the same name. *)
Lemma path_join_inj a b1 b2 :
  startswith (txt "/") b1 = false -> startswith (txt "/") b2 = false ->
  path_join a b1 = path_join a b2 -> b1 = b2.
Proof.
  unfold path_join. intros -> ->. destruct a as [|x a]; [auto|].
  destruct (endswith _ _); intros H.
  - now apply app_inv_head in H.
  - apply app_inv_head in H. now apply app_inv_head in H.
Qed.

Lemma keeps_after_raw_write label run_dir name output_lines :
  In name stage_names ->
  keeps (raw_path run_dir name)
        (after_raw_write env label run_dir name output_lines).
Proof.
  intros Hname. unfold after_raw_write.
  apply keeps_bind; [|intros _; apply keeps_publish].
  destruct (has "Memory test" name); [apply keeps_update|].
  destruct (has "Disk test" name); [apply keeps_update|].
  destruct (has "Ollama LLM" name) eqn:Hllm; [|apply keeps_ret].
  assert (name = txt "Ollama LLM") as ->.
  { simpl in Hname.
    destruct Hname as [<-|[<-|[<-|[<-|[<-|[]]]]]];
      solve [reflexivity | vm_compute in Hllm; discriminate]. }
  apply keeps_bind; [apply keeps_for_each; intros x; apply keeps_ollama_line|].
  intros _. cbv zeta. destruct (nonempty _); [|apply keeps_ret].
  apply keeps_bind; [|intros _; apply keeps_publish].
  apply keeps_write. unfold raw_path. intros H.
  apply path_join_inj in H; [discriminate|reflexivity|reflexivity].
Qed.

Lemma live_metrics_run name line_text st :
  exists st', live_metrics name line_text st = (Ok tt, st')
              /\ fs st' = fs st /\ log st' = log st.
Proof.
  unfold live_metrics.
  destruct (has "events per second" line_text); [|now exists st].
  destruct (search _ _); [|now exists st].
  destruct (has "1 thread" name); [eexists; now split|].
  destruct (has "all threads" name); [eexists; now split|now exists st].
Qed.

(** Output that decodes is read to its end: the lines come back stripped,
    each one broadcast, and nothing else happens. *)
Lemma read_lines_decoded label name raws : forall acc st,
  exists st' evs,
    read_lines env label name (map Some raws) acc st
    = (Ok (acc ++ map strip raws), st')
    /\ fs st' = fs st
    /\ log st' = log st ++ evs
    /\ Forall is_line evs.
Proof.
  induction raws as [|raw raws IH]; intros acc st; simpl.
  - exists st, []. rewrite !app_nil_r. repeat split. constructor.
  - rewrite bind_run. simpl. rewrite bind_run.
    destruct (live_metrics_run name (strip raw)
                (published env (MLine label name (strip raw)) st))
      as (st1 & -> & Hfs & Hlog).
    destruct (IH (acc ++ [strip raw]) st1) as (st' & evs & -> & Hfs' & Hlog' & Hev).
    exists st'. eexists. rewrite <- app_assoc. split; [reflexivity|].
    split; [now rewrite Hfs', Hfs|].
    split.
    + rewrite Hlog', Hlog. simpl. rewrite <- app_assoc. reflexivity.
    + constructor; [|exact Hev]. unfold is_line. eauto.
Qed.

Lemma stage_body_unfold label run_dir name cmd stdout rc :
  shell env cmd = Started stdout rc ->
  stage_body env label run_dir (name, cmd)
  = (read_lines env label name stdout [] ≫= fun output_lines =>
     write_file env (raw_path run_dir name)
       (RawText (join [newline] output_lines)) ≫= fun _ =>
     after_raw_write env label run_dir name output_lines).
Proof. intros H. unfold stage_body. rewrite H. reflexivity. Qed.

Lemma commands_names label run_dir options st commands name cmd :
  fst (build_commands env label run_dir options st) = Ok commands ->
  In (name, cmd) commands -> In name stage_names.
Proof.
  rewrite build_commands_run.
  destruct (ollama_stage_shape label options st) as (extra & -> & Hshape).
  intros H Hin.
  assert (commands = base_commands env run_dir ++ extra) as -> by congruence.
  apply in_app_or in Hin as [Hin|Hin].
  - simpl in Hin.
    destruct Hin as [E|[E|[E|[E|[]]]]]; injection E as <- _; simpl; tauto.
  - assert (Hall : Forall (fun s : stage => fst s = txt "Ollama LLM") extra).
    { destruct (_ && _); [apply Hshape|subst extra; constructor]. }
    rewrite Forall_forall in Hall. apply list_elem_of_In in Hin.
    specialize (Hall _ Hin). simpl in Hall. subst name. simpl. tauto.
Qed.

(** The raw output of a stage whose output decodes, once the store takes
    the write. *)
Lemma run_stage_persists label run_dir name cmd raws rc st :
  In name stage_names ->
  shell env cmd = Started (map Some raws) rc ->
  open_ok env (raw_path run_dir name) = true ->
  let st' := snd (run_stage env label run_dir (name, cmd) st) in
  let content := RawText (join [newline] (map strip raws)) in
  fs st' !! raw_path run_dir name = Some content
  /\ exists lines post,
       Forall is_line lines
       /\ log st'
          = log st
            ++ Published (MRunning label name)
                 (snd (broadcast (send_ok env) (clients st)))
               :: lines
            ++ Wrote (raw_path run_dir name) content :: post.
Proof.
  intros Hname Hrun Hopen st' content. subst st'.
  unfold run_stage. rewrite bind_run. simpl fst.
  change (publish env (MRunning label name) st)
    with (Ok tt, published env (MRunning label name) st).
  cbv iota beta. set (st1 := published env (MRunning label name) st).
  unfold try_except. rewrite (stage_body_unfold _ _ _ _ _ _ Hrun).
  rewrite bind_run.
  destruct (read_lines_decoded label name raws [] st1)
    as (st2 & lines & -> & Hfs2 & Hlog2 & Hlines).
  cbv iota beta. simpl app. rewrite bind_run.
  unfold write_file. rewrite Hopen. cbv iota beta. fold content.
  set (st3 := wrote (raw_path run_dir name) content st2).
  destruct (keeps_after_raw_write label run_dir name (map strip raws) Hname st3)
    as [[post Hpost] Hkeep].
  assert (H3 : fs st3 !! raw_path run_dir name = Some content)
    by apply lookup_insert_eq.
  assert (Hlog3 : log st3
                  = log st ++ Published (MRunning label name)
                                (snd (broadcast (send_ok env) (clients st)))
                    :: lines ++ [Wrote (raw_path run_dir name) content]).
  { subst st3. simpl. rewrite Hlog2. subst st1. simpl.
    rewrite <- !app_assoc. reflexivity. }
  destruct (after_raw_write env label run_dir name (map strip raws) st3)
    as [[[]|] st4]; cbn [snd] in Hpost, Hkeep; cbv iota beta;
    cbn [snd publish published fs log].
  - split; [congruence|]. exists lines, post. split; [exact Hlines|].
    rewrite Hpost, Hlog3, <- !app_assoc. simpl. rewrite <- app_assoc. reflexivity.
  - split; [congruence|]. eexists lines, _. split; [exact Hlines|].
    rewrite Hpost, Hlog3, <- !app_assoc. simpl. rewrite <- !app_assoc.
    reflexivity.
Qed.

(** Whatever the output, reading it only broadcasts lines; it ends well
    only if every line decoded. *)
Lemma read_lines_trace label name stdout : forall acc st,
  exists evs,
    fs (snd (read_lines env label name stdout acc st)) = fs st
    /\ log (snd (read_lines env label name stdout acc st)) = log st ++ evs
    /\ Forall is_line evs
    /\ ((exists raws, stdout = map Some raws)
        \/ fst (read_lines env label name stdout acc st) = Raise).
Proof.
  induction stdout as [|[raw|] rest IH]; intros acc st; simpl.
  - exists []. rewrite app_nil_r. repeat split; [constructor|].
    left. now exists [].
  - rewrite bind_run. simpl. rewrite bind_run.
    destruct (live_metrics_run name (strip raw)
                (published env (MLine label name (strip raw)) st))
      as (st1 & -> & Hfs & Hlog).
    destruct (IH (acc ++ [strip raw]) st1) as (evs & Hfs' & Hlog' & Hev & Hres).
    eexists. split; [now rewrite Hfs', Hfs|]. split.
    + rewrite Hlog', Hlog. simpl. rewrite <- app_assoc. reflexivity.
    + split; [constructor; [unfold is_line; eauto|exact Hev]|].
      destruct Hres as [[raws ->]|Hraise]; [|now right].
      left. now exists (raw :: raws).
  - exists []. rewrite app_nil_r. repeat split; [constructor|]. now right.
Qed.

(** The trace of one stage: it is announced, its lines are broadcast, and
    then either it fails before anything is written, or its whole output
    was read and is written before anything else happens. *)
Lemma run_stage_trace label run_dir name cmd st :
  In name stage_names ->
  let st' := snd (run_stage env label run_dir (name, cmd) st) in
  exists lines,
    Forall is_line lines
    /\ ((exists r,
           log st'
           = log st
             ++ Published (MRunning label name)
                  (snd (broadcast (send_ok env) (clients st)))
                :: lines ++ [Published (MFailed label name) r])
        \/ (exists raws rc post,
              shell env cmd = Started (map Some raws) rc
              /\ fs st' !! raw_path run_dir name
                 = Some (RawText (join [newline] (map strip raws)))
              /\ log st'
                 = log st
                   ++ Published (MRunning label name)
                        (snd (broadcast (send_ok env) (clients st)))
                      :: lines
                   ++ Wrote (raw_path run_dir name)
                        (RawText (join [newline] (map strip raws)))
                      :: post)).
Proof.
  intros Hname st'.
  destruct (shell env cmd) as [|stdout rc] eqn:Hrun.
  { exists []. split; [constructor|]. left. subst st'.
    unfold run_stage, try_except, stage_body. rewrite bind_run, Hrun.
    simpl. rewrite <- app_assoc. eauto. }
  destruct (read_lines_trace label name stdout []
              (published env (MRunning label name) st))
    as (evs & Hfs & Hlog & Hev & Hres).
  destruct Hres as [[raws ->]|Hraise].
  - destruct (open_ok env (raw_path run_dir name)) eqn:Hopen.
    + destruct (run_stage_persists label run_dir name cmd raws rc st
                  Hname Hrun Hopen) as (Hfs' & lines & post & Hlines & Hlog').
      exists lines. split; [exact Hlines|]. right. exists raws, rc, post.
      auto.
    + exists evs. split; [exact Hev|]. left. subst st'.
      unfold run_stage, try_except. rewrite bind_run.
      rewrite (stage_body_unfold _ _ _ _ _ _ Hrun). simpl fst.
      change (publish env (MRunning label name) st)
        with (Ok tt, published env (MRunning label name) st).
      cbv iota beta. rewrite bind_run.
      destruct (read_lines_decoded label name raws []
                  (published env (MRunning label name) st))
        as (st2 & lines & E & _ & Hlog2 & _).
      rewrite E in Hlog. simpl snd in Hlog. rewrite E. cbv iota beta.
      rewrite bind_run. unfold write_file. rewrite Hopen. cbv iota beta.
      cbn [snd publish published log]. rewrite Hlog. simpl.
      rewrite <- !app_assoc. simpl. eauto.
  - exists evs. split; [exact Hev|]. left. subst st'.
    unfold run_stage, try_except. rewrite bind_run.
    rewrite (stage_body_unfold _ _ _ _ _ _ Hrun). simpl fst.
    change (publish env (MRunning label name) st)
      with (Ok tt, published env (MRunning label name) st).
    cbv iota beta. rewrite bind_run.
    destruct (read_lines env label name stdout []
                (published env (MRunning label name) st)) as [[a|] st2];
      simpl in Hraise; [discriminate|].
    simpl snd in Hlog. cbv iota beta.
    cbn [snd publish published log]. rewrite Hlog. simpl.
    rewrite <- !app_assoc. simpl. eauto.
Qed.

End RunFacts.

(** C5. The stage list is a function of the options and the environment
    alone, whatever the store, the viewers and the trace are when it is
    built; it is the four fixed stages, CPU with one thread, CPU with all
    threads, memory and disk in that order, followed by one LLM stage
    exactly when the option asks for it and the runtime is available; and
    with [gpu] and [ollama] both off it is the four fixed stages, which
    the loop then starts one after the other. *)
Theorem stage_list_fixed (env : Env) (label run_dir : text)
    (options : Options) (st1 st2 : State) :
  fst (build_commands env label run_dir options st1)
  = fst (build_commands env label run_dir options st2)
  /\ (exists extra,
        fst (build_commands env label run_dir options st1)
        = Ok (base_commands env run_dir ++ extra)
        /\ if opt_ollama options && ollama_available env
           then one_llm_stage extra else extra = [])
  /\ map fst (base_commands env run_dir)
     = [txt "CPU 1 thread"; txt "CPU all threads"; txt "Memory test";
        txt "Disk test"]
  /\ (forall model,
        fst (build_commands env label run_dir
               {| opt_gpu := false; opt_ollama := false; opt_model := model |}
               st1)
        = Ok (base_commands env run_dir))
  /\ started (log (snd (for_each (run_stage env label run_dir)
                          (base_commands env run_dir) st1)))
     = started (log st1)
       ++ [txt "CPU 1 thread"; txt "CPU all threads"; txt "Memory test";
           txt "Disk test"].
Proof.
  split; [|split; [|split; [|split]]].
  - rewrite !build_commands_run.
    now rewrite (stateless_ollama_stage env label options st1 st2).
  - rewrite build_commands_run.
    destruct (ollama_stage_shape env label options st1) as (extra & -> & H).
    now exists extra.
  - reflexivity.
  - intros model. rewrite build_commands_run.
    destruct (ollama_stage_shape env label
                {| opt_gpu := false; opt_ollama := false; opt_model := model |}
                st1) as (extra & -> & H).
    simpl in H. subst extra. now rewrite app_nil_r.
  - now rewrite (proj2 (stages_all_started env label run_dir _ st1)).
Qed.

(** C1. Creating the run directory is the only step that can end the
    run.  When it fails the run raises; when it succeeds the run goes to
    its end whatever the stages do, be it a nonzero exit status, a command
    that cannot be launched or output that cannot be read: every stage of
    the list is started, in order, the finish event is the last one
    published, and [metrics.json] holds the final [run_metrics] whenever
    the store takes that write. *)
Theorem run_benchmark_resilient (env : Env) (label : text)
    (options : Options) (st : State) :
  let run_dir := path_join (RUNS_DIR env) label in
  let outcome := run_benchmark env label options st in
  (makedirs_ok env run_dir = false -> fst outcome = Raise)
  /\ (makedirs_ok env run_dir = true ->
      fst outcome = Ok tt
      /\ (exists commands,
            fst (build_commands env label run_dir options st) = Ok commands
            /\ started (log (snd outcome))
               = started (log st) ++ map fst commands)
      /\ (open_ok env (metrics_path run_dir) = true ->
          fs (snd outcome) !! metrics_path run_dir
          = Some (MetricsDoc (run_metrics (snd outcome))))
      /\ exists pre r,
           log (snd outcome) = pre ++ [Published (MFinished label) r]).
Proof.
  intros run_dir outcome. split.
  - intros Hno. subst outcome. unfold run_benchmark. fold run_dir.
    rewrite bind_run. unfold makedirs. now rewrite Hno.
  - intros Hyes.
    assert (Hmk : exists st1, makedirs env run_dir st = (Ok tt, st1)
                              /\ log st1 = log st).
    { unfold makedirs. rewrite Hyes. eexists. split; reflexivity. }
    destruct Hmk as (st1 & Hmk & Hlog).
    destruct (run_after_makedirs env label options st st1 Hmk)
      as (H1 & (commands & H2 & H3) & H4 & H5).
    rewrite Hlog in H3. eauto 10.
Qed.

(** On the sample host, with both options off, the list is the four
    fixed stages. *)
Example stage_list_on_host :
  fst (build_commands Sample.host Sample.bench1 Sample.bench1_dir
         Sample.no_options Sample.idle)
  = Ok [ (txt "CPU 1 thread", Sample.cpu1_cmd);
         (txt "CPU all threads", Sample.cpu8_cmd);
         (txt "Memory test", Sample.memory_cmd);
         (txt "Disk test",
          txt "mkdir -p /srv/runs/bench1/disk && cd /srv/runs/bench1/disk"
          ++ txt " && sysbench fileio --file-total-size=5G prepare"
          ++ txt " && sysbench fileio --file-test-mode=seqrd run"
          ++ txt " && sysbench fileio cleanup") ].
Proof. vm_compute. reflexivity. Qed.

(** Nothing can be created: the run raises at once and publishes
    nothing. *)
Example run_on_read_only_host :
  run_benchmark Sample.host_read_only Sample.bench1 Sample.no_options
    Sample.idle
  = (Raise, Sample.idle).
Proof. reflexivity. Qed.

Lemma run_benchmark_resilient_witness :
  makedirs_ok Sample.host (path_join (RUNS_DIR Sample.host) Sample.bench1)
  = true
  /\ fst Sample.bench1_run = Ok tt
  /\ started (log (snd Sample.bench1_run))
     = [txt "CPU 1 thread"; txt "CPU all threads"; txt "Memory test";
        txt "Disk test"]
  /\ fs (snd Sample.bench1_run) !! Sample.bench1_metrics
     = Some (MetricsDoc (run_metrics (snd Sample.bench1_run))).
Proof.
  pose proof (proj2 (run_benchmark_resilient Sample.host Sample.bench1
                       Sample.no_options Sample.idle) eq_refl)
    as (H1 & (commands & H2 & H3) & H4 & _).
  split; [reflexivity|]. split; [exact H1|]. split.
  - vm_compute. reflexivity.
  - exact (H4 eq_refl).
Defined.

(** C6. For every stage of a run: the file of its raw output is the one
    named after the stage, spaces replaced by underscores, under the run
    directory.  A completion of the stage is only ever reported after its
    whole output was read and written there, each line stripped and the
    lines joined by newlines, and the file still holds that text when the
    stage ends.  And whenever the output is read to its end and the store
    takes the write, the output is so written, whatever the lines
    contain. *)
Theorem raw_output_persisted (env : Env) (label run_dir : text)
    (options : Options) (st0 st : State) (commands : list stage)
    (name cmd : text)
    (Hcmds : fst (build_commands env label run_dir options st0) = Ok commands)
    (Hin : In (name, cmd) commands) :
  let st' := snd (run_stage env label run_dir (name, cmd) st) in
  let content := fun raws => RawText (join [newline] (map strip raws)) in
  let persisted := fun raws evs =>
    fs st' !! raw_path run_dir name = Some (content raws)
    /\ exists before after,
         evs = before ++ Wrote (raw_path run_dir name) (content raws) :: after
         /\ forall l n r, ~ In (Published (MCompleted l n) r) before in
  raw_path run_dir name
  = path_join run_dir (replace_char " " "_" name ++ txt ".txt")
  /\ (forall evs r,
        log st' = log st ++ evs ->
        In (Published (MCompleted label name) r) evs ->
        exists raws rc,
          shell env cmd = Started (map Some raws) rc /\ persisted raws evs)
  /\ (forall raws rc,
        shell env cmd = Started (map Some raws) rc ->
        open_ok env (raw_path run_dir name) = true ->
        exists evs, log st' = log st ++ evs /\ persisted raws evs).
Proof.
  intros st' content persisted. split; [reflexivity|].
  pose proof (commands_names env _ _ _ _ _ _ _ Hcmds Hin) as Hname.
  assert (Hclean : forall lines : list event, Forall is_line lines ->
            forall m r l n r',
              started [Published m r] <> [] ->
              ~ In (Published (MCompleted l n) r') (Published m r :: lines)).
  { intros lines Hlines m r l n r' Hm [Hhead|Hin'].
    - injection Hhead as -> _. now apply Hm.
    - rewrite Forall_forall in Hlines. apply list_elem_of_In in Hin'.
      destruct (Hlines _ Hin') as (l' & n' & t & r'' & E). discriminate. }
  split.
  - intros evs r Hevs Hdone.
    destruct (run_stage_trace env label run_dir name cmd st Hname)
      as (lines & Hlines & [[r0 Hlog]|(raws & rc & post & Hrun & Hfs & Hlog)]);
      fold st' in Hlog; rewrite Hevs in Hlog; apply app_inv_head in Hlog;
      subst evs.
    + exfalso. destruct Hdone as [Hd|Hd]; [discriminate|].
      apply in_app_or in Hd as [Hd|[Hd|[]]]; [|discriminate].
      rewrite Forall_forall in Hlines. apply list_elem_of_In in Hd.
      destruct (Hlines _ Hd) as (l' & n' & t & r'' & E). discriminate.
    + exists raws, rc. split; [exact Hrun|]. split; [exact Hfs|].
      eexists (_ :: lines), post. split; [reflexivity|].
      intros l n r'. apply Hclean; [exact Hlines|discriminate].
  - intros raws rc Hrun Hopen.
    destruct (run_stage_persists env label run_dir name cmd raws rc st
                Hname Hrun Hopen) as (Hfs & lines & post & Hlines & Hlog).
    eexists. split; [exact Hlog|]. split; [exact Hfs|].
    eexists (_ :: lines), post. split; [reflexivity|].
    intros l n r'. apply Hclean; [exact Hlines|discriminate].
Qed.

Lemma raw_output_persisted_witness :
  fst (build_commands Sample.host Sample.bench1 Sample.bench1_dir
         Sample.no_options Sample.idle)
  = Ok (base_commands Sample.host Sample.bench1_dir)
  /\ In (txt "CPU 1 thread", Sample.cpu1_cmd)
        (base_commands Sample.host Sample.bench1_dir)
  /\ shell Sample.host Sample.cpu1_cmd
     = Started (map Some Sample.cpu1_output) 0
  /\ open_ok Sample.host (txt "/srv/runs/bench1/CPU_1_thread.txt") = true
  /\ fs (snd (run_stage Sample.host Sample.bench1 Sample.bench1_dir
                (txt "CPU 1 thread", Sample.cpu1_cmd) Sample.idle))
     !! txt "/srv/runs/bench1/CPU_1_thread.txt"
     = Some (RawText (txt "sysbench 1.0.20" ++ [newline]
                      ++ txt "events per second:  1234.56")).
Proof.
  pose proof (proj2 (proj2
    (raw_output_persisted Sample.host Sample.bench1 Sample.bench1_dir
       Sample.no_options Sample.idle Sample.idle
       (base_commands Sample.host Sample.bench1_dir)
       (txt "CPU 1 thread") Sample.cpu1_cmd
       eq_refl (or_introl eq_refl)))
    Sample.cpu1_output 0%Z eq_refl eq_refl) as (evs & _ & Hfs & _).
  split; [reflexivity|]. split; [left; reflexivity|].
  split; [reflexivity|]. split; [reflexivity|]. exact Hfs.
Defined.

(** * Further properties *)

(** ** What every run respects *)

Section Respect.
Variable env : Env.
Variable R : State -> State -> Prop.
Hypothesis R_refl : forall st, R st st.
Hypothesis R_trans : forall a b c, R a b -> R b c -> R a c.

Lemma respects_ret {A} (a : A) : respects R (mret a).
Proof. intros st. apply R_refl. Qed.

Lemma respects_raise {A} : respects R (@raise A).
Proof. intros st. apply R_refl. Qed.

Lemma respects_get : respects R get_metrics.
Proof. intros st. apply R_refl. Qed.

Lemma respects_bind {A B} (c : M A) (f : A -> M B) :
  respects R c -> (forall a, respects R (f a)) -> respects R (c ≫= f).
Proof.
  intros Hc Hf st. rewrite bind_run. specialize (Hc st).
  destruct (c st) as [[a|] st']; simpl in *; [|exact Hc].
  eapply R_trans; [exact Hc|apply Hf].
Qed.

(** The same when what follows is only known to respect [R] on the
    results the first part can give. *)
Lemma respects_bind_on {A B} (P : A -> Prop) (c : M A) (f : A -> M B) :
  respects R c -> may_yield P c -> (forall a, P a -> respects R (f a)) ->
  respects R (c ≫= f).
Proof.
  intros Hc Hp Hf st. rewrite bind_run. specialize (Hc st). specialize (Hp st).
  destruct (c st) as [[a|] st']; simpl in *; [|exact Hc].
  eapply R_trans; [exact Hc|now apply Hf].
Qed.

Lemma respects_try {A} (body handler : M A) :
  respects R body -> respects R handler -> respects R (try_except body handler).
Proof.
  intros Hb Hh st. unfold try_except. specialize (Hb st).
  destruct (body st) as [[a|] st']; simpl in *; [exact Hb|].
  eapply R_trans; [exact Hb|apply Hh].
Qed.

Lemma respects_for_each {A} (body : A -> M unit) l :
  (forall x, In x l -> respects R (body x)) -> respects R (for_each body l).
Proof.
  induction l as [|x l IH]; intros Hb; [apply respects_ret|].
  simpl. apply respects_bind; [apply Hb; now left|].
  intros _. apply IH. intros y Hy. apply Hb. now right.
Qed.

Section Primitives.
Variable run_dir : text.
Hypothesis R_publish : forall m, respects R (publish env m).
Hypothesis R_write : forall path content,
  In path (run_files run_dir) -> respects R (write_file env path content).
Hypothesis R_cpu1 : forall v, respects R (update_metrics (set_cpu1Thread v)).
Hypothesis R_cpuall : forall v, respects R (update_metrics (set_cpuAllThreads v)).
Hypothesis R_memory : forall v, respects R (update_metrics (set_memory v)).
Hypothesis R_disk : forall lines,
  respects R
    (update_metrics (set_disk
       {| rw_read := default (PInt 0)
                       (parse_sysbench_disk lines !! "disk_read_mib_s");
          rw_write := default (PInt 0)
                        (parse_sysbench_disk lines !! "disk_write_mib_s") |})).
Hypothesis R_ollama : forall f, respects R (update_metrics (on_ollama f)).

Ltac respects_step :=
  first
    [ apply respects_ret | apply respects_raise | apply respects_get
    | apply R_publish | apply R_cpu1 | apply R_cpuall | apply R_memory
    | apply R_disk | apply R_ollama
    | apply respects_bind; [|intros ?]
    | apply respects_try
    | match goal with
      | |- respects _ (if ?b then _ else _) => destruct b
      | |- respects _ (match ?x with _ => _ end) => destruct x
      end ].

Lemma respects_live_metrics name line_text :
  respects R (live_metrics name line_text).
Proof. unfold live_metrics. repeat respects_step. Qed.

Lemma respects_read_lines label name stdout : forall acc,
  respects R (read_lines env label name stdout acc).
Proof.
  induction stdout as [|[line|] rest IH]; intros acc; simpl.
  - apply respects_ret.
  - apply respects_bind; [apply R_publish|]. intros _.
    apply respects_bind; [apply respects_live_metrics|]. intros _. apply IH.
  - apply respects_raise.
Qed.

Lemma respects_ollama_line line : respects R (ollama_line line).
Proof. unfold ollama_line. repeat respects_step. Qed.

Lemma llm_file_in_run_files :
  In (path_join run_dir (txt "llm_response.txt")) (run_files run_dir).
Proof. unfold run_files. apply in_or_app. right. now left. Qed.

Lemma metrics_file_in_run_files : In (metrics_path run_dir) (run_files run_dir).
Proof. unfold run_files. apply in_or_app. right. right. now left. Qed.

Lemma raw_file_in_run_files name :
  In name stage_names -> In (raw_path run_dir name) (run_files run_dir).
Proof.
  intros H. unfold run_files. apply in_or_app. left. now apply in_map.
Qed.

Lemma respects_after_raw_write label name output_lines :
  respects R (after_raw_write env label run_dir name output_lines).
Proof.
  unfold after_raw_write.
  apply respects_bind; [|intros _; apply R_publish].
  destruct (has "Memory test" name); [apply R_memory|].
  destruct (has "Disk test" name); [apply R_disk|].
  destruct (has "Ollama LLM" name); [|apply respects_ret].
  apply respects_bind.
  { apply respects_for_each. intros x _. apply respects_ollama_line. }
  intros _. cbv zeta. destruct (nonempty _); [|apply respects_ret].
  apply respects_bind; [|intros _; apply R_publish].
  apply R_write, llm_file_in_run_files.
Qed.

Lemma respects_run_stage label name cmd :
  In name stage_names -> respects R (run_stage env label run_dir (name, cmd)).
Proof.
  intros Hname. unfold run_stage.
  apply respects_bind; [apply R_publish|]. intros _.
  apply respects_try; [|apply R_publish].
  unfold stage_body. destruct (shell env cmd); [apply respects_raise|].
  apply respects_bind; [apply respects_read_lines|]. intros output_lines.
  apply respects_bind; [|intros _; apply respects_after_raw_write].
  now apply R_write, raw_file_in_run_files.
Qed.

Lemma respects_ollama_stage label options :
  respects R (ollama_stage env label options).
Proof. unfold ollama_stage. repeat respects_step. Qed.

Lemma respects_build_commands label options :
  respects R (build_commands env label run_dir options).
Proof.
  unfold build_commands.
  apply respects_bind; [apply respects_ollama_stage|]. intros extra.
  apply respects_ret.
Qed.

Lemma respects_save_metrics label : respects R (save_metrics env label run_dir).
Proof.
  unfold save_metrics. apply respects_try; [|apply R_publish].
  apply respects_bind; [apply respects_get|]. intros r.
  apply respects_bind; [|intros _; apply R_publish].
  apply R_write, metrics_file_in_run_files.
Qed.

Lemma respects_summary label : respects R (summary_events env label).
Proof. unfold summary_events. repeat respects_step. Qed.

Lemma build_commands_names label options :
  may_yield
    (fun commands : list stage =>
       forall name cmd, In (name, cmd) commands -> In name stage_names)
    (build_commands env label run_dir options).
Proof.
  intros st.
  destruct (fst (build_commands env label run_dir options st)) as [commands|] eqn:E;
    [|exact I].
  intros name cmd Hin. exact (commands_names env _ _ _ _ _ _ _ E Hin).
Qed.

(** Everything a run does after its start event. *)
Lemma respects_run_tail label options :
  respects R (run_tail env label run_dir options).
Proof.
  unfold run_tail.
  apply respects_bind; [apply R_publish|]. intros _.
  apply (respects_bind_on _ _ _ (respects_build_commands label options)
           (build_commands_names label options)).
  intros commands Hnames.
  apply respects_bind;
    [destruct (_ && _); apply R_publish|]. intros _.
  apply respects_bind.
  { apply respects_for_each. intros [name cmd] Hin.
    apply respects_run_stage. now apply (Hnames name cmd). }
  intros _. apply respects_bind; [apply respects_save_metrics|]. intros _.
  apply respects_bind; [apply respects_summary|]. intros _. apply R_publish.
Qed.

(** Everything a run does after its first two steps. *)
Lemma respects_run_rest label options :
  respects R (run_rest env label run_dir options).
Proof.
  unfold run_rest. apply respects_bind; [apply R_publish|]. intros _.
  apply respects_run_tail.
Qed.

End Primitives.

End Respect.

(** A run is its first two steps followed by [run_rest]. *)
Lemma run_benchmark_unfold env label options st :
  run_benchmark env label options st
  = if makedirs_ok env (path_join (RUNS_DIR env) label)
    then run_rest env label (path_join (RUNS_DIR env) label) options
           (run_start env label st)
    else (Raise, st).
Proof.
  unfold run_benchmark. rewrite bind_run. unfold makedirs.
  destruct (makedirs_ok env _); reflexivity.
Qed.

(** ** The keys of the sysbench parsers *)

Section KeyFacts.

(** Every key of [m] is one of [keys]. *)
Let within (keys : list string) (m : dict) : Prop :=
  forall k, is_Some (m !! k) -> In k keys.

Lemma within_empty keys : within keys ∅.
Proof. intros k [v Hv]. rewrite lookup_empty in Hv. discriminate. Qed.

Lemma within_insert keys (k0 : string) v (m : dict) :
  In k0 keys -> within keys m -> within keys (<[k0 := v]> m).
Proof.
  intros Hk Hm k Hs. destruct (decide (k0 = k)) as [<-|Hne]; [exact Hk|].
  rewrite lookup_insert_ne in Hs by exact Hne. now apply Hm.
Qed.

Lemma within_stats keys kmin kavg kmax line (m : dict) :
  In kmin keys -> In kavg keys -> In kmax keys ->
  within keys m -> within keys (put_stats kmin kavg kmax line m).
Proof.
  intros H1 H2 H3 Hm. unfold put_stats. destruct (search _ _); [|exact Hm].
  now repeat apply within_insert.
Qed.

Ltac within_stage Hm :=
  repeat first
    [ exact Hm
    | apply within_stats; [simpl; tauto|simpl; tauto|simpl; tauto|]
    | apply within_insert; [simpl; tauto|]
    | match goal with
      | |- within _ (if ?b then _ else _) => destruct b
      | |- within _ (match ?x with _ => _ end) => destruct x
      end ].

Lemma cpu_step_within m raw :
  within cpu_keys m -> within cpu_keys (cpu_step m raw).
Proof.
  intros Hm. unfold cpu_step. cbv zeta.
  set (line := strip raw). clearbody line.
  set (m1 := if has "total number of events" line then _ else m).
  assert (H1 : within cpu_keys m1) by (subst m1; within_stage Hm).
  clearbody m1. clear Hm.
  set (m2 := if has "events per second" line then _ else m1).
  assert (H2 : within cpu_keys m2) by (subst m2; within_stage H1).
  clearbody m2. clear H1.
  set (m3 := if has "total time:" line && has "s" line then _ else m2).
  assert (H3 : within cpu_keys m3) by (subst m3; within_stage H2).
  clearbody m3. clear H2.
  set (m4 := if has_stats line then _ else m3).
  assert (H4 : within cpu_keys m4) by (subst m4; within_stage H3).
  clearbody m4. clear H3.
  destruct (has "threads fairness:" line); [|exact H4].
  set (m5 := if has "events (avg/stddev)" line then _ else m4).
  assert (H5 : within cpu_keys m5) by (subst m5; within_stage H4).
  clearbody m5. clear H4.
  within_stage H5.
Qed.

Lemma disk_step_within m raw :
  within disk_keys m -> within disk_keys (disk_step m raw).
Proof.
  intros Hm. unfold disk_step. cbv zeta.
  set (line := strip raw). clearbody line.
  set (m1 := if has "total number of events" line then _ else m).
  assert (H1 : within disk_keys m1) by (subst m1; within_stage Hm).
  clearbody m1. clear Hm.
  set (m2 := if has "operations per second" line then _ else m1).
  assert (H2 : within disk_keys m2) by (subst m2; within_stage H1).
  clearbody m2. clear H1.
  set (m3 := if has "read, MiB/s" line then _ else m2).
  assert (H3 : within disk_keys m3) by (subst m3; within_stage H2).
  clearbody m3. clear H2.
  set (m4 := if has "written, MiB/s" line then _ else m3).
  assert (H4 : within disk_keys m4) by (subst m4; within_stage H3).
  clearbody m4. clear H3.
  set (m5 := if has_stats line then _ else m4).
  assert (H5 : within disk_keys m5) by (subst m5; within_stage H4).
  clearbody m5. clear H4.
  set (m6 := if has "File size" line then _ else m5).
  assert (H6 : within disk_keys m6) by (subst m6; within_stage H5).
  clearbody m6. clear H5.
  within_stage H6.
Qed.

Lemma fold_within keys (step : dict -> text -> dict) lines :
  (forall m raw, within keys m -> within keys (step m raw)) ->
  forall m, within keys m -> within keys (fold_left step lines m).
Proof.
  intros Hstep. induction lines as [|l ls IH]; intros m Hm; simpl; auto.
Qed.

Lemma parse_cpu_within lines : within cpu_keys (parse_sysbench_cpu lines).
Proof.
  apply fold_within; [apply cpu_step_within|apply within_empty].
Qed.

Lemma parse_disk_within lines : within disk_keys (parse_sysbench_disk lines).
Proof.
  apply fold_within; [apply disk_step_within|apply within_empty].
Qed.

End KeyFacts.

(** The CPU parser assigns ten keys and no other: whatever the lines, a
    key of the mapping it returns is one of them. *)
Theorem parse_sysbench_cpu_keys (output : list text) (k : string) :
  is_Some (parse_sysbench_cpu output !! k) -> In k cpu_keys.
Proof. apply parse_cpu_within. Qed.

Lemma parse_sysbench_cpu_keys_witness :
  is_Some (parse_sysbench_cpu [txt "    events per second:  1234.56"]
           !! "events_per_second")
  /\ In "events_per_second"%string cpu_keys.
Proof.
  assert (H : is_Some (parse_sysbench_cpu
                         [txt "    events per second:  1234.56"]
                       !! "events_per_second")) by (vm_compute; eauto).
  split; [exact H|]. exact (parse_sysbench_cpu_keys _ _ H).
Defined.

Lemma parse_disk_run_keys_absent output :
  parse_sysbench_disk output !! "disk_read_mib_s" = None
  /\ parse_sysbench_disk output !! "disk_write_mib_s" = None.
Proof.
  pose proof (parse_disk_within output) as H. split.
  - destruct (parse_sysbench_disk output !! "disk_read_mib_s") eqn:E;
      [|reflexivity].
    exfalso. assert (Hin : In "disk_read_mib_s"%string disk_keys)
      by (apply H; rewrite E; eauto).
    simpl in Hin. intuition discriminate.
  - destruct (parse_sysbench_disk output !! "disk_write_mib_s") eqn:E;
      [|reflexivity].
    exfalso. assert (Hin : In "disk_write_mib_s"%string disk_keys)
      by (apply H; rewrite E; eauto).
    simpl in Hin. intuition discriminate.
Qed.

(** The disk parser assigns nine keys and no other; the keys
    [disk_read_mib_s] and [disk_write_mib_s], which [run_benchmark] and
    [get_runs] look up, are not among them and are never present. *)
Theorem parse_sysbench_disk_keys (output : list text) :
  (forall k, is_Some (parse_sysbench_disk output !! k) -> In k disk_keys)
  /\ parse_sysbench_disk output !! "disk_read_mib_s" = None
  /\ parse_sysbench_disk output !! "disk_write_mib_s" = None.
Proof.
  split; [apply parse_disk_within|apply parse_disk_run_keys_absent].
Qed.

(** ** What the record of a run always holds *)

Section RecordFacts.
Variable env : Env.

(** An invariant of [run_metrics] that holds of the initial record and
    that every update of the run keeps holds of the final record, and of
    the stored document. *)
Lemma run_record_invariant (I : RunRecord -> Prop) label options st :
  stable I -> I (initial_metrics env label) ->
  makedirs_ok env (path_join (RUNS_DIR env) label) = true ->
  I (run_metrics (snd (run_benchmark env label options st))).
Proof.
  intros (H1 & H2 & H3 & H4 & H5) Hinit Hmk.
  rewrite run_benchmark_unfold, Hmk.
  set (R := fun a b : State => I (run_metrics a) -> I (run_metrics b)).
  assert (Hrest : respects R
            (run_rest env label (path_join (RUNS_DIR env) label) options)).
  { apply respects_run_rest; unfold R.
    - auto.
    - auto.
    - intros m st0. simpl. auto.
    - intros path content _ st0. unfold write_file.
      destruct (open_ok env path); simpl; auto.
    - intros v st0. simpl. auto.
    - intros v st0. simpl. auto.
    - intros v st0. simpl. auto.
    - intros lines st0. simpl. auto.
    - intros f st0. simpl. auto. }
  apply (Hrest (run_start env label st)). exact Hinit.
Qed.

Lemma run_document label options st :
  makedirs_ok env (path_join (RUNS_DIR env) label) = true ->
  open_ok env (metrics_path (path_join (RUNS_DIR env) label)) = true ->
  fs (snd (run_benchmark env label options st))
  !! metrics_path (path_join (RUNS_DIR env) label)
  = Some (MetricsDoc (run_metrics (snd (run_benchmark env label options st)))).
Proof.
  intros Hmk Hopen.
  assert (H : exists st1,
             makedirs env (path_join (RUNS_DIR env) label) st = (Ok tt, st1)).
  { unfold makedirs. rewrite Hmk. eauto. }
  destruct H as [st1 H].
  destruct (run_after_makedirs env label options st st1 H) as (_ & _ & Hd & _).
  now apply Hd.
Qed.

End RecordFacts.

(** Whatever the disk test prints, the disk figures of the record of a
    run are the initial 0 and 0, and so are those of the stored
    [metrics.json]: the run looks the rates up under keys the disk parser
    never assigns. *)
Theorem run_disk_always_zero (env : Env) (label : text) (options : Options)
    (st : State)
    (Hmk : makedirs_ok env (path_join (RUNS_DIR env) label) = true) :
  let outcome := run_benchmark env label options st in
  disk (run_metrics (snd outcome))
  = {| rw_read := PInt 0; rw_write := PInt 0 |}
  /\ (open_ok env (metrics_path (path_join (RUNS_DIR env) label)) = true ->
      exists doc,
        fs (snd outcome) !! metrics_path (path_join (RUNS_DIR env) label)
        = Some (MetricsDoc doc)
        /\ disk doc = {| rw_read := PInt 0; rw_write := PInt 0 |}).
Proof.
  intros outcome.
  assert (H : disk (run_metrics (snd outcome))
              = {| rw_read := PInt 0; rw_write := PInt 0 |}).
  { apply (run_record_invariant env
             (fun r => disk r = {| rw_read := PInt 0; rw_write := PInt 0 |}));
      [|reflexivity|exact Hmk].
    repeat split; try (intros; assumption).
    intros lines r _. simpl.
    destruct (parse_disk_run_keys_absent lines) as [-> ->]. reflexivity. }
  split; [exact H|]. intros Hopen. eexists. split; [|exact H].
  now apply run_document.
Qed.

Lemma run_disk_always_zero_witness :
  makedirs_ok Sample.host (path_join (RUNS_DIR Sample.host) Sample.bench1)
  = true
  /\ disk (run_metrics (snd Sample.bench1_run))
     = {| rw_read := PInt 0; rw_write := PInt 0 |}.
Proof.
  split; [reflexivity|].
  exact (proj1 (run_disk_always_zero Sample.host Sample.bench1
                  Sample.no_options Sample.idle eq_refl)).
Defined.

(** A run never changes the name and the date its record starts with,
    never adds a reading to the GPU series of the record, and never drops
    the LLM entry: the record, and the stored document, carry the label,
    the starting time, three empty series and an LLM entry. *)
Theorem run_record_identity (env : Env) (label : text) (options : Options)
    (st : State)
    (Hmk : makedirs_ok env (path_join (RUNS_DIR env) label) = true) :
  let r := run_metrics (snd (run_benchmark env label options st)) in
  r_name r = label
  /\ r_date r = now env
  /\ gpu r = {| g_temperature := []; g_utilization := [];
                g_memory_used := Some [] |}
  /\ is_Some (ollama r).
Proof.
  apply (run_record_invariant env
           (fun r => r_name r = label /\ r_date r = now env
                     /\ gpu r = {| g_temperature := []; g_utilization := [];
                                   g_memory_used := Some [] |}
                     /\ is_Some (ollama r)));
    [|simpl; eauto 6|exact Hmk].
  repeat split; try (intros; simpl; tauto).
  all: intros; unfold on_ollama; simpl;
    repeat match goal with H : _ /\ _ |- _ => destruct H end;
    try assumption.
  match goal with H : is_Some (ollama _) |- _ => destruct H as [o Ho] end.
  rewrite Ho. simpl. eauto.
Qed.

Lemma run_record_identity_witness :
  makedirs_ok Sample.host (path_join (RUNS_DIR Sample.host) Sample.bench1)
  = true
  /\ r_name (run_metrics (snd Sample.bench1_run)) = Sample.bench1
  /\ r_date (run_metrics (snd Sample.bench1_run)) = now Sample.host.
Proof.
  pose proof (run_record_identity Sample.host Sample.bench1
                Sample.no_options Sample.idle eq_refl) as (H1 & H2 & _).
  split; [reflexivity|]. split; [exact H1|exact H2].
Defined.

(** ** What a run writes and whom it reaches *)

Section ReachFacts.
Variable env : Env.





End ReachFacts.




(** ** How a stage is reported *)

Section ReportFacts.
Variable env : Env.

(** The trace grows by events that report no stage. *)
Let calm (a b : State) : Prop :=
  exists evs, log b = log a ++ evs /\ Forall not_report evs.

(** The trace grows by such events, followed by the broadcast of [m] when
    the computation does not raise. *)
Let ends_with {A} (m : message) (c : M A) : Prop :=
  forall st, exists evs,
    Forall not_report evs
    /\ match fst (c st) with
       | Raise => log (snd (c st)) = log st ++ evs
       | Ok _ => exists r, log (snd (c st)) = log st ++ evs ++ [Published m r]
       end.

Lemma calm_same a b : log b = log a -> calm a b.
Proof. intros H. exists []. split; [now rewrite app_nil_r|constructor]. Qed.

Lemma calm_refl a : calm a a.
Proof. now apply calm_same. Qed.

Lemma calm_trans a b c : calm a b -> calm b c -> calm a c.
Proof.
  intros (e1 & H1 & F1) (e2 & H2 & F2). exists (e1 ++ e2).
  split; [now rewrite H2, H1, app_assoc|now apply Forall_app].
Qed.

Lemma calm_publish m :
  not_report (Published m []) -> respects calm (publish env m).
Proof.
  intros Hm st. eexists. split; [reflexivity|].
  constructor; [|constructor]. now destruct m.
Qed.

Lemma calm_write path content : respects calm (write_file env path content).
Proof.
  intros st. unfold write_file. destruct (open_ok env path); [|apply calm_refl].
  exists [Wrote path content]. split; [reflexivity|]. now repeat constructor.
Qed.

Lemma calm_update f : respects calm (update_metrics f).
Proof. intros st. now apply calm_same. Qed.

Ltac calm_step :=
  first
    [ apply (respects_ret calm calm_refl)
    | apply (respects_raise calm calm_refl)
    | apply calm_update | apply calm_write
    | apply calm_publish; exact I
    | apply (respects_bind calm calm_trans); [|intros ?]
    | match goal with
      | |- respects _ (if ?b then _ else _) => destruct b
      | |- respects _ (match ?x with _ => _ end) => destruct x
      end ].

Lemma calm_read_lines label name stdout : forall acc,
  respects calm (read_lines env label name stdout acc).
Proof.
  induction stdout as [|[line|] rest IH]; intros acc; simpl.
  - calm_step.
  - apply (respects_bind calm calm_trans); [calm_step|]. intros _.
    apply (respects_bind calm calm_trans); [|intros _; apply IH].
    unfold live_metrics. repeat calm_step.
  - calm_step.
Qed.

Lemma ends_with_last {A} m (c : M A) :
  respects calm c -> ends_with m (c ≫= fun _ => publish env m).
Proof.
  intros Hc st. rewrite bind_run. destruct (Hc st) as (evs & Hl & Hf).
  exists evs. split; [exact Hf|].
  destruct (c st) as [[a|] st']; simpl in *; [|exact Hl].
  eexists. rewrite Hl, <- app_assoc. reflexivity.
Qed.

Lemma ends_with_bind {A B} m (c : M A) (f : A -> M B) :
  respects calm c -> (forall a, ends_with m (f a)) -> ends_with m (c ≫= f).
Proof.
  intros Hc Hf st. rewrite bind_run. destruct (Hc st) as (e1 & Hl & F1).
  destruct (c st) as [[a|] st']; simpl in *.
  - destruct (Hf a st') as (e2 & F2 & Hshape). exists (e1 ++ e2).
    split; [now apply Forall_app|].
    destruct (fst (f a st')).
    + destruct Hshape as [r Hr]. exists r.
      now rewrite Hr, Hl, <- !app_assoc.
    + now rewrite Hshape, Hl, <- app_assoc.
  - exists e1. split; [exact F1|exact Hl].
Qed.

Lemma stage_body_ends label run_dir name cmd :
  ends_with (MCompleted label name) (stage_body env label run_dir (name, cmd)).
Proof.
  unfold stage_body. destruct (shell env cmd).
  { intros st. exists []. split; [constructor|]. simpl. now rewrite app_nil_r. }
  apply ends_with_bind; [apply calm_read_lines|]. intros output_lines.
  apply ends_with_bind; [apply calm_write|]. intros _.
  unfold after_raw_write. apply ends_with_last.
  destruct (has "Memory test" name); [apply calm_update|].
  destruct (has "Disk test" name); [apply calm_update|].
  destruct (has "Ollama LLM" name); [|calm_step].
  apply (respects_bind calm calm_trans).
  { apply (respects_for_each calm calm_refl calm_trans). intros line _.
    unfold ollama_line. repeat calm_step. }
  intros _. cbv zeta. repeat calm_step.
Qed.

(** A stage is announced, then come events that report nothing, then one
    report. *)
Lemma run_stage_shape label run_dir name cmd st :
  exists evs report,
    log (snd (run_stage env label run_dir (name, cmd) st))
    = log st
      ++ Published (MRunning label name)
           (snd (broadcast (send_ok env) (clients st)))
         :: evs ++ [report]
    /\ Forall not_report evs
    /\ match fst (stage_body env label run_dir (name, cmd)
                    (published env (MRunning label name) st)) with
       | Ok _ => exists r, report = Published (MCompleted label name) r
       | Raise => exists r, report = Published (MFailed label name) r
       end.
Proof.
  unfold run_stage, try_except. rewrite bind_run.
  change (fst (name, cmd)) with name.
  change (publish env (MRunning label name) st)
    with (Ok tt, published env (MRunning label name) st).
  cbv iota beta.
  destruct (stage_body_ends label run_dir name cmd
              (published env (MRunning label name) st)) as (evs & Hf & Hs).
  destruct (stage_body env label run_dir (name, cmd)
              (published env (MRunning label name) st)) as [[[]|] st1];
    simpl in Hs |- *.
  - destruct Hs as [r Hr]. exists evs, (Published (MCompleted label name) r).
    split; [|split; [exact Hf|exists r; reflexivity]].
    rewrite Hr. simpl. rewrite <- !app_assoc. reflexivity.
  - exists evs,
      (Published (MFailed label name)
         (snd (broadcast (send_ok env) (clients st1)))).
    split; [|split; [exact Hf|eexists; reflexivity]].
    rewrite Hs. simpl. rewrite <- !app_assoc. reflexivity.
Qed.

Lemma safe_write path content :
  open_ok env path = true -> safe (write_file env path content).
Proof.
  intros H st. unfold write_file. rewrite H. exists tt. auto.
Qed.

Lemma safe_ollama_line line : safe (ollama_line line).
Proof.
  unfold ollama_line.
  repeat first [ apply safe_ret | apply safe_update
               | match goal with
                 | |- safe (if ?b then _ else _) => destruct b
                 | |- safe (match ?x with _ => _ end) => destruct x
                 end ].
Qed.

Lemma safe_after_raw_write label run_dir name output_lines :
  (forall p, open_ok env p = true) ->
  safe (after_raw_write env label run_dir name output_lines).
Proof.
  intros Hopen. unfold after_raw_write.
  apply yields_bind; [|intros _; apply safe_publish].
  destruct (has "Memory test" name); [apply safe_update|].
  destruct (has "Disk test" name); [apply safe_update|].
  destruct (has "Ollama LLM" name); [|apply safe_ret].
  apply yields_bind; [apply safe_for_each, safe_ollama_line|]. intros _.
  cbv zeta. destruct (nonempty _); [|apply safe_ret].
  apply yields_bind; [apply safe_write, Hopen|]. intros _. apply safe_publish.
Qed.

(** Output that is read to its end and a store that takes every write:
    the body of the stage does not raise. *)
Lemma stage_body_returns label run_dir name cmd raws rc st :
  shell env cmd = Started (map Some raws) rc ->
  (forall p, open_ok env p = true) ->
  fst (stage_body env label run_dir (name, cmd) st) = Ok tt.
Proof.
  intros Hrun Hopen. rewrite (stage_body_unfold env _ _ _ _ _ _ Hrun).
  rewrite bind_run.
  destruct (read_lines_decoded env label name raws [] st)
    as (st1 & evs & -> & _). cbv iota beta. rewrite bind_run.
  unfold write_file. rewrite Hopen. cbv iota beta.
  destruct (safe_after_raw_write label run_dir name ([] ++ map strip raws)
              Hopen (wrote (raw_path run_dir name)
                       (RawText (join [newline] ([] ++ map strip raws))) st1))
    as ([] & H & _).
  exact H.
Qed.

Lemma read_lines_raises label name stdout : forall acc st,
  In None stdout -> fst (read_lines env label name stdout acc st) = Raise.
Proof.
  induction stdout as [|[line|] rest IH]; intros acc st Hin; simpl.
  - destruct Hin.
  - destruct Hin as [Hin|Hin]; [discriminate|].
    rewrite bind_run. simpl. rewrite bind_run.
    destruct (live_metrics_run name (strip line)
                (published env (MLine label name (strip line)) st))
      as (st1 & -> & _).
    now apply IH.
  - reflexivity.
Qed.

(** A command that cannot be launched, or a line that cannot be read:
    the body of the stage raises. *)
Lemma stage_body_raises label run_dir name cmd st :
  shell env cmd = LaunchError
  \/ (exists stdout rc, shell env cmd = Started stdout rc /\ In None stdout) ->
  fst (stage_body env label run_dir (name, cmd) st) = Raise.
Proof.
  intros [H|(stdout & rc & H & Hin)]; unfold stage_body; rewrite H;
    [reflexivity|].
  rewrite bind_run.
  pose proof (read_lines_raises label name stdout [] st Hin) as Hr.
  destruct (read_lines env label name stdout [] st) as [[a|] st1];
    simpl in Hr; [discriminate|reflexivity].
Qed.

End ReportFacts.

(** Every stage is reported exactly once, by the last event of its
    trace: after the announcement come events that report no stage, then
    either the completion or the failure of this stage.  The exit status
    plays no part: a stage whose output is read to its end is reported
    completed whatever its status, provided the store takes the writes;
    a stage that cannot be launched, or one of whose lines cannot be read,
    is reported failed. *)
Theorem stage_reported_once (env : Env) (label run_dir name cmd : text)
    (st : State) :
  let trace := log (snd (run_stage env label run_dir (name, cmd) st)) in
  (exists evs report,
     trace = log st
             ++ Published (MRunning label name)
                  (snd (broadcast (send_ok env) (clients st)))
                :: evs ++ [report]
     /\ Forall not_report evs
     /\ exists r, report = Published (MCompleted label name) r
                  \/ report = Published (MFailed label name) r)
  /\ (forall raws rc,
        shell env cmd = Started (map Some raws) rc ->
        (forall p, open_ok env p = true) ->
        exists before r,
          trace = before ++ [Published (MCompleted label name) r])
  /\ (shell env cmd = LaunchError
      \/ (exists stdout rc,
            shell env cmd = Started stdout rc /\ In None stdout) ->
      exists before r, trace = before ++ [Published (MFailed label name) r]).
Proof.
  intros trace. subst trace.
  destruct (run_stage_shape env label run_dir name cmd st)
    as (evs & report & Hlog & Hcalm & Hrep).
  split; [|split].
  - exists evs, report. split; [exact Hlog|]. split; [exact Hcalm|].
    destruct (fst (stage_body _ _ _ _ _)); destruct Hrep as [r Hr]; eauto.
  - intros raws rc Hrun Hopen.
    rewrite (stage_body_returns env label run_dir name cmd raws rc _ Hrun Hopen)
      in Hrep.
    destruct Hrep as [r ->]. rewrite Hlog.
    eexists (_ ++ _ :: evs), r. now rewrite <- app_assoc.
  - intros Hbad.
    rewrite (stage_body_raises env label run_dir name cmd _ Hbad) in Hrep.
    destruct Hrep as [r ->]. rewrite Hlog.
    eexists (_ ++ _ :: evs), r. now rewrite <- app_assoc.
Qed.

(** ** More on text *)

Section MoreTextFacts.







Lemma split_on_sep sep a b :
  forallb (fun c => negb (char_eqb c sep)) a = true ->
  split_on sep (a ++ sep :: b) = a :: split_on sep b.
Proof.
  induction a as [|c a IH]; simpl.
  - intros _. change (char_eqb sep sep) with (Ascii.eqb sep sep).
    now rewrite Ascii.eqb_refl.
  - intros H. apply andb_true_iff in H as [Hc Ha].
    destruct (char_eqb c sep); [discriminate|]. now rewrite (IH Ha).
Qed.

Lemma split_on_none sep a :
  forallb (fun c => negb (char_eqb c sep)) a = true -> split_on sep a = [a].
Proof.
  induction a as [|c a IH]; simpl; [reflexivity|].
  intros H. apply andb_true_iff in H as [Hc Ha].
  destruct (char_eqb c sep); [discriminate|]. now rewrite (IH Ha).
Qed.

(** Lines without a newline come back from the text they were joined
    into. *)
Lemma split_join_lines l lines :
  Forall (fun x => forallb (fun c => negb (char_eqb c newline)) x = true)
         (l :: lines) ->
  split_on newline (join [newline] (l :: lines)) = l :: lines.
Proof.
  revert l. induction lines as [|l2 ls IH]; intros l H.
  - simpl. apply split_on_none. now inversion H.
  - inversion H as [|? ? Hl Hrest]; subst.
    change (join [newline] (l :: l2 :: ls))
      with (l ++ newline :: join [newline] (l2 :: ls)).
    rewrite (split_on_sep newline l _ Hl). f_equal. now apply IH.
Qed.

End MoreTextFacts.

(** ** More on the query interface *)

Section QueryFacts.
Variable env : Env.

Lemma parse_memory_rejoined lines :
  Forall (fun x => forallb (fun c => negb (char_eqb c newline)) x = true)
         lines ->
  parse_sysbench_memory (split_on newline (join [newline] lines))
  = parse_sysbench_memory lines.
Proof.
  destruct lines as [|l ls]; [reflexivity|].
  intros H. now rewrite split_join_lines.
Qed.

Lemma scan_memory_file store run_path run_info content :
  store !! path_join run_path (txt "Memory_test.txt") = Some (RawText content) ->
  scan_file store run_path run_info (txt "Memory_test.txt")
  = let metrics := parse_sysbench_memory (split_on newline content) in
    set_memory
      {| rw_read := default (PInt 0) (metrics !! "read_mib_sec");
         rw_write := default (PInt 0) (metrics !! "write_mib_sec") |}
      run_info.
Proof.
  intros H. unfold scan_file.
  change (endswith (txt ".txt") (txt "Memory_test.txt")) with true.
  cbv iota. rewrite H. reflexivity.
Qed.

Lemma scan_disk_file store run_path run_info content :
  store !! path_join run_path (txt "Disk_test.txt") = Some (RawText content) ->
  scan_file store run_path run_info (txt "Disk_test.txt")
  = let metrics := parse_sysbench_disk (split_on newline content) in
    set_disk
      {| rw_read := default (PInt 0) (metrics !! "disk_read_mib_s");
         rw_write := default (PInt 0) (metrics !! "disk_write_mib_s") |}
      run_info.
Proof.
  intros H. unfold scan_file.
  change (endswith (txt ".txt") (txt "Disk_test.txt")) with true.
  cbv iota. rewrite H. reflexivity.
Qed.

Lemma scan_other_file store run_path run_info filename :
  endswith (txt ".txt") filename = false ->
  scan_file store run_path run_info filename = run_info.
Proof. intros H. unfold scan_file. now rewrite H. Qed.

Lemma fold_scan_other store run_path names : forall run_info,
  (forall f, In f names -> endswith (txt ".txt") f = false) ->
  fold_left (scan_file store run_path) names run_info = run_info.
Proof.
  induction names as [|f fs IH]; intros run_info H; simpl; [reflexivity|].
  rewrite scan_other_file by (apply H; now left).
  apply IH. intros g Hg. apply H. now right.
Qed.

(** [text_leb] compares any two texts one way or the other. *)
Lemma text_leb_total a : forall b,
  text_leb a b = false -> text_leb b a = true.
Proof.
  induction a as [|x a IH]; intros [|y b]; simpl; try discriminate.
  - reflexivity.
  - destruct (code x <? code y) eqn:Hxy; [discriminate|].
    destruct (code y <? code x) eqn:Hyx; [reflexivity|]. apply IH.
Qed.

Lemma insert_by_date_head r l :
  match insert_by_date r l with
  | [] => False
  | h :: _ => h = r \/ exists t, l = h :: t
  end.
Proof.
  destruct l as [|y l]; simpl; [now left|].
  destruct (text_leb (r_date r) (r_date y)); [right; eauto|now left].
Qed.

Lemma insert_by_date_sorted r l :
  newest_first l -> newest_first (insert_by_date r l).
Proof.
  induction l as [|y l IH]; intros Hl; [exact I|].
  simpl. destruct (text_leb (r_date r) (r_date y)) eqn:E.
  - pose proof (insert_by_date_head r l) as Hh.
    assert (Hrest : newest_first l) by (destruct l; [exact I|apply Hl]).
    specialize (IH Hrest).
    destruct (insert_by_date r l) as [|h t] eqn:Ei; [destruct Hh|].
    split; [|exact IH].
    destruct Hh as [->|[t' ->]]; [exact E|apply Hl].
  - split; [|exact Hl]. now apply text_leb_total.
Qed.

Lemma insert_by_date_perm r l : Permutation (insert_by_date r l) (r :: l).
Proof.
  induction l as [|y l IH]; simpl; [reflexivity|].
  destruct (text_leb (r_date r) (r_date y)); [|reflexivity].
  rewrite IH. apply perm_swap.
Qed.

Lemma sorted_by_date_from runs : forall acc,
  newest_first acc ->
  newest_first (fold_left (fun acc r => insert_by_date r acc) runs acc)
  /\ Permutation (fold_left (fun acc r => insert_by_date r acc) runs acc)
                 (runs ++ acc).
Proof.
  induction runs as [|r rs IH]; intros acc Hacc; simpl; [split; auto|].
  destruct (IH (insert_by_date r acc) (insert_by_date_sorted r acc Hacc))
    as [Hs Hp].
  split; [exact Hs|]. rewrite Hp, insert_by_date_perm.
  symmetry. apply Permutation_middle.
Qed.

Lemma flat_map_filter {A B} (p : A -> bool) (f : A -> B) l :
  flat_map (fun x => if p x then [f x] else []) l = map f (List.filter p l).
Proof.
  induction l as [|x l IH]; simpl; [reflexivity|].
  destruct (p x); simpl; now rewrite IH.
Qed.

End QueryFacts.

(** What [get_runs] reads back from the raw memory file of a run is what
    the run stored in its record: for captured lines none of which holds
    a line feed or a carriage return (reading a file in text mode leaves
    such lines as they were written), scanning the file
    [Memory_test.txt] that holds them joined gives the memory figures
    the stage [Memory test] puts in [run_metrics] from the same lines. *)
Theorem memory_survives_reload (env : Env) (store : gmap text node)
    (label run_dir : text) (run_info : RunRecord) (lines : list text)
    (st : State)
    (Hlines : Forall (fun x =>
                forallb (fun c => negb (char_eqb c newline)
                                  && negb (char_eqb c "013")) x = true)
                lines)
    (Hfile : store !! raw_path run_dir (txt "Memory test")
             = Some (RawText (join [newline] lines))) :
  memory (scan_file store run_dir run_info (txt "Memory_test.txt"))
  = memory (run_metrics
              (snd (after_raw_write env label run_dir (txt "Memory test")
                      lines st))).
Proof.
  rewrite (scan_memory_file store run_dir run_info _ Hfile). cbv zeta.
  rewrite parse_memory_rejoined; [reflexivity|].
  eapply Forall_impl; [exact Hlines|]. intros x Hx. simpl in *.
  rewrite forallb_forall in *. intros c Hc. specialize (Hx c Hc).
  now apply andb_true_iff in Hx as [Hx _].
Qed.

Lemma memory_survives_reload_witness :
  memory (scan_file
            (<[txt "/srv/runs/bench1/Memory_test.txt"
               := RawText (txt "10240.00 MiB transferred (8541.30 MiB/sec)")]>
               ∅)
            Sample.bench1_dir (initial_metrics Sample.host Sample.bench1)
            (txt "Memory_test.txt"))
  = {| rw_read := PFloat (85413 # 10); rw_write := PInt 0 |}.
Proof.
  rewrite (memory_survives_reload Sample.host _ Sample.bench1
             Sample.bench1_dir _
             [txt "10240.00 MiB transferred (8541.30 MiB/sec)"] Sample.idle).
  - vm_compute. reflexivity.
  - repeat constructor.
  - vm_compute. reflexivity.
Defined.

(** Whatever a disk test file holds, scanning it sets the disk figures
    of the listing to 0 and 0, a stored document notwithstanding. *)
Theorem get_runs_disk_always_zero (store : gmap text node)
    (run_path content : text) (run_info : RunRecord)
    (Hfile : store !! path_join run_path (txt "Disk_test.txt")
             = Some (RawText content)) :
  disk (scan_file store run_path run_info (txt "Disk_test.txt"))
  = {| rw_read := PInt 0; rw_write := PInt 0 |}.
Proof.
  rewrite (scan_disk_file store run_path run_info _ Hfile). cbv zeta. simpl.
  destruct (parse_disk_run_keys_absent (split_on newline content)) as [-> ->].
  reflexivity.
Qed.

Lemma get_runs_disk_always_zero_witness :
  disk (scan_file
          (<[txt "/srv/runs/bench1/Disk_test.txt"
             := RawText (txt "read, MiB/s:                  1234.56")]> ∅)
          Sample.bench1_dir
          (set_disk {| rw_read := PFloat 5; rw_write := PFloat 7 |}
             (initial_metrics Sample.host Sample.bench1))
          (txt "Disk_test.txt"))
  = {| rw_read := PInt 0; rw_write := PInt 0 |}.
Proof.
  refine (get_runs_disk_always_zero _ Sample.bench1_dir
            (txt "read, MiB/s:                  1234.56") _ _).
  vm_compute. reflexivity.
Defined.

(** A run directory that holds a document and no file whose name ends in
    [.txt] is listed with exactly the fields of the document. *)
Theorem run_info_is_document (env : Env) (store : gmap text node)
    (run_name : text) (doc : RunRecord)
    (Hdoc : store !! path_join (path_join (RUNS_DIR env) run_name)
                       (txt "metrics.json")
            = Some (MetricsDoc doc))
    (Hnames : forall f,
        In f (listdir store (path_join (RUNS_DIR env) run_name)) ->
        endswith (txt ".txt") f = false) :
  run_info_of env store run_name = doc.
Proof.
  unfold run_info_of. cbv zeta. rewrite fold_scan_other by exact Hnames.
  unfold load_json. now rewrite Hdoc.
Qed.

Lemma run_info_is_document_witness :
  run_info_of Sample.host
    (<[Sample.bench1_metrics
       := MetricsDoc (initial_metrics Sample.host Sample.bench1)]>
       (<[Sample.bench1_dir := Dir]> ∅))
    Sample.bench1
  = initial_metrics Sample.host Sample.bench1.
Proof.
  apply (run_info_is_document Sample.host).
  - vm_compute. reflexivity.
  - vm_compute. intros f [<-|[]]. reflexivity.
Defined.

(** [get_runs] answers one entry for each run directory that [index]
    lists, and orders them by date, newest first. *)
Theorem get_runs_newest_first (env : Env) (store : gmap text node) :
  newest_first (get_runs env store)
  /\ Permutation (get_runs env store)
                 (map (run_info_of env store) (index env store)).
Proof.
  unfold get_runs, sorted_by_date, index. cbv zeta.
  rewrite flat_map_filter.
  destruct (sorted_by_date_from
              (map (run_info_of env store)
                 (List.filter
                    (fun d => isdir store (path_join (RUNS_DIR env) d))
                    (listdir store (RUNS_DIR env)))) [] I) as [Hs Hp].
  split; [exact Hs|]. now rewrite Hp, app_nil_r.
Qed.

(** ** The endpoints that delete runs and serve the LLM response *)

Section ApiFacts.
Variable env : Env.
Variable fails : text -> option (text -> bool).

Lemma under_refl root : under root root = true.
Proof.
  unfold under. apply orb_true_iff. left. now apply text_eqb_eq.
Qed.

Lemma startswith_longer root : startswith (root ++ txt "/") root = false.
Proof.
  destruct (startswith (root ++ txt "/") root) eqn:E; [|reflexivity].
  apply startswith_app in E as [b Hb].
  apply (f_equal (@length ascii)) in Hb. rewrite !length_app in Hb.
  simpl in Hb. lia.
Qed.

Lemma under_child root p :
  startswith (root ++ txt "/") p = true -> under root p = true.
Proof. intros H. unfold under. rewrite H. apply orb_true_r. Qed.

Lemma prune_lookup root kept store p :
  prune root kept store !! p
  = match store !! p with
    | Some v => if under root p && negb (kept p) then None else Some v
    | None => None
    end.
Proof.
  unfold prune. apply option_eq. intros v.
  rewrite map_lookup_filter_Some. simpl.
  destruct (store !! p) as [w|]; [|split; [intros [? _]|]; discriminate].
  destruct (under root p), (kept p); simpl; split;
    try (intros [H _]; exact H); try discriminate;
    try (intros H; split; [exact H|auto]).
  intros [_ [H|H]]; discriminate.
Qed.

Lemma prune_outside root kept store p :
  under root p = false -> prune root kept store !! p = store !! p.
Proof.
  intros H. rewrite prune_lookup, H. now destruct (store !! p).
Qed.

Lemma prune_all_inside root store p :
  under root p = true -> prune root (fun _ => false) store !! p = None.
Proof.
  intros H. rewrite prune_lookup, H. now destruct (store !! p).
Qed.


Lemma rmtree_done root store store' :
  rmtree fails root store = (Ok tt, store') ->
  store' = prune root (fun _ => false) store.
Proof.
  unfold rmtree.
  destruct (store !! root) as [[| |]|]; try discriminate;
    (destruct (exists_path store root); [|discriminate]);
    destruct (fails root); try discriminate; now intros [= <-].
Qed.

Lemma existsb_none {A} (f : A -> bool) l :
  (forall x, In x l -> f x = false) -> existsb f l = false.
Proof.
  intros H. destruct (existsb f l) eqn:E; [|reflexivity].
  apply existsb_exists in E as (x & Hx & Hf). rewrite (H x Hx) in Hf.
  discriminate.
Qed.

Lemma flat_map_none {A B} (f : A -> list B) l :
  (forall x, In x l -> f x = []) -> flat_map f l = [].
Proof.
  induction l as [|x l IH]; intros H; simpl; [reflexivity|].
  rewrite (H x) by now left. apply IH. intros y Hy. apply H. now right.
Qed.

Lemma in_map_to_list (store : gmap text node) entry :
  In entry (map_to_list store) -> store !! fst entry = Some (snd entry).
Proof.
  intros H. apply list_elem_of_In in H. destruct entry as [k v].
  now apply elem_of_map_to_list in H.
Qed.

(** Once everything below a path is gone, the path does not exist. *)
Lemma pruned_is_gone root store :
  exists_path (prune root (fun _ => false) store) root = false.
Proof.
  unfold exists_path. rewrite prune_all_inside by apply under_refl.
  unfold has_child. apply existsb_none. intros entry Hin.
  apply in_map_to_list in Hin.
  destruct (startswith (root ++ txt "/") (fst entry)) eqn:E; [|reflexivity].
  rewrite prune_all_inside in Hin by now apply under_child.
  discriminate.
Qed.

Lemma listdir_none store dir :
  (forall p v, store !! p = Some v -> startswith (dir ++ txt "/") p = false) ->
  listdir store dir = [].
Proof.
  intros H. unfold listdir. apply flat_map_none. intros entry Hin.
  apply in_map_to_list in Hin. cbv zeta. now rewrite (H _ _ Hin).
Qed.




End ApiFacts.



(** When [delete_run] answers success, nothing is left at or below the
    directory of the run, and asking again for the same run answers
    "Run not found" and changes nothing. *)
Theorem delete_run_then_not_found (env : Env)
    (fails : text -> option (text -> bool)) (run_name : text)
    (store : gmap text node)
    (Hok : fst (delete_run env fails run_name store) = Status200) :
  let store' := snd (delete_run env fails run_name store) in
  (forall p, under (path_join (RUNS_DIR env) run_name) p = true ->
             store' !! p = None)
  /\ delete_run env fails run_name store' = (Status404, store').
Proof.
  cbv zeta.
  assert (Hs : snd (delete_run env fails run_name store)
               = prune (path_join (RUNS_DIR env) run_name) (fun _ => false)
                       store).
  { revert Hok. unfold delete_run. cbv zeta.
    destruct (exists_path store (path_join (RUNS_DIR env) run_name));
      [|discriminate].
    destruct (rmtree fails (path_join (RUNS_DIR env) run_name) store)
      as [[[]|] store'] eqn:E; [|discriminate].
    intros _. now apply rmtree_done in E. }
  rewrite Hs. split.
  - intros p Hp. now apply prune_all_inside.
  - unfold delete_run. cbv zeta. now rewrite pruned_is_gone.
Qed.

Lemma delete_run_then_not_found_witness :
  delete_run Sample.host (fun _ => None) (txt "bench1")
    (snd (delete_run Sample.host (fun _ => None) (txt "bench1")
            (<[txt "/srv/runs/bench1/metrics.json"
               := MetricsDoc (initial_metrics Sample.host Sample.bench1)]>
               (<[txt "/srv/runs/bench1" := Dir]> ∅))))
  = (Status404,
     snd (delete_run Sample.host (fun _ => None) (txt "bench1")
            (<[txt "/srv/runs/bench1/metrics.json"
               := MetricsDoc (initial_metrics Sample.host Sample.bench1)]>
               (<[txt "/srv/runs/bench1" := Dir]> ∅)))).
Proof.
  refine (proj2 (delete_run_then_not_found Sample.host (fun _ => None)
                   (txt "bench1") _ _)).
  vm_compute. reflexivity.
Defined.

(** When [delete_all_runs] answers success, the runs directory is an
    empty directory: the listing and the index are empty, and what lies
    outside the runs directory is as it was. *)
Theorem delete_all_runs_resets (env : Env)
    (fails : text -> option (text -> bool)) (store : gmap text node)
    (Hok : fst (delete_all_runs env fails store) = Status200) :
  let store' := snd (delete_all_runs env fails store) in
  store' !! RUNS_DIR env = Some Dir
  /\ get_runs env store' = []
  /\ index env store' = []
  /\ (forall p, under (RUNS_DIR env) p = false -> store' !! p = store !! p).
Proof.
  cbv zeta. revert Hok. unfold delete_all_runs.
  destruct (exists_path store (RUNS_DIR env)); [|discriminate].
  destruct (rmtree fails (RUNS_DIR env) store) as [[[]|] store'] eqn:E;
    [|discriminate].
  destruct (makedirs_ok env (RUNS_DIR env)); [|discriminate].
  intros _. simpl. apply rmtree_done in E. subst store'.
  assert (Hlist : listdir (<[RUNS_DIR env := Dir]>
                             (prune (RUNS_DIR env) (fun _ => false) store))
                          (RUNS_DIR env) = []).
  { apply listdir_none. intros p v Hp.
    destruct (decide (p = RUNS_DIR env)) as [->|Hne].
    - apply startswith_longer.
    - rewrite lookup_insert_ne in Hp by congruence.
      destruct (startswith (RUNS_DIR env ++ txt "/") p) eqn:Es; [|reflexivity].
      rewrite prune_all_inside in Hp by now apply under_child.
      discriminate. }
  split; [apply lookup_insert_eq|].
  split; [unfold get_runs; cbv zeta; now rewrite Hlist|].
  split; [unfold index; now rewrite Hlist|].
  intros p Hp. rewrite lookup_insert_ne.
  - now apply prune_outside.
  - intros <-. rewrite under_refl in Hp. discriminate.
Qed.

Lemma delete_all_runs_resets_witness :
  get_runs Sample.host
    (snd (delete_all_runs Sample.host (fun _ => None)
            (<[txt "/srv/runs/bench1" := Dir]>
               (<[txt "/srv/runs" := Dir]> ∅)))) = [].
Proof.
  refine (proj1 (proj2 (delete_all_runs_resets Sample.host (fun _ => None)
                          _ _))).
  vm_compute. reflexivity.
Defined.



(** ** Summary statistics and the GPU log *)

Section StatsFacts.

Lemma Qleb_false a b : Qleb a b = false -> (b <= a)%Q.
Proof.
  unfold Qleb. intros H. apply Qlt_le_weak, Qnot_le_lt. intros Hle.
  apply Qle_bool_iff in Hle. congruence.
Qed.

Lemma Qleb_true a b : Qleb a b = true -> (a <= b)%Q.
Proof. unfold Qleb. apply Qle_bool_iff. Qed.

Lemma insert_sorted_head x l :
  match insert_sorted x l with
  | [] => False
  | h :: _ => h = x \/ exists t, l = h :: t
  end.
Proof.
  destruct l as [|y l]; simpl; [now left|].
  destruct (Qleb y x); [right; eauto|now left].
Qed.

Lemma ascending_tail a l : ascending (a :: l) -> ascending l.
Proof. destruct l; [intros; exact I|intros [_ H]; exact H]. Qed.

Lemma insert_sorted_ascending x l :
  ascending l -> ascending (insert_sorted x l).
Proof.
  induction l as [|y l IH]; intros Hl; [exact I|].
  simpl. destruct (Qleb y x) eqn:E.
  - pose proof (insert_sorted_head x l) as Hh.
    specialize (IH (ascending_tail _ _ Hl)).
    destruct (insert_sorted x l) as [|h t]; [destruct Hh|].
    split; [|exact IH].
    destruct Hh as [->|[t' ->]]; [now apply Qleb_true|apply Hl].
  - split; [now apply Qleb_false|exact Hl].
Qed.

Lemma insert_sorted_perm x l : Permutation (insert_sorted x l) (x :: l).
Proof.
  induction l as [|y l IH]; simpl; [reflexivity|].
  destruct (Qleb y x); [|reflexivity].
  rewrite IH. apply perm_swap.
Qed.

Lemma sorted_from l : forall acc,
  ascending acc ->
  ascending (fold_left (fun acc x => insert_sorted x acc) l acc)
  /\ Permutation (fold_left (fun acc x => insert_sorted x acc) l acc)
                 (l ++ acc).
Proof.
  induction l as [|x l IH]; intros acc Hacc; simpl; [split; auto|].
  destruct (IH (insert_sorted x acc) (insert_sorted_ascending x acc Hacc))
    as [Hs Hp].
  split; [exact Hs|]. rewrite Hp, insert_sorted_perm.
  symmetry. apply Permutation_middle.
Qed.

Lemma sorted_ascending l : ascending (sorted l).
Proof. exact (proj1 (sorted_from l [] I)). Qed.

Lemma sorted_perm l : Permutation (sorted l) l.
Proof.
  pose proof (proj2 (sorted_from l [] I)) as H.
  now rewrite app_nil_r in H.
Qed.

Lemma ascending_head a l : ascending (a :: l) -> Forall (Qle a) l.
Proof.
  revert a. induction l as [|b l IH]; intros a H; [constructor|].
  destruct H as [Hab Hl]. constructor; [exact Hab|].
  eapply Forall_impl; [apply IH, Hl|].
  intros x Hx. simpl in Hx. now apply Qle_trans with b.
Qed.

Lemma ascending_nth l : forall i j,
  ascending l -> i <= j -> j < length l -> (nth_q l i <= nth_q l j)%Q.
Proof.
  induction l as [|a l IH]; intros i j Hl Hij Hj; [simpl in Hj; lia|].
  destruct j as [|j].
  - assert (i = 0) as -> by lia. apply Qle_refl.
  - destruct i as [|i].
    + unfold nth_q. simpl in Hj.
      destruct (lookup_lt_is_Some_2 l j ltac:(lia)) as [x Hx].
      change ((a :: l) !! 0) with (Some a).
      change ((a :: l) !! S j) with (l !! j). rewrite Hx. simpl.
      pose proof (ascending_head a l Hl) as Hall.
      rewrite Forall_forall in Hall. apply Hall.
      now apply list_elem_of_lookup_2 in Hx.
    + simpl in Hj.
      apply (IH i j (ascending_tail _ _ Hl)); lia.
Qed.

Lemma qmin_le a b : (qmin a b <= a)%Q /\ (qmin a b <= b)%Q.
Proof.
  unfold qmin. destruct (Qleb b a) eqn:E.
  - split; [now apply Qleb_true|apply Qle_refl].
  - split; [apply Qle_refl|now apply Qleb_false].
Qed.

Lemma qmax_ge a b : (a <= qmax a b)%Q /\ (b <= qmax a b)%Q.
Proof.
  unfold qmax. destruct (Qleb a b) eqn:E.
  - split; [now apply Qleb_true|apply Qle_refl].
  - split; [apply Qle_refl|now apply Qleb_false].
Qed.

Lemma fold_qmin_le l : forall acc,
  (fold_left qmin l acc <= acc)%Q
  /\ (forall x, In x l -> (fold_left qmin l acc <= x)%Q).
Proof.
  induction l as [|y l IH]; intros acc; simpl.
  - split; [apply Qle_refl|tauto].
  - destruct (IH (qmin acc y)) as [Ha Hl].
    destruct (qmin_le acc y) as [H1 H2]. split.
    + now apply Qle_trans with (qmin acc y).
    + intros x [<-|Hx]; [now apply Qle_trans with (qmin acc y)|auto].
Qed.

Lemma fold_qmax_ge l : forall acc,
  (acc <= fold_left qmax l acc)%Q
  /\ (forall x, In x l -> (x <= fold_left qmax l acc)%Q).
Proof.
  induction l as [|y l IH]; intros acc; simpl.
  - split; [apply Qle_refl|tauto].
  - destruct (IH (qmax acc y)) as [Ha Hl].
    destruct (qmax_ge acc y) as [H1 H2]. split.
    + now apply Qle_trans with (qmax acc y).
    + intros x [<-|Hx]; [now apply Qle_trans with (qmax acc y)|auto].
Qed.

Lemma fold_qmax_in l : forall acc,
  fold_left qmax l acc = acc \/ In (fold_left qmax l acc) l.
Proof.
  induction l as [|y l IH]; intros acc; simpl; [now left|].
  destruct (IH (qmax acc y)) as [H|H]; [|now right; right].
  rewrite H. unfold qmax. destruct (Qleb acc y); [right|]; now left.
Qed.

Lemma list_min_le l x : In x l -> (list_min l <= x)%Q.
Proof.
  destruct l as [|a l]; [intros []|]. simpl.
  destruct (fold_qmin_le l a) as [Ha Hl].
  intros [<-|Hx]; auto.
Qed.

Lemma list_max_ge l x : In x l -> (x <= list_max l)%Q.
Proof.
  destruct l as [|a l]; [intros []|]. simpl.
  destruct (fold_qmax_ge l a) as [Ha Hl].
  intros [<-|Hx]; auto.
Qed.

Lemma list_max_in a l : In (list_max (a :: l)) (a :: l).
Proof.
  simpl. destruct (fold_qmax_in l a) as [->|H]; [now left|now right].
Qed.

Lemma nth_sorted_in l i : i < length l -> In (nth_q (sorted l) i) l.
Proof.
  intros Hi. pose proof (sorted_perm l) as Hp.
  assert (Hlen : length (sorted l) = length l)
    by now apply Permutation_length.
  destruct (lookup_lt_is_Some_2 (sorted l) i ltac:(lia)) as [x Hx].
  unfold nth_q. rewrite Hx. simpl.
  apply (Permutation_in _ Hp), list_elem_of_In.
  now apply list_elem_of_lookup_2 in Hx.
Qed.

Lemma int_times_below count percent :
  0 < count -> (0 <= percent < 100)%Z -> int_times count percent < count.
Proof.
  intros Hc Hp. unfold int_times.
  assert (Z.of_nat count * percent / 100 < Z.of_nat count)%Z.
  { apply Z.div_lt_upper_bound; nia. }
  assert (0 <= Z.of_nat count * percent / 100)%Z
    by (apply Z.div_pos; nia).
  lia.
Qed.

Lemma int_times_mono count p q :
  (0 <= p <= q)%Z -> int_times count p <= int_times count q.
Proof.
  intros H. unfold int_times. apply Z2Nat.inj_le.
  - apply Z.div_pos; nia.
  - apply Z.div_pos; nia.
  - apply Z.div_le_mono; nia.
Qed.

Lemma gpu_step_shape metrics line :
  let after := gpu_step metrics line in
  (length (memory_used_readings metrics)
   = length (memory_total_readings metrics) ->
   length (memory_used_readings after)
   = length (memory_total_readings after))
  /\ (length (timestamps metrics) <= length (temperature_readings metrics) ->
      length (timestamps after) <= length (temperature_readings after))
  /\ power_readings after = power_readings metrics.
Proof.
  cbv zeta. unfold gpu_step.
  destruct (has "Temperature:" line);
    [destruct (search re_temperature line);
     [destruct (search re_bracketed line)|]|];
    (destruct (has "Utilization:" line);
     [destruct (search re_utilization line)|]);
    (destruct (has "GPU Memory:" line);
     [destruct (search re_gpu_memory line)|]);
    cbn [memory_used_readings memory_total_readings timestamps
         temperature_readings power_readings];
    rewrite ?length_app; simpl; repeat split; lia.
Qed.

Lemma gpu_fold_shape lines : forall metrics,
  length (memory_used_readings metrics)
  = length (memory_total_readings metrics) ->
  length (timestamps metrics) <= length (temperature_readings metrics) ->
  power_readings metrics = [] ->
  let after := fold_left gpu_step lines metrics in
  length (memory_used_readings after) = length (memory_total_readings after)
  /\ length (timestamps after) <= length (temperature_readings after)
  /\ power_readings after = [].
Proof.
  induction lines as [|l ls IH]; intros metrics H1 H2 H3; [now cbv zeta|].
  simpl. destruct (gpu_step_shape metrics l) as (G1 & G2 & G3).
  apply IH; [auto|auto|congruence].
Qed.

Lemma summary_count values s :
  calculate_summary_stats values = Some s -> s_count s = length values.
Proof.
  destruct values; [discriminate|]. unfold calculate_summary_stats.
  intros [= <-]. reflexivity.
Qed.

Lemma summary_none values :
  calculate_summary_stats values = None <-> values = [].
Proof. destruct values; simpl; split; congruence. Qed.

End StatsFacts.

(** The summary of a non-empty list of readings counts the readings,
    brackets every reading between its minimum and its maximum, and has
    its two percentiles in order between them. *)
Theorem summary_stats_ordered (values : list Q) (s : summary)
    (Hs : calculate_summary_stats values = Some s) :
  s_count s = length values
  /\ (forall v, In v values -> (s_min s <= v)%Q /\ (v <= s_max s)%Q)
  /\ (s_min s <= s_p95 s)%Q
  /\ (s_p95 s <= s_p99 s)%Q
  /\ (s_p99 s <= s_max s)%Q.
Proof.
  split; [now apply summary_count|].
  destruct values as [|a l]; [discriminate|].
  remember (a :: l) as values eqn:Hv.
  assert (Hpos : 0 < length values) by (subst values; simpl; lia).
  assert (Hmax : In (list_max values) values)
    by (subst values; apply list_max_in).
  assert (Hs' : s = {|
      s_count := length values;
      s_min := list_min values;
      s_max := list_max values;
      s_mean := s_mean s;
      s_median := s_median s;
      s_p95 := if 20 <? length values
               then nth_q (sorted values) (int_times (length values) 95)
               else list_max values;
      s_p99 := if 100 <? length values
               then nth_q (sorted values) (int_times (length values) 99)
               else list_max values |}).
  { subst values. unfold calculate_summary_stats in Hs.
    injection Hs as <-. reflexivity. }
  rewrite Hs'. cbn [s_min s_max s_p95 s_p99]. clear Hs Hs' Hv.
  assert (H95 : In (nth_q (sorted values) (int_times (length values) 95))
                   values)
    by (apply nth_sorted_in, int_times_below; lia).
  assert (H99 : In (nth_q (sorted values) (int_times (length values) 99))
                   values)
    by (apply nth_sorted_in, int_times_below; lia).
  split; [intros v Hin; split;
          [now apply list_min_le|now apply list_max_ge]|].
  split; [destruct (20 <? length values); now apply list_min_le|].
  split; [|destruct (100 <? length values);
           [now apply list_max_ge|apply Qle_refl]].
  destruct (100 <? length values) eqn:E100.
  - assert (E20 : (20 <? length values) = true)
      by (apply Nat.ltb_lt; apply Nat.ltb_lt in E100; lia).
    rewrite E20.
    apply ascending_nth; [apply sorted_ascending| |].
    + apply int_times_mono. lia.
    + rewrite (Permutation_length (sorted_perm values)).
      apply int_times_below; lia.
  - destruct (20 <? length values);
      [now apply list_max_ge|apply Qle_refl].
Qed.

Lemma summary_stats_ordered_witness :
  calculate_summary_stats [61; 58; 64]%Q
  = Some {| s_count := 3; s_min := 58; s_max := 64; s_mean := 61;
            s_median := 61; s_p95 := 64; s_p99 := 64 |}
  /\ (58 <= 64)%Q.
Proof.
  split; [vm_compute; reflexivity|].
  refine (proj1 (proj2 (proj2
            (summary_stats_ordered [61; 58; 64]%Q
               {| s_count := 3; s_min := 58; s_max := 64; s_mean := 61;
                  s_median := 61; s_p95 := 64; s_p99 := 64 |} _)))).
  vm_compute. reflexivity.
Defined.

(** Whatever the lines of a GPU log, the record [parse_gpu_metrics]
    returns has as many memory-total readings as memory-used readings, no
    more timestamps than temperature readings and no power reading; each
    summary is absent exactly when its readings are, and a summary that
    is present counts its readings. *)
Theorem parse_gpu_metrics_shape (log_lines : list text) :
  let metrics := parse_gpu_metrics log_lines in
  length (memory_used_readings metrics)
  = length (memory_total_readings metrics)
  /\ length (timestamps metrics) <= length (temperature_readings metrics)
  /\ power_readings metrics = []
  /\ (temperature_summary metrics = None
      <-> temperature_readings metrics = [])
  /\ (utilization_summary metrics = None
      <-> utilization_readings metrics = [])
  /\ (memory_summary metrics = None <-> memory_used_readings metrics = [])
  /\ (forall s, temperature_summary metrics = Some s ->
                s_count s = length (temperature_readings metrics))
  /\ (forall s, utilization_summary metrics = Some s ->
                s_count s = length (utilization_readings metrics))
  /\ (forall s, memory_summary metrics = Some s ->
                s_count s = length (memory_used_readings metrics)).
Proof.
  cbv zeta. unfold parse_gpu_metrics, gpu_summarise.
  cbn [memory_used_readings memory_total_readings timestamps
       temperature_readings utilization_readings power_readings
       temperature_summary utilization_summary memory_summary].
  destruct (gpu_fold_shape log_lines gpu_log_empty eq_refl (Nat.le_refl _)
              eq_refl) as (H1 & H2 & H3).
  repeat split; try assumption;
    try (apply summary_none); try (apply summary_count; assumption);
    intros H; now apply summary_none.
Qed.

(** ** The two GPU readers, the model list and the command *)

Section ReaderFacts.

Lemma reading_of_bad_cell i parts k :
  1 <= k <= 7 -> GpuMonitor.cell (GpuMonitor.part parts k) = None ->
  GpuMonitor.reading_of i parts = None.
Proof.
  intros Hk Hbad. unfold GpuMonitor.reading_of.
  assert (Hcases : k = 1 \/ k = 2 \/ k = 3 \/ k = 4 \/ k = 5 \/ k = 6
                   \/ k = 7) by lia.
  destruct (GpuMonitor.cell (GpuMonitor.part parts 1)) eqn:E1;
    [|reflexivity].
  destruct (GpuMonitor.cell (GpuMonitor.part parts 2)) eqn:E2;
    [|reflexivity].
  destruct (GpuMonitor.cell (GpuMonitor.part parts 3)) eqn:E3;
    [|reflexivity].
  destruct (GpuMonitor.cell (GpuMonitor.part parts 4)) eqn:E4;
    [|reflexivity].
  destruct (GpuMonitor.cell (GpuMonitor.part parts 5)) eqn:E5;
    [|reflexivity].
  destruct (GpuMonitor.cell (GpuMonitor.part parts 6)) eqn:E6;
    [|reflexivity].
  destruct (GpuMonitor.cell (GpuMonitor.part parts 7)) eqn:E7;
    [|reflexivity].
  exfalso.
  destruct Hcases as [->|[->|[->|[->|[->|[->| ->]]]]]]; congruence.
Qed.

Lemma readings_bad_line pre line post : forall i,
  strip line <> [] ->
  8 <= length (map strip (split_on "," line)) ->
  GpuMonitor.reading_of (i + length pre) (map strip (split_on "," line))
  = None ->
  GpuMonitor.readings i (pre ++ line :: post) = None.
Proof.
  induction pre as [|l pre IH]; intros i Hne Hlen Hbad.
  - cbn [app GpuMonitor.readings].
    destruct (strip line) as [|c s]; [congruence|]. cbv zeta.
    apply Nat.leb_le in Hlen. rewrite Hlen.
    cbn [length] in Hbad. rewrite Nat.add_0_r in Hbad. now rewrite Hbad.
  - assert (Hrest : GpuMonitor.readings (S i) (pre ++ line :: post) = None).
    { apply IH; [exact Hne|exact Hlen|].
      cbn [length] in Hbad. now rewrite Nat.add_succ_r in Hbad. }
    change ((l :: pre) ++ line :: post) with (l :: pre ++ line :: post).
    cbn [GpuMonitor.readings]. rewrite Hrest.
    destruct (strip l); [reflexivity|].
    destruct (8 <=? _); [|reflexivity].
    now destruct (GpuMonitor.reading_of i _).
Qed.

Lemma poll_once_error q :
  poll_once q = MonitorError
  <-> (q_returncode q = 0%Z /\ q_stdout q = None).
Proof.
  unfold poll_once. destruct (q_stdout q) as [[|c out]|]; simpl.
  - rewrite andb_false_r. split; [discriminate|intros [_ H]; discriminate].
  - split; [|intros [_ H]; discriminate]. cbv zeta.
    repeat match goal with
           | |- context [match field ?g ?i with _ => _ end] =>
               destruct (field g i)
           | |- context [if ?b then _ else _] => destruct b
           end; discriminate.
  - rewrite andb_true_r. destruct (q_returncode q =? 0)%Z eqn:E.
    + apply Z.eqb_eq in E. tauto.
    + apply Z.eqb_neq in E. split; [discriminate|intros [H _]; contradiction].
Qed.

Lemma in_flat_map_cases {A B} (f : A -> list B) l y :
  In y (flat_map f l) -> exists x, In x l /\ In y (f x).
Proof. intros H. now apply in_flat_map in H. Qed.

Lemma sub_go_no_match r repl s :
  (forall k, match_at r (drop k s) = None) -> sub_go r repl s 0 = s.
Proof.
  induction s as [|c s IH]; intros H; [reflexivity|].
  pose proof (H 0) as H0. rewrite drop_0 in H0.
  cbn [sub_go]. rewrite H0. f_equal. apply IH.
  intros k. exact (H (S k)).
Qed.

Lemma contains_drop p k : forall s,
  contains p (drop k s) = true -> contains p s = true.
Proof.
  induction k as [|k IH]; intros s H; [now rewrite drop_0 in H|].
  destruct s as [|c s]; [exact H|].
  simpl in H. apply IH in H. cbn [contains]. rewrite H. apply orb_true_r.
Qed.

Lemma span_head c s :
  1 <= span (CChar newline) (c :: s) ->
  c = newline /\ span (CChar newline) (c :: s) = S (span (CChar newline) s).
Proof.
  cbn [span cmatch]. destruct (char_eqb c newline) eqn:E; [|lia].
  apply char_eqb_eq in E. auto.
Qed.

Lemma span_three s :
  3 <= span (CChar newline) s -> startswith three_newlines s = true.
Proof.
  intros H.
  destruct s as [|a s]; [simpl in H; lia|].
  destruct (span_head a s ltac:(lia)) as [-> Ha]. rewrite Ha in H.
  destruct s as [|b s]; [simpl in H; lia|].
  destruct (span_head b s ltac:(lia)) as [-> Hb]. rewrite Hb in H.
  destruct s as [|c s]; [simpl in H; lia|].
  destruct (span_head c s ltac:(lia)) as [-> Hc].
  reflexivity.
Qed.

Lemma blank_run_absent s :
  contains three_newlines s = false ->
  forall k, match_at blank_run (drop k s) = None.
Proof.
  intros H k. pose proof (match_at_blank_run (drop k s)) as Hm.
  cbv zeta in Hm. rewrite Hm.
  destruct (3 <=? span (CChar newline) (drop k s)) eqn:E; [|reflexivity].
  apply Nat.leb_le, span_three in E.
  assert (Hc : contains three_newlines (drop k s) = true).
  { destruct (drop k s); cbn [contains]; rewrite E; reflexivity. }
  apply contains_drop in Hc. congruence.
Qed.

Lemma ansi_absent s :
  ~ In ESC s -> forall k, match_at ansi_pattern (drop k s) = None.
Proof.
  intros H k. destruct (drop k s) as [|c t] eqn:E;
    [apply match_at_ansi_nil|].
  apply match_at_ansi_head.
  destruct (char_eqb c ESC) eqn:Ec; [|reflexivity].
  apply char_eqb_eq in Ec. subst c. exfalso. apply H.
  assert (Hin : In ESC (drop k s)) by (rewrite E; now left).
  apply list_elem_of_In in Hin. apply list_elem_of_In.
  revert Hin. apply subseteq_drop.
Qed.

End ReaderFacts.

(** One cell that is neither [[N/A]] nor a number voids the whole answer
    of [get_gpu_metrics]: when a line of the query output with at least
    eight fields has such a cell among its seven figures, the monitor
    answers [None], whatever the other lines hold. *)
Theorem get_gpu_metrics_one_bad_cell (gpu_available : bool) (q : query)
    (out line : text) (pre post : list text) (k : nat)
    (Hout : q_stdout q = Some out)
    (Hlines : split_on newline (strip out) = pre ++ line :: post)
    (Hline : strip line <> [])
    (Hfields : 8 <= length (split_on "," line))
    (Hk : 1 <= k <= 7)
    (Hbad : GpuMonitor.cell
              (GpuMonitor.part (map strip (split_on "," line)) k) = None) :
  GpuMonitor.get_gpu_metrics gpu_available q = None.
Proof.
  unfold GpuMonitor.get_gpu_metrics. rewrite Hout.
  destruct (negb gpu_available); [reflexivity|].
  destruct out as [|c out]; [reflexivity|].
  destruct (negb _); [reflexivity|].
  rewrite Hlines. apply readings_bad_line.
  - exact Hline.
  - now rewrite length_map.
  - now apply (reading_of_bad_cell _ _ k).
Qed.

Lemma get_gpu_metrics_one_bad_cell_witness :
  GpuMonitor.get_gpu_metrics true
    {| q_returncode := 0;
       q_stdout := Some (txt "Tesla K80, 41, 35, 1024, 8192, 60.5, 875, 2505
Tesla K80, 43, 12 %, 2048, 8192, 61.0, 875, 2505") |}
  = None.
Proof.
  refine (get_gpu_metrics_one_bad_cell true _
            (txt "Tesla K80, 41, 35, 1024, 8192, 60.5, 875, 2505
Tesla K80, 43, 12 %, 2048, 8192, 61.0, 875, 2505")
            (txt "Tesla K80, 43, 12 %, 2048, 8192, 61.0, 875, 2505")
            [txt "Tesla K80, 41, 35, 1024, 8192, 60.5, 875, 2505"] [] 2
            _ _ _ _ _ _);
    try (vm_compute; reflexivity); try discriminate; try lia.
Defined.

(** An answer with exit status 0 whose output does not decode ends the
    poller of the run: the turns of the loop end with the error, none of
    the turns before it is an error, and no answer after it is polled. *)
Theorem monitor_stops_at_first_error (pre post : list query) (q : query)
    (Hcode : q_returncode q = 0%Z)
    (Hout : q_stdout q = None) :
  exists turns,
    monitor_gpu_during_benchmark true (pre ++ q :: post)
    = turns ++ [MonitorError]
    /\ Forall (fun p => p <> MonitorError) turns
    /\ length turns <= length pre.
Proof.
  assert (Hq : poll_once q = MonitorError) by (apply poll_once_error; auto).
  unfold monitor_gpu_during_benchmark. cbn [negb].
  induction pre as [|a pre (turns & Ht & Hall & Hlen)].
  - exists []. simpl. rewrite Hq. repeat split; [constructor|lia].
  - cbn [app monitor_gpu_loop]. rewrite Ht.
    destruct (poll_once a) eqn:Ea;
      try (eexists (_ :: turns); split; [reflexivity|];
           split; [constructor; [discriminate|exact Hall]|simpl; lia]).
    exists []. repeat split; [constructor|simpl; lia].
Qed.

Lemma monitor_stops_at_first_error_witness :
  exists turns,
    monitor_gpu_during_benchmark true
      ([Sample.no_temperature]
       ++ {| q_returncode := 0; q_stdout := None |}
       :: [Sample.no_temperature_full])
    = turns ++ [MonitorError]
    /\ Forall (fun p => p <> MonitorError) turns
    /\ length turns <= length [Sample.no_temperature].
Proof.
  refine (monitor_stops_at_first_error [Sample.no_temperature]
            [Sample.no_temperature_full]
            {| q_returncode := 0; q_stdout := None |} _ _); reflexivity.
Defined.

(** Every model the endpoint [get_ollama_models] offers is one of the
    names [run_benchmark] reads off the same output of [ollama list]. *)
Theorem offered_models_are_listed (stdout : text) (e : model_entry)
    (Hin : In e (model_entries stdout)) :
  In (model_name e) (listed_models stdout).
Proof.
  unfold model_entries in Hin. unfold listed_models. cbv zeta in *.
  apply in_flat_map_cases in Hin as (line & Hline & He).
  apply in_flat_map. exists line. split; [exact Hline|].
  destruct (nonempty line && negb (startswith (txt "NAME") line));
    [|destruct He].
  destruct (4 <=? length (words line)) eqn:E; [|destruct He].
  destruct He as [<-|[]]. cbn [model_name].
  destruct (words line) as [|w ws]; [discriminate|]. now left.
Qed.

Lemma offered_models_are_listed_witness :
  In (txt "llama3.1:8b")
     (listed_models (txt "NAME           ID        SIZE    MODIFIED
llama3.1:8b    42182419  4.7GB   2 days ago")).
Proof.
  refine (offered_models_are_listed
            (txt "NAME           ID        SIZE    MODIFIED
llama3.1:8b    42182419  4.7GB   2 days ago")
            {| model_name := txt "llama3.1:8b"; model_size := txt "4.7GB" |}
            _).
  vm_compute. now left.
Defined.

(** On a text without ESC and without three newlines in a row,
    [clean_ansi_codes] only strips. *)
Theorem clean_ansi_codes_plain_text (t : text)
    (Hesc : ~ In ESC t)
    (Hblank : contains three_newlines t = false) :
  clean_ansi_codes t = strip t.
Proof.
  unfold clean_ansi_codes, sub. cbv zeta.
  rewrite (sub_go_no_match ansi_pattern [] t (ansi_absent t Hesc)).
  now rewrite (sub_go_no_match blank_run _ t (blank_run_absent t Hblank)).
Qed.

Lemma clean_ansi_codes_plain_text_witness :
  clean_ansi_codes (txt "  The answer is 42.  ") = txt "The answer is 42.".
Proof.
  rewrite (clean_ansi_codes_plain_text (txt "  The answer is 42.  ")).
  - vm_compute. reflexivity.
  - vm_compute. intuition discriminate.
  - vm_compute. reflexivity.
Defined.

(** A tag after a colon in the model name never arrives: for a label, a
    model name and a tag without whitespace or colon, the tag not being
    itself an option, the command carrying [name:tag] as its model is
    read with the model [name]. *)
Theorem on_receive_drops_model_tag (label name tag : text)
    (gpu ollama : bool)
    (Hlabel : plain label = true)
    (Hname : plain name = true)
    (Htag : plain tag = true)
    (Hgpu : startswith (txt "gpu=") tag = false)
    (Hollama : startswith (txt "ollama=") tag = false)
    (Hmodel : startswith (txt "model=") tag = false) :
  on_receive (run_command label gpu ollama (name ++ ":"%char :: tag))
  = Some (label,
          {| opt_gpu := gpu; opt_ollama := ollama; opt_model := name |}).
Proof.
  pose proof (on_receive_plain label gpu ollama name Hlabel Hname) as Hplain.
  revert Hplain. unfold on_receive, run_command.
  change (startswith (txt "run:") (txt "run:" ++ ?t)) with true.
  cbv iota.
  change (txt "run:" ++ label ++ txt ":gpu=" ++ bool_text gpu
          ++ txt ":ollama=" ++ bool_text ollama ++ txt ":model=" ++ name)
    with (txt "run" ++ ":"%char :: label ++ ":"%char
          :: (txt "gpu=" ++ bool_text gpu) ++ ":"%char
          :: (txt "ollama=" ++ bool_text ollama) ++ ":"%char
          :: txt "model=" ++ name).
  change (txt "run:" ++ label ++ txt ":gpu=" ++ bool_text gpu
          ++ txt ":ollama=" ++ bool_text ollama ++ txt ":model="
          ++ name ++ ":"%char :: tag)
    with (txt "run" ++ ":"%char :: label ++ ":"%char
          :: (txt "gpu=" ++ bool_text gpu) ++ ":"%char
          :: (txt "ollama=" ++ bool_text ollama) ++ ":"%char
          :: (txt "model=" ++ name) ++ ":"%char :: tag).
  rewrite !split_on_colon
    by first [ reflexivity | exact Hlabel
             | apply plain_app; [reflexivity|apply plain_bool_text]
             | apply plain_app; [reflexivity|exact Hname] ].
  rewrite !split_on_plain
    by first [ exact Htag | apply plain_app; [reflexivity|exact Hname] ].
  cbn [lookup list_lookup drop fold_left].
  intros Hplain. injection Hplain as Hl Ho.
  f_equal. f_equal; [exact Hl|].
  etransitivity; [|exact Ho].
  unfold parse_option at 1.
  rewrite (strip_no_space tag (plain_no_space _ Htag)).
  rewrite Hgpu, Hollama, Hmodel. reflexivity.
Qed.

Lemma on_receive_drops_model_tag_witness :
  on_receive (run_command (txt "bench1") true true (txt "mistral:7b-q4"))
  = Some (txt "bench1",
          {| opt_gpu := true; opt_ollama := true;
             opt_model := txt "mistral" |}).
Proof.
  refine (on_receive_drops_model_tag (txt "bench1") (txt "mistral")
            (txt "7b-q4") true true _ _ _ _ _ _); reflexivity.
Defined.

(** ** From a run to the listing *)

Section ListingFacts.
Variable env : Env.










End ListingFacts.



(** ** The model list of [OllamaBenchmark], the label and the memory keys *)

Section ModelListFacts.

Lemma lstrip_split s :
  exists a, s = a ++ lstrip s /\ forallb is_space a = true.
Proof.
  induction s as [|c s (a & Ha & Hs)]; [now exists []|]. simpl.
  destruct (is_space c) eqn:E.
  - exists (c :: a). simpl. rewrite E, Hs. split; [now f_equal|reflexivity].
  - now exists [].
Qed.

Lemma rstrip_split s :
  exists b, s = rstrip s ++ b /\ forallb is_space b = true.
Proof.
  destruct (lstrip_split (rev s)) as (a & Ha & Hs).
  exists (rev a). unfold rstrip. split.
  - rewrite <- rev_app_distr, <- Ha. symmetry. apply rev_involutive.
  - rewrite forallb_forall in *. intros c Hc. apply Hs. now apply in_rev.
Qed.

Lemma words_go_spaces sp : forall cur,
  forallb is_space sp = true -> words_go cur sp = words_go cur [].
Proof.
  induction sp as [|c sp IH]; intros cur H; [reflexivity|].
  simpl in H. apply andb_true_iff in H as [Hc Hs].
  cbn [words_go]. rewrite Hc.
  destruct cur; rewrite (IH [] Hs); reflexivity.
Qed.

Lemma words_go_trailing s sp : forall cur,
  forallb is_space sp = true -> words_go cur (s ++ sp) = words_go cur s.
Proof.
  induction s as [|c s IH]; intros cur H.
  - now apply words_go_spaces.
  - cbn [app words_go]. destruct (is_space c).
    + destruct cur; now rewrite (IH [] H).
    + now apply IH.
Qed.

Lemma words_go_leading a s :
  forallb is_space a = true -> words_go [] (a ++ s) = words_go [] s.
Proof.
  induction a as [|c a IH]; intros H; [reflexivity|].
  simpl in H. apply andb_true_iff in H as [Hc Hs].
  cbn [app words_go]. rewrite Hc. now apply IH.
Qed.

(** [s.strip().split()] is [s.split()]. *)
Lemma words_strip s : words (strip s) = words s.
Proof.
  unfold words, strip.
  destruct (lstrip_split s) as (a & Ha & Hsa).
  destruct (rstrip_split (lstrip s)) as (b & Hb & Hsb).
  rewrite Ha at 2. rewrite (words_go_leading a _ Hsa).
  rewrite Hb at 2. now rewrite (words_go_trailing _ b [] Hsb).
Qed.

Lemma in_tail {A} (x : A) l : In x (tail l) -> In x l.
Proof. destruct l; [auto|now right]. Qed.

Lemma tail_filter_sub {A} (f : A -> bool) x l :
  In x (tail (List.filter f l)) -> In x (List.filter f (tail l)).
Proof.
  destruct l as [|y l]; [auto|]. simpl. destruct (f y); [auto|].
  apply in_tail.
Qed.

Lemma split_on_cons sep s : exists h t, split_on sep s = h :: t.
Proof.
  induction s as [|c s (h & t & IH)]; simpl; [eauto|].
  destruct (char_eqb c sep); [eauto|]. rewrite IH. eauto.
Qed.

(** Every key of [m] satisfies [P]. *)
Let allowed (P : string -> Prop) (m : dict) : Prop :=
  forall k, is_Some (m !! k) -> P k.

Let memory_key (k : string) : Prop :=
  In k memory_keys \/ exists percent, k = percentile_key percent.

Lemma allowed_empty P : allowed P ∅.
Proof. intros k [v Hv]. rewrite lookup_empty in Hv. discriminate. Qed.

Lemma allowed_insert P (k0 : string) v (m : dict) :
  P k0 -> allowed P m -> allowed P (<[k0 := v]> m).
Proof.
  intros Hk Hm k Hs. destruct (decide (k0 = k)) as [<-|Hne]; [exact Hk|].
  rewrite lookup_insert_ne in Hs by exact Hne. now apply Hm.
Qed.

Lemma allowed_stats P kmin kavg kmax line (m : dict) :
  P kmin -> P kavg -> P kmax ->
  allowed P m -> allowed P (put_stats kmin kavg kmax line m).
Proof.
  intros H1 H2 H3 Hm. unfold put_stats. destruct (search _ _); [|exact Hm].
  now repeat apply allowed_insert.
Qed.

Lemma allowed_percentiles percents : forall times m,
  allowed memory_key m ->
  allowed memory_key (put_percentiles percents times m).
Proof.
  induction percents as [|p ps IH]; intros [|t ts] m Hm; simpl; auto.
  apply IH, allowed_insert; [right; eauto|exact Hm].
Qed.

Ltac allowed_stage Hm :=
  repeat first
    [ exact Hm
    | apply allowed_percentiles
    | apply allowed_stats;
      [left; simpl; tauto|left; simpl; tauto|left; simpl; tauto|]
    | apply allowed_insert; [left; simpl; tauto|]
    | match goal with
      | |- allowed _ (if ?b then _ else _) => destruct b
      | |- allowed _ (match ?x with _ => _ end) => destruct x
      end ].

Lemma memory_step_allowed m raw :
  allowed memory_key m -> allowed memory_key (memory_step m raw).
Proof.
  intros Hm. unfold memory_step. cbv zeta.
  set (line := strip raw). clearbody line.
  set (m1 := if has "total number of operations" line then _ else m).
  assert (H1 : allowed memory_key m1) by (subst m1; allowed_stage Hm).
  clearbody m1. clear Hm.
  set (m2 := if has "operations per second" line then _ else m1).
  assert (H2 : allowed memory_key m2) by (subst m2; allowed_stage H1).
  clearbody m2. clear H1.
  set (m3 := if has "transferred" line then _ else m2).
  assert (H3 : allowed memory_key m3) by (subst m3; allowed_stage H2).
  clearbody m3. clear H2.
  set (m4 := if has "Percentile" line && has "ms" line then _ else m3).
  assert (H4 : allowed memory_key m4) by (subst m4; allowed_stage H3).
  clearbody m4. clear H3.
  allowed_stage H4.
Qed.

Lemma parse_memory_allowed lines :
  allowed memory_key (parse_sysbench_memory lines).
Proof.
  unfold parse_sysbench_memory.
  assert (H : forall m, allowed memory_key m ->
                        allowed memory_key (fold_left memory_step lines m)).
  { induction lines as [|l ls IH]; intros m Hm; simpl; [exact Hm|].
    apply IH. now apply memory_step_allowed. }
  apply H, allowed_empty.
Qed.

End ModelListFacts.

(** Every model the run resolves from the output of [ollama list] is one
    that [OllamaBenchmark.get_available_models] reports for the same
    output. *)
Theorem listed_models_are_available (stdout : text) (model : text)
    (Hin : In model (listed_models stdout)) :
  In model (OllamaBenchmark.available_models stdout).
Proof.
  unfold listed_models in Hin. unfold OllamaBenchmark.available_models.
  cbv zeta in *. apply in_flat_map in Hin as (line' & Hline & Hm).
  apply tail_filter_sub in Hline. apply filter_In in Hline as [Hline Hne].
  assert (Htail : forall l : list text, tail (map strip l) = map strip (tail l))
    by (intros [|? ?]; reflexivity).
  rewrite Htail in Hline. apply in_map_iff in Hline as (line & <- & Hline).
  apply in_flat_map. exists line. split; [exact Hline|].
  rewrite Hne. rewrite Hne in Hm. cbn [andb] in Hm.
  destruct (negb (startswith (txt "NAME") (strip line))); [|destruct Hm].
  now rewrite <- words_strip.
Qed.

Lemma listed_models_are_available_witness :
  In (txt "llama3.1:8b")
     (OllamaBenchmark.available_models
        (txt "NAME           ID        SIZE    MODIFIED
  llama3.1:8b    42182419  4.7GB   2 days ago")).
Proof.
  refine (listed_models_are_available _ (txt "llama3.1:8b") _).
  vm_compute. now left.
Defined.

(** The label of a scheduled run is always the second colon-separated
    field of the received text, stripped: that field exists whenever the
    text begins with [run:], so the fallback label is never used. *)
Theorem on_receive_label_is_second_field (data label : text)
    (options : Options)
    (Hrun : on_receive data = Some (label, options)) :
  exists field, split_on ":" data !! 1 = Some field /\ label = strip field.
Proof.
  unfold on_receive in Hrun.
  destruct (startswith (txt "run:") data) eqn:Es; [|discriminate].
  apply startswith_app in Es as [rest ->].
  change (split_on ":" (txt "run:" ++ rest))
    with (txt "run" :: split_on ":" rest) in *.
  destruct (split_on_cons ":" rest) as (h & t & Hs).
  rewrite Hs in *. cbn [lookup list_lookup] in *.
  exists h. split; [reflexivity|]. now injection Hrun as <- _.
Qed.

Lemma on_receive_label_is_second_field_witness :
  exists field,
    split_on ":" (txt "run:") !! 1 = Some field /\ [] = strip field.
Proof.
  refine (on_receive_label_is_second_field (txt "run:") [] default_options
            _).
  vm_compute. reflexivity.
Defined.

(** A key of the mapping the memory parser returns is one of its seven
    fixed keys or a percentile key. *)
Theorem parse_sysbench_memory_keys (output : list text) (k : string)
    (Hk : is_Some (parse_sysbench_memory output !! k)) :
  In k memory_keys \/ exists percent, k = percentile_key percent.
Proof. exact (parse_memory_allowed output k Hk). Qed.

Lemma parse_sysbench_memory_keys_witness :
  In "read_mib_sec"%string memory_keys
  \/ exists percent, "read_mib_sec"%string = percentile_key percent.
Proof.
  refine (parse_sysbench_memory_keys
            [txt "10240.00 MiB transferred (8541.30 MiB/sec)"]
            "read_mib_sec" _).
  vm_compute. eauto.
Defined.
